(** * sftpplease: the SFTP v3 codec, the read-only VFS wrapper and the
    session engine, embedded from the Go sources

    - [protosftp]  : sftp/protosftp (wire constants, marshal/unmarshal,
                     [ReadPacket], [WritePacket])
    - [vfs]        : vfs/vfs.go ([File], [VFS], [ReadOnlyVFS], [ReadOnlyFile])
    - [sftp]       : sftp/session.go (handlers, per-handle goroutines, [Serve])

    Integers of a fixed width are [Z] with the wrap-around written where the
    Go code converts; byte slices are [list byte]; Go strings are [string].
    A Go panic (index or slice out of range) is the [Panic] outcome. *)

From Stdlib Require Import ZArith Strings.Byte.
From stdpp Require Import gmap strings list pretty.

Local Open Scope Z_scope.

(* ================================================================== *)
(** ** Go values shared by the packages *)
(* ================================================================== *)

Module golang.

(** The [error] values the programme creates or tests for.  [Errno] and
    [PathError] are the shapes the standard library's [os.IsPermission]
    looks through; [errorString] is any [errors.New] / [fmt.Errorf] value. *)
Inductive error : Type :=
| io_EOF
| io_ErrUnexpectedEOF
| os_ErrNotExist
| os_ErrPermission
| ErrInvalidHandle
| ErrUnsupported
| ErrBadRead
| ErrTooManyOpenFiles
| errShortPacket
| errorString (msg : string)
| Errno (n : Z)
| PathError (Op Path : string) (Err : error).

Definition EPERM : Z := 1.
Definition ENOENT : Z := 2.
Definition EACCES : Z := 13.

Definition errnoText (n : Z) : string :=
  if n =? EPERM then "operation not permitted"
  else if n =? ENOENT then "no such file or directory"
  else if n =? EACCES then "permission denied"
  else "errno " +:+ pretty n.

(** [err.Error()] *)
Fixpoint Error (e : error) : string :=
  match e with
  | io_EOF => "EOF"
  | io_ErrUnexpectedEOF => "unexpected EOF"
  | os_ErrNotExist => "file does not exist"
  | os_ErrPermission => "permission denied"
  | ErrInvalidHandle => "invalid handle"
  | ErrUnsupported => "unsupported operation"
  | ErrBadRead => "bad read"
  | ErrTooManyOpenFiles => "too many open files"
  | errShortPacket => "packet too short"
  | errorString msg => msg
  | Errno n => errnoText n
  | PathError op path err => op +:+ " " +:+ path +:+ ": " +:+ Error err
  end.

(** [err == io.EOF] and the like: comparison with a sentinel. *)
Definition is_EOF (e : error) : bool :=
  match e with io_EOF => true | _ => false end.
Definition is_ErrNotExist (e : error) : bool :=
  match e with os_ErrNotExist => true | _ => false end.
Definition is_ErrUnsupported (e : error) : bool :=
  match e with ErrUnsupported => true | _ => false end.

(** [os.underlyingError] *)
Definition underlyingError (e : error) : error :=
  match e with
  | PathError _ _ err => err
  | _ => e
  end.

(** [os.IsPermission]: the unwrapped error is [os.ErrPermission], or an
    errno that reports it (EACCES, EPERM). *)
Definition IsPermission (e : error) : bool :=
  match underlyingError e with
  | os_ErrPermission => true
  | Errno n => (n =? EACCES) || (n =? EPERM)
  | _ => false
  end.

(** What a call that may fail or panic comes back with. *)
Inductive outcome (A : Type) : Type :=
| Ok (a : A)
| Err (e : error)
| Panic.
Arguments Ok {A} a.
Arguments Err {A} e.
Arguments Panic {A}.

Definition bind {A B} (m : outcome A) (k : A -> outcome B) : outcome B :=
  match m with
  | Ok a => k a
  | Err e => Err e
  | Panic => Panic
  end.

(** Conversions between integer types. *)
Definition uint8 (z : Z) : Z := z mod 2 ^ 8.
Definition uint32 (z : Z) : Z := z mod 2 ^ 32.
Definition uint64 (z : Z) : Z := z mod 2 ^ 64.
Definition int64 (z : Z) : Z := (z + 2 ^ 63) mod 2 ^ 64 - 2 ^ 63.

(** [byte(v)] and [uintN(b)] *)
Definition byte_of_Z (z : Z) : byte :=
  default x00 (Byte.of_N (Z.to_N (uint8 z))).
Definition Z_of_byte (b : byte) : Z := Z.of_N (Byte.to_N b).

(** [len(x)] *)
Definition len {A} (l : list A) : Z := Z.of_nat (length l).

(** [b[:n]] and [b[n:]]; out of range panics. *)
Definition slice_to {A} (b : list A) (n : Z) : outcome (list A) :=
  if (0 <=? n) && (n <=? len b) then Ok (take (Z.to_nat n) b) else Panic.
Definition slice_from {A} (b : list A) (n : Z) : outcome (list A) :=
  if (0 <=? n) && (n <=? len b) then Ok (drop (Z.to_nat n) b) else Panic.

(** [[]byte(s)] and [string(b)] *)
Definition bytes_of_string (s : string) : list byte := String.list_byte_of_string s.
Definition string_of_bytes (b : list byte) : string := String.string_of_list_byte b.

(** [os.FileInfo], as far as the session reads it. *)
Record FileInfo : Type := mkFileInfo {
  fi_Name : string;
  fi_Size : Z;
  fi_Mode : Z;
  fi_ModTime : Z;      (* ModTime().Unix() *)
  fi_IsDir : bool
}.

(** [os] open flags (linux). *)
Definition O_RDONLY : Z := 0.
Definition O_WRONLY : Z := 1.
Definition O_RDWR : Z := 2.
Definition O_CREATE : Z := 64.
Definition O_EXCL : Z := 128.
Definition O_TRUNC : Z := 512.
Definition O_APPEND : Z := 1024.

End golang.

(* ================================================================== *)
(** ** package protosftp: constants and packets *)
(* ================================================================== *)

Module protosftp.
Import golang.

#[global] Instance outcome_bind : MBind outcome := fun A B k m => bind m k.
#[global] Instance outcome_ret : MRet outcome := fun A a => Ok a.

Definition ProtocolVersion : Z := 3.

Definition FXP_INIT : Z := 1.
Definition FXP_VERSION : Z := 2.
Definition FXP_OPEN : Z := 3.
Definition FXP_CLOSE : Z := 4.
Definition FXP_READ : Z := 5.
Definition FXP_WRITE : Z := 6.
Definition FXP_LSTAT : Z := 7.
Definition FXP_FSTAT : Z := 8.
Definition FXP_SETSTAT : Z := 9.
Definition FXP_FSETSTAT : Z := 10.
Definition FXP_OPENDIR : Z := 11.
Definition FXP_READDIR : Z := 12.
Definition FXP_REMOVE : Z := 13.
Definition FXP_MKDIR : Z := 14.
Definition FXP_RMDIR : Z := 15.
Definition FXP_REALPATH : Z := 16.
Definition FXP_STAT : Z := 17.
Definition FXP_RENAME : Z := 18.
Definition FXP_READLINK : Z := 19.
Definition FXP_SYMLINK : Z := 20.
Definition FXP_STATUS : Z := 101.
Definition FXP_HANDLE : Z := 102.
Definition FXP_DATA : Z := 103.
Definition FXP_NAME : Z := 104.
Definition FXP_ATTRS : Z := 105.
Definition FXP_EXTENDED : Z := 200.
Definition FXP_EXTENDED_REPLY : Z := 201.

Definition FX_OK : Z := 0.
Definition FX_EOF : Z := 1.
Definition FX_NO_SUCH_FILE : Z := 2.
Definition FX_PERMISSION_DENIED : Z := 3.
Definition FX_FAILURE : Z := 4.
Definition FX_BAD_MESSAGE : Z := 5.
Definition FX_NO_CONNECTION : Z := 6.
Definition FX_CONNECTION_LOST : Z := 7.
Definition FX_OP_UNSUPPORTED : Z := 8.

Definition FXF_READ : Z := 1.
Definition FXF_WRITE : Z := 2.
Definition FXF_APPEND : Z := 4.
Definition FXF_CREAT : Z := 8.
Definition FXF_TRUNC : Z := 16.
Definition FXF_EXCL : Z := 32.

Definition FILEXFER_ATTR_SIZE : Z := 1.
Definition FILEXFER_ATTR_UIDGID : Z := 2.
Definition FILEXFER_ATTR_PERMISSIONS : Z := 4.
Definition FILEXFER_ATTR_ACMODTIME : Z := 8.
Definition FILEXFER_ATTR_EXTENDED : Z := 2147483648.

Definition S_IFREG : Z := 32768.    (* 0100000 *)
Definition S_IFDIR : Z := 16384.    (* 0040000 *)

(** [fxp.String] *)
Definition fxp_String (f : Z) : string :=
  if f =? FXP_INIT then "FXP_INIT"
  else if f =? FXP_VERSION then "FXP_VERSION"
  else if f =? FXP_OPEN then "FXP_OPEN"
  else if f =? FXP_CLOSE then "FXP_CLOSE"
  else if f =? FXP_READ then "FXP_READ"
  else if f =? FXP_WRITE then "FXP_WRITE"
  else if f =? FXP_LSTAT then "FXP_LSTAT"
  else if f =? FXP_FSTAT then "FXP_FSTAT"
  else if f =? FXP_SETSTAT then "FXP_SETSTAT"
  else if f =? FXP_FSETSTAT then "FXP_FSETSTAT"
  else if f =? FXP_OPENDIR then "FXP_OPENDIR"
  else if f =? FXP_READDIR then "FXP_READDIR"
  else if f =? FXP_REMOVE then "FXP_REMOVE"
  else if f =? FXP_MKDIR then "FXP_MKDIR"
  else if f =? FXP_RMDIR then "FXP_RMDIR"
  else if f =? FXP_REALPATH then "FXP_REALPATH"
  else if f =? FXP_STAT then "FXP_STAT"
  else if f =? FXP_RENAME then "FXP_RENAME"
  else if f =? FXP_READLINK then "FXP_READLINK"
  else if f =? FXP_SYMLINK then "FXP_SYMLINK"
  else if f =? FXP_STATUS then "FXP_STATUS"
  else if f =? FXP_HANDLE then "FXP_HANDLE"
  else if f =? FXP_DATA then "FXP_DATA"
  else if f =? FXP_NAME then "FXP_NAME"
  else if f =? FXP_ATTRS then "FXP_ATTRS"
  else if f =? FXP_EXTENDED then "FXP_EXTENDED"
  else if f =? FXP_EXTENDED_REPLY then "FXP_EXTENDED_REPLY"
  else "unknown".

Record StatusError : Type := mkStatusError {
  Code : Z;
  Msg : string;
  Lang : string
}.

Record StatExtended : Type := mkStatExtended {
  ExtType : string;
  ExtData : string
}.

Record FileStat : Type := mkFileStat {
  Flags : Z;
  Size : Z;
  Mode : Z;
  Mtime : Z;
  Atime : Z;
  UID : Z;
  GID : Z;
  Extended : list StatExtended
}.

(** [FileStat{}] *)
Definition EmptyFileStat : FileStat := mkFileStat 0 0 0 0 0 0 0 [].

Record extensionPair : Type := mkExtensionPair {
  ep_Name : string;
  ep_Data : string
}.

Record FxpNameAttr : Type := mkFxpNameAttr {
  na_Name : string;
  na_LongName : string;
  na_Attrs : FileStat
}.

(** The packet structs, one constructor each, fields in declaration order. *)
Inductive Packet : Type :=
| FxpInitPacket (Version : Z) (Extensions : list extensionPair)
| FxVersionPacket (Version : Z) (Extensions : list extensionPair)
| FxpReaddirPacket (ID : Z) (Handle : string)
| FxpOpendirPacket (ID : Z) (Path : string)
| FxpLstatPacket (ID : Z) (Path : string)
| FxpStatPacket (ID : Z) (Path : string)
| FxpFstatPacket (ID : Z) (Handle : string)
| FxpStatResponse (ID : Z) (Info : FileStat)
| FxpClosePacket (ID : Z) (Handle : string)
| FxpRemovePacket (ID : Z) (Filename : string)
| FxpRmdirPacket (ID : Z) (Path : string)
| FxpSymlinkPacket (ID : Z) (Targetpath Linkpath : string)
| FxpReadlinkPacket (ID : Z) (Path : string)
| FxpRealpathPacket (ID : Z) (Path : string)
| FxpNamePacket (ID : Z) (NameAttrs : list FxpNameAttr)
| FxpOpenPacket (ID : Z) (Path : string) (Pflags : Z) (Attrs : FileStat)
| FxpReadPacket (ID : Z) (Handle : string) (Offset : Z) (Len : Z)
| FxpRenamePacket (ID : Z) (Oldpath Newpath : string)
| FxpWritePacket (ID : Z) (Handle : string) (Offset : Z) (Length : Z)
                 (Data : list byte)
| FxpMkdirPacket (ID : Z) (Path : string) (Attrs : FileStat)
| FxpSetStatPacket (ID : Z) (Path : string) (Attrs : FileStat)
| FxpFSetStatPacket (ID : Z) (Handle : string) (Attrs : FileStat)
| FxpHandlePacket (ID : Z) (Handle : string)
| FxpStatusPacket (ID : Z) (StatusError : StatusError)
| FxpDataPacket (ID : Z) (Length : Z) (Data : list byte).

Definition MakeStatus (id : Z) (msg : string) (code : Z) : Packet :=
  FxpStatusPacket id (mkStatusError code msg "").

(** *** marshalling *)

Definition marshalUint32 (b : list byte) (v : Z) : list byte :=
  b ++ [byte_of_Z (Z.shiftr v 24); byte_of_Z (Z.shiftr v 16);
        byte_of_Z (Z.shiftr v 8); byte_of_Z v].

Definition marshalUint64 (b : list byte) (v : Z) : list byte :=
  marshalUint32 (marshalUint32 b (uint32 (Z.shiftr v 32))) (uint32 v).

Definition marshalString (b : list byte) (v : string) : list byte :=
  marshalUint32 b (uint32 (len (bytes_of_string v))) ++ bytes_of_string v.

Definition marshalStatus (b : list byte) (err : StatusError) : list byte :=
  let b := marshalUint32 b (Code err) in
  let b := marshalString b (Msg err) in
  let b := marshalString b (Lang err) in
  b.

Definition marshalFileStat (b : list byte) (stat : FileStat) : list byte :=
  let b := marshalUint32 b (Flags stat) in
  let b := if Z.land (Flags stat) FILEXFER_ATTR_SIZE =? 0 then b
           else marshalUint64 b (Size stat) in
  let b := if Z.land (Flags stat) FILEXFER_ATTR_UIDGID =? 0 then b
           else marshalUint32 (marshalUint32 b (UID stat)) (GID stat) in
  let b := if Z.land (Flags stat) FILEXFER_ATTR_PERMISSIONS =? 0 then b
           else marshalUint32 b (Mode stat) in
  let b := if Z.land (Flags stat) FILEXFER_ATTR_ACMODTIME =? 0 then b
           else marshalUint32 (marshalUint32 b (Atime stat)) (Mtime stat) in
  b.

Definition marshalIDString (packetType : Z) (id : Z) (str : string)
  : outcome (list byte) :=
  let b := [byte_of_Z packetType] in
  let b := marshalUint32 b id in
  let b := marshalString b str in
  Ok b.

Definition marshalExtensions (b : list byte) (es : list extensionPair)
  : list byte :=
  foldl (fun b e => marshalString (marshalString b (ep_Name e)) (ep_Data e))
        b es.

Definition FxpNameAttr_MarshalBinary (p : FxpNameAttr) : list byte :=
  let b := [] in
  let b := marshalString b (na_Name p) in
  let b := marshalString b (na_LongName p) in
  let b := marshalFileStat b (na_Attrs p) in
  b.

Definition MarshalBinary (p : Packet) : outcome (list byte) :=
  match p with
  | FxpInitPacket v es =>
      Ok (marshalExtensions (marshalUint32 [byte_of_Z FXP_INIT] v) es)
  | FxVersionPacket v es =>
      Ok (marshalExtensions (marshalUint32 [byte_of_Z FXP_VERSION] v) es)
  | FxpReaddirPacket id h => marshalIDString FXP_READDIR id h
  | FxpOpendirPacket id p => marshalIDString FXP_OPENDIR id p
  | FxpLstatPacket id p => marshalIDString FXP_LSTAT id p
  | FxpStatPacket id p => marshalIDString FXP_STAT id p
  | FxpFstatPacket id h => marshalIDString FXP_FSTAT id h
  | FxpStatResponse id info =>
      Ok (marshalFileStat (marshalUint32 [byte_of_Z FXP_ATTRS] id) info)
  | FxpClosePacket id h => marshalIDString FXP_CLOSE id h
  | FxpRemovePacket id f => marshalIDString FXP_REMOVE id f
  | FxpRmdirPacket id p => marshalIDString FXP_RMDIR id p
  | FxpSymlinkPacket id t l =>
      Ok (marshalString
            (marshalString (marshalUint32 [byte_of_Z FXP_SYMLINK] id) t) l)
  | FxpReadlinkPacket id p => marshalIDString FXP_READLINK id p
  | FxpRealpathPacket id p => marshalIDString FXP_REALPATH id p
  | FxpNamePacket id nas =>
      let b := [byte_of_Z FXP_NAME] in
      let b := marshalUint32 b id in
      let b := marshalUint32 b (uint32 (len nas)) in
      Ok (foldl (fun b na => b ++ FxpNameAttr_MarshalBinary na) b nas)
  | FxpOpenPacket id p pflags attrs =>
      Ok (marshalFileStat
            (marshalUint32
               (marshalString (marshalUint32 [byte_of_Z FXP_OPEN] id) p)
               pflags)
            attrs)
  | FxpReadPacket id h off l =>
      Ok (marshalUint32
            (marshalUint64
               (marshalString (marshalUint32 [byte_of_Z FXP_READ] id) h) off)
            l)
  | FxpRenamePacket id o n =>
      Ok (marshalString
            (marshalString (marshalUint32 [byte_of_Z FXP_RENAME] id) o) n)
  | FxpWritePacket id h off l data =>
      Ok (marshalUint32
            (marshalUint64
               (marshalString (marshalUint32 [byte_of_Z FXP_WRITE] id) h) off)
            l ++ data)
  | FxpMkdirPacket id p attrs =>
      Ok (marshalFileStat
            (marshalString (marshalUint32 [byte_of_Z FXP_MKDIR] id) p) attrs)
  | FxpSetStatPacket id p attrs =>
      Ok (marshalFileStat
            (marshalString (marshalUint32 [byte_of_Z FXP_SETSTAT] id) p) attrs)
  | FxpFSetStatPacket id h attrs =>
      Ok (marshalFileStat
            (marshalString (marshalUint32 [byte_of_Z FXP_FSETSTAT] id) h)
            attrs)
  | FxpHandlePacket id h =>
      Ok (marshalString (marshalUint32 [byte_of_Z FXP_HANDLE] id) h)
  | FxpStatusPacket id st =>
      Ok (marshalStatus (marshalUint32 [byte_of_Z FXP_STATUS] id) st)
  | FxpDataPacket id l data =>
      let b := [byte_of_Z FXP_DATA] in
      let b := marshalUint32 b id in
      let b := marshalUint32 b l in
      d ← slice_to data l;
      Ok (b ++ d)
  end.

(** [WritePacket]: [w] is what the writer has received so far. *)
Definition WritePacket (w : list byte) (m : Packet) : outcome (list byte) :=
  bb ← MarshalBinary m;
  let l := uint32 (len bb) in
  let hdr := [byte_of_Z (Z.shiftr l 24); byte_of_Z (Z.shiftr l 16);
              byte_of_Z (Z.shiftr l 8); byte_of_Z l] in
  Ok (w ++ hdr ++ bb).

(** *** unmarshalling *)

Definition unmarshalUint32 (b : list byte) : outcome (Z * list byte) :=
  match b with
  | b0 :: b1 :: b2 :: b3 :: rest =>
      Ok (Z.lor (Z.lor (Z.lor (Z_of_byte b3) (Z.shiftl (Z_of_byte b2) 8))
                       (Z.shiftl (Z_of_byte b1) 16))
                (Z.shiftl (Z_of_byte b0) 24),
          rest)
  | _ => Panic
  end.

Definition unmarshalUint32Safe (b : list byte) : outcome (Z * list byte) :=
  if len b <? 4 then Err errShortPacket
  else unmarshalUint32 b.

Definition unmarshalUint64 (b : list byte) : outcome (Z * list byte) :=
  '(h, b) ← unmarshalUint32 b;
  '(l, b) ← unmarshalUint32 b;
  Ok (Z.lor (Z.shiftl (uint64 h) 32) (uint64 l), b).

Definition unmarshalUint64Safe (b : list byte) : outcome (Z * list byte) :=
  if len b <? 8 then Err errShortPacket
  else unmarshalUint64 b.

Definition unmarshalStringSafe (b : list byte)
  : outcome (string * list byte) :=
  '(n, b) ← unmarshalUint32Safe b;
  if int64 n >? int64 (len b) then Err errShortPacket
  else
    s ← slice_to b n;
    b ← slice_from b n;
    Ok (string_of_bytes s, b).

Definition unmarshalExtensionPair (b : list byte)
  : outcome (extensionPair * list byte) :=
  '(name, b) ← unmarshalStringSafe b;
  '(data, b) ← unmarshalStringSafe b;
  Ok (mkExtensionPair name data, b).

(** The loop [for len(b) > 0] of [FxpInitPacket.UnmarshalBinary]; every
    round consumes at least eight bytes, so [length b] rounds are enough. *)
Fixpoint unmarshalExtensions (fuel : nat) (b : list byte)
         (acc : list extensionPair) : outcome (list extensionPair) :=
  if len b >? 0 then
    match fuel with
    | O => Ok acc
    | S fuel =>
        '(ep, b) ← unmarshalExtensionPair b;
        unmarshalExtensions fuel b (acc ++ [ep])
    end
  else Ok acc.

Definition unmarshalIDString (b : list byte) : outcome (Z * string) :=
  '(id, b) ← unmarshalUint32Safe b;
  '(str, b) ← unmarshalStringSafe b;
  Ok (id, str).

Definition unmarshalFileStatSafe (b : list byte) (stat : FileStat)
  : outcome (FileStat * list byte) :=
  '(flags, b) ← unmarshalUint32Safe b;
  let stat := mkFileStat flags (Size stat) (Mode stat) (Mtime stat)
                         (Atime stat) (UID stat) (GID stat) (Extended stat) in
  '(stat, b) ←
     (if Z.land (Flags stat) FILEXFER_ATTR_UIDGID =? 0 then Ok (stat, b)
      else
        '(uid, b) ← unmarshalUint32Safe b;
        '(gid, b) ← unmarshalUint32Safe b;
        Ok (mkFileStat (Flags stat) (Size stat) (Mode stat) (Mtime stat)
                       (Atime stat) uid gid (Extended stat), b));
  '(stat, b) ←
     (if Z.land (Flags stat) FILEXFER_ATTR_PERMISSIONS =? 0 then Ok (stat, b)
      else
        '(mode, b) ← unmarshalUint32Safe b;
        Ok (mkFileStat (Flags stat) (Size stat) mode (Mtime stat)
                       (Atime stat) (UID stat) (GID stat) (Extended stat), b));
  '(stat, b) ←
     (if Z.land (Flags stat) FILEXFER_ATTR_ACMODTIME =? 0 then Ok (stat, b)
      else
        '(atime, b) ← unmarshalUint32Safe b;
        '(mtime, b) ← unmarshalUint32Safe b;
        Ok (mkFileStat (Flags stat) (Size stat) (Mode stat) mtime
                       atime (UID stat) (GID stat) (Extended stat), b));
  Ok (stat, b).

(** [pkt.UnmarshalBinary(b[1:])] on the zero value chosen by the packet
    type switch of [ReadPacket]; [body] is [b[1:]]. *)
Definition UnmarshalBinary (pktType : Z) (body : list byte) : outcome Packet :=
  if pktType =? FXP_INIT then
    '(v, b) ← unmarshalUint32Safe body;
    es ← unmarshalExtensions (length b) b [];
    Ok (FxpInitPacket v es)
  else if pktType =? FXP_LSTAT then
    '(id, s) ← unmarshalIDString body; Ok (FxpLstatPacket id s)
  else if pktType =? FXP_OPEN then
    '(id, b) ← unmarshalUint32Safe body;
    '(path, b) ← unmarshalStringSafe b;
    '(pflags, b) ← unmarshalUint32Safe b;
    '(attrs, b) ← unmarshalFileStatSafe b EmptyFileStat;
    Ok (FxpOpenPacket id path pflags attrs)
  else if pktType =? FXP_CLOSE then
    '(id, s) ← unmarshalIDString body; Ok (FxpClosePacket id s)
  else if pktType =? FXP_READ then
    '(id, b) ← unmarshalUint32Safe body;
    '(h, b) ← unmarshalStringSafe b;
    '(off, b) ← unmarshalUint64Safe b;
    '(l, b) ← unmarshalUint32Safe b;
    Ok (FxpReadPacket id h off l)
  else if pktType =? FXP_WRITE then
    '(id, b) ← unmarshalUint32Safe body;
    '(h, b) ← unmarshalStringSafe b;
    '(off, b) ← unmarshalUint64Safe b;
    '(l, b) ← unmarshalUint32Safe b;
    if uint32 (len b) <? l then Err errShortPacket
    else
      d ← slice_to b l;
      Ok (FxpWritePacket id h off l d)
  else if pktType =? FXP_FSTAT then
    '(id, s) ← unmarshalIDString body; Ok (FxpFstatPacket id s)
  else if pktType =? FXP_SETSTAT then
    '(id, b) ← unmarshalUint32Safe body;
    '(path, b) ← unmarshalStringSafe b;
    '(attrs, b) ← unmarshalFileStatSafe b EmptyFileStat;
    Ok (FxpSetStatPacket id path attrs)
  else if pktType =? FXP_FSETSTAT then
    '(id, b) ← unmarshalUint32Safe body;
    '(h, b) ← unmarshalStringSafe b;
    '(attrs, b) ← unmarshalFileStatSafe b EmptyFileStat;
    Ok (FxpFSetStatPacket id h attrs)
  else if pktType =? FXP_OPENDIR then
    '(id, s) ← unmarshalIDString body; Ok (FxpOpendirPacket id s)
  else if pktType =? FXP_READDIR then
    '(id, s) ← unmarshalIDString body; Ok (FxpReaddirPacket id s)
  else if pktType =? FXP_REMOVE then
    '(id, s) ← unmarshalIDString body; Ok (FxpRemovePacket id s)
  else if pktType =? FXP_MKDIR then
    '(id, b) ← unmarshalUint32Safe body;
    '(path, b) ← unmarshalStringSafe b;
    '(attrs, b) ← unmarshalFileStatSafe b EmptyFileStat;
    Ok (FxpMkdirPacket id path attrs)
  else if pktType =? FXP_RMDIR then
    '(id, s) ← unmarshalIDString body; Ok (FxpRmdirPacket id s)
  else if pktType =? FXP_REALPATH then
    '(id, s) ← unmarshalIDString body; Ok (FxpRealpathPacket id s)
  else if pktType =? FXP_STAT then
    '(id, s) ← unmarshalIDString body; Ok (FxpStatPacket id s)
  else if pktType =? FXP_RENAME then
    '(id, b) ← unmarshalUint32Safe body;
    '(o, b) ← unmarshalStringSafe b;
    '(n, b) ← unmarshalStringSafe b;
    Ok (FxpRenamePacket id o n)
  else if pktType =? FXP_READLINK then
    '(id, s) ← unmarshalIDString body; Ok (FxpReadlinkPacket id s)
  else if pktType =? FXP_SYMLINK then
    '(id, b) ← unmarshalUint32Safe body;
    '(t, b) ← unmarshalStringSafe b;
    '(l, b) ← unmarshalStringSafe b;
    Ok (FxpSymlinkPacket id t l)
  else Err (errorString ("unhandled packet type: " +:+ fxp_String pktType)).

(** [io.ReadFull(r, b)] with [len(b) = n] on a stream that ends after the
    bytes of [r]: the bytes read and the rest of the stream. *)
Definition ReadFull (r : list byte) (n : Z) : outcome (list byte) * list byte :=
  if n <=? 0 then (Ok [], r)
  else if len r <? n then
    (Err (match r with [] => io_EOF | _ => io_ErrUnexpectedEOF end), [])
  else (Ok (take (Z.to_nat n) r), drop (Z.to_nat n) r).

(** Everything of [ReadPacket] after the frame is in memory: the type tag
    [b[0]], the switch and [UnmarshalBinary(b[1:])]. *)
Definition parseBody (b : list byte) : outcome Packet :=
  match b with
  | [] => Panic
  | t :: body => UnmarshalBinary (Z_of_byte t) body
  end.

Definition ReadPacket (r : list byte) : outcome Packet * list byte :=
  match ReadFull r 4 with
  | (Ok b, r) =>
      match unmarshalUint32 b with
      | Ok (l, _) =>
          if l >? 1024 * 1024 then (Err (errorString "packet too large"), r)
          else if l <=? 1 then (Err (errorString "packet too small"), r)
          else
            match ReadFull r l with
            | (Ok b, r) => (parseBody b, r)
            | (Err e, r) => (Err e, r)
            | (Panic, r) => (Panic, r)
            end
      | Err e => (Err e, r)
      | Panic => (Panic, r)
      end
  | (Err e, r) => (Err e, r)
  | (Panic, r) => (Panic, r)
  end.

End protosftp.

(* ================================================================== *)
(** ** package vfs: the interfaces and the read-only wrapper *)
(* ================================================================== *)

Module vfs.
Import golang.

(** A Go pair [(T, error)] whose value is meaningful only without error. *)
Inductive result (A : Type) : Type :=
| Success (a : A)
| Failure (e : error).
Arguments Success {A} a.
Arguments Failure {A} e.

(** [interface File].  [W] is the state behind the backend; a method is a
    transition of it.  [Read]/[ReadAt] receive the caller's buffer and give
    back the count, the buffer as they leave it and the error. *)
Module File.
Record t (W : Type) : Type := mk {
  Name : string;
  Chmod : Z -> W -> option error * W;
  Read : list byte -> W -> (Z * list byte * option error) * W;
  ReadAt : list byte -> Z -> W -> (Z * list byte * option error) * W;
  Readdir : Z -> W -> (list FileInfo * option error) * W;
  Readdirnames : Z -> W -> (list string * option error) * W;
  Write : list byte -> W -> (Z * option error) * W;
  WriteAt : list byte -> Z -> W -> (Z * option error) * W;
  Stat : W -> result FileInfo * W;
  Close : W -> option error * W
}.
Arguments mk {W}.
Arguments Name {W}.
Arguments Chmod {W}.
Arguments Read {W}.
Arguments ReadAt {W}.
Arguments Readdir {W}.
Arguments Readdirnames {W}.
Arguments Write {W}.
Arguments WriteAt {W}.
Arguments Stat {W}.
Arguments Close {W}.
End File.

(** [interface VFS] *)
Module VFS.
Record t (W : Type) : Type := mk {
  Chmod : string -> Z -> W -> option error * W;
  Open : string -> W -> result (File.t W) * W;
  OpenFile : string -> Z -> Z -> W -> result (File.t W) * W;
  Mkdir : string -> Z -> W -> option error * W;
  Stat : string -> W -> result FileInfo * W;
  Rename : string -> string -> W -> option error * W;
  Remove : string -> W -> option error * W;
  Close : W -> option error * W
}.
Arguments mk {W}.
Arguments Chmod {W}.
Arguments Open {W}.
Arguments OpenFile {W}.
Arguments Mkdir {W}.
Arguments Stat {W}.
Arguments Rename {W}.
Arguments Remove {W}.
Arguments Close {W}.
End VFS.

Section ReadOnly.
Context {W : Type}.

(** [type ReadOnlyFile struct { F File }] and its methods *)
Definition ReadOnlyFile (F : File.t W) : File.t W :=
  {| File.Name := File.Name F;
     File.Chmod := fun mode w => (Some os_ErrPermission, w);
     File.Read := fun buf w => File.Read F buf w;
     File.ReadAt := fun buf offset w => File.ReadAt F buf offset w;
     File.Readdir := fun n w => File.Readdir F n w;
     File.Readdirnames := fun n w => File.Readdirnames F n w;
     File.Write := fun buf w => ((0, Some os_ErrPermission), w);
     File.WriteAt := fun buf off w => ((0, Some os_ErrPermission), w);
     File.Stat := fun w => File.Stat F w;
     File.Close := fun w => File.Close F w |}.

(** The nested tests of [ReadOnlyVFS.OpenFile]. *)
Definition writeAttempt (flag : Z) : bool :=
  if Z.land flag O_WRONLY =? 0 then
    if Z.land flag O_RDWR =? 0 then
      if Z.land flag 3 =? O_RDONLY then
        if Z.land flag (Z.lor (Z.lor O_CREATE O_TRUNC) O_APPEND) =? 0
        then false
        else true
      else true
    else true
  else true.

(** [type ReadOnlyVFS struct { Fs VFS }] and its methods *)
Definition ReadOnlyVFS (Fs : VFS.t W) : VFS.t W :=
  {| VFS.Chmod := fun name mode w => (Some os_ErrPermission, w);
     VFS.Open := fun path w =>
       match VFS.Open Fs path w with
       | (Failure err, w) => (Failure err, w)
       | (Success f, w) => (Success (ReadOnlyFile f), w)
       end;
     VFS.OpenFile := fun name flag perm w =>
       if writeAttempt flag then (Failure os_ErrPermission, w)
       else
         match VFS.OpenFile Fs name flag perm w with
         | (Failure err, w) => (Failure err, w)
         | (Success f, w) => (Success (ReadOnlyFile f), w)
         end;
     VFS.Mkdir := fun path perm w => (Some os_ErrPermission, w);
     VFS.Stat := fun path w => VFS.Stat Fs path w;
     VFS.Rename := fun from to w => (Some os_ErrPermission, w);
     VFS.Remove := fun path w => (Some os_ErrPermission, w);
     VFS.Close := fun w => VFS.Close Fs w |}.

End ReadOnly.
End vfs.

(* ================================================================== *)
(** ** A recording backend

    [Spy.VFS Fs] behaves as [Fs] and appends every method call that reaches
    it to a log kept next to the backend state.  Files are numbered by the
    position of the call that opened them. *)
(* ================================================================== *)

Module Spy.
Import golang vfs.

Inductive FileCall : Type :=
| FChmod (mode : Z)
| FRead (buflen : Z)
| FReadAt (buflen : Z) (offset : Z)
| FReaddir (n : Z)
| FReaddirnames (n : Z)
| FWrite (buf : list byte)
| FWriteAt (buf : list byte) (off : Z)
| FStat
| FClose.

Inductive Call : Type :=
| Chmod (name : string) (mode : Z)
| Open (path : string)
| OpenFile (name : string) (flag : Z) (perm : Z)
| Mkdir (path : string) (perm : Z)
| Stat (path : string)
| Rename (from to : string)
| Remove (path : string)
| Close
| OnFile (fid : nat) (c : FileCall).

Section Spy.
Context {W : Type}.

Definition logged {A} (c : Call) (r : A * W) (log : list Call)
  : A * (W * list Call) :=
  (r.1, (r.2, log ++ [c])).

Definition File (fid : nat) (F : File.t W) : File.t (W * list Call) :=
  {| File.Name := File.Name F;
     File.Chmod := fun mode w =>
       logged (OnFile fid (FChmod mode)) (File.Chmod F mode w.1) w.2;
     File.Read := fun buf w =>
       logged (OnFile fid (FRead (len buf))) (File.Read F buf w.1) w.2;
     File.ReadAt := fun buf offset w =>
       logged (OnFile fid (FReadAt (len buf) offset))
              (File.ReadAt F buf offset w.1) w.2;
     File.Readdir := fun n w =>
       logged (OnFile fid (FReaddir n)) (File.Readdir F n w.1) w.2;
     File.Readdirnames := fun n w =>
       logged (OnFile fid (FReaddirnames n)) (File.Readdirnames F n w.1) w.2;
     File.Write := fun buf w =>
       logged (OnFile fid (FWrite buf)) (File.Write F buf w.1) w.2;
     File.WriteAt := fun buf off w =>
       logged (OnFile fid (FWriteAt buf off)) (File.WriteAt F buf off w.1) w.2;
     File.Stat := fun w =>
       logged (OnFile fid FStat) (File.Stat F w.1) w.2;
     File.Close := fun w =>
       logged (OnFile fid FClose) (File.Close F w.1) w.2 |}.

Definition opened (c : Call) (r : result (File.t W) * W) (log : list Call)
  : result (File.t (W * list Call)) * (W * list Call) :=
  (match r.1 with
   | Success f => Success (File (length log) f)
   | Failure e => Failure e
   end, (r.2, log ++ [c])).

Definition VFS (Fs : VFS.t W) : VFS.t (W * list Call) :=
  {| VFS.Chmod := fun name mode w =>
       logged (Chmod name mode) (VFS.Chmod Fs name mode w.1) w.2;
     VFS.Open := fun path w =>
       opened (Open path) (VFS.Open Fs path w.1) w.2;
     VFS.OpenFile := fun name flag perm w =>
       opened (OpenFile name flag perm) (VFS.OpenFile Fs name flag perm w.1) w.2;
     VFS.Mkdir := fun path perm w =>
       logged (Mkdir path perm) (VFS.Mkdir Fs path perm w.1) w.2;
     VFS.Stat := fun path w =>
       logged (Stat path) (VFS.Stat Fs path w.1) w.2;
     VFS.Rename := fun from to w =>
       logged (Rename from to) (VFS.Rename Fs from to w.1) w.2;
     VFS.Remove := fun path w =>
       logged (Remove path) (VFS.Remove Fs path w.1) w.2;
     VFS.Close := fun w =>
       logged Close (VFS.Close Fs w.1) w.2 |}.

(** The calls recorded so far. *)
Definition calls (w : W * list Call) : list Call := w.2.

End Spy.
End Spy.

(* ================================================================== *)
(** ** package sftp: the session *)
(* ================================================================== *)

Module sftp.
Import golang protosftp vfs.

(** [Options]; [LogFunc] only writes to the log sink and is left out, as
    are the [Logf] calls. *)
Record Options : Type := mkOptions {
  Debug : bool;
  MaxFiles : Z
}.

(** [type handle struct]: [reqChan] names the channel made for it. *)
Record handle : Type := mkHandle {
  Id : string;
  reqChan : nat
}.

#[global] Instance handle_eq_dec : EqDecision handle.
Proof. solve_decision. Defined.

(** What a goroutine is about to do when a handler is through. *)
Inductive Effect : Type :=
| Respond (resp : Packet)            (* s.Respond(resp) *)
| Send (h : handle) (req : Packet)   (* h.reqChan <- req *)
| Return                             (* return from the goroutine *)
| Nothing
| Panicking.

(** Library functions the session calls and this development leaves open:
    [path.Clean], and [runLsStat], whose text depends on [time.Now]. *)
Record Library : Type := mkLibrary {
  path_Clean : string -> string;
  runLsStat : FileInfo -> string
}.

(** [x != 0] *)
Definition nonzero (x : Z) : bool := negb (x =? 0).

(** [^uint32(x)] *)
Definition not32 (x : Z) : Z := Z.lxor 4294967295 x.

Section Session.
Context {W : Type}.
Variable lib : Library.

(** Where a per-handle goroutine (the [go func] of [newFileHandle]) is. *)
Inductive wstate : Type :=
| Receiving                                   (* at [range h.reqChan] *)
| Got (req : Packet)                          (* received, body not run *)
| Responding (resp : Packet) (again : bool)   (* inside [s.Respond] *)
| Exited.

(** The goroutine with what its closure captured. *)
Record worker : Type := mkWorker {
  wh : handle;
  wfile : File.t W;
  wst : wstate
}.

(** [type Session struct].  [world] is the state behind [fs]; [goroutines]
    are the per-handle goroutines started so far, [reqChan] their index. *)
Record Session : Type := mkSession {
  options : Options;
  fs : VFS.t W;
  files : gmap string handle;
  inbox : list Packet;
  outbox : list Packet;
  closed : bool;
  fcounter : Z;
  world : W;
  goroutines : list worker
}.

Definition set_files (m : gmap string handle) (s : Session) : Session :=
  mkSession (options s) (fs s) m (inbox s) (outbox s) (closed s)
            (fcounter s) (world s) (goroutines s).
Definition set_inbox (l : list Packet) (s : Session) : Session :=
  mkSession (options s) (fs s) (files s) l (outbox s) (closed s)
            (fcounter s) (world s) (goroutines s).
Definition set_outbox (l : list Packet) (s : Session) : Session :=
  mkSession (options s) (fs s) (files s) (inbox s) l (closed s)
            (fcounter s) (world s) (goroutines s).
Definition set_closed (b : bool) (s : Session) : Session :=
  mkSession (options s) (fs s) (files s) (inbox s) (outbox s) b
            (fcounter s) (world s) (goroutines s).
Definition set_fcounter (c : Z) (s : Session) : Session :=
  mkSession (options s) (fs s) (files s) (inbox s) (outbox s) (closed s)
            c (world s) (goroutines s).
Definition set_world (w : W) (s : Session) : Session :=
  mkSession (options s) (fs s) (files s) (inbox s) (outbox s) (closed s)
            (fcounter s) w (goroutines s).
Definition set_goroutines (g : list worker) (s : Session) : Session :=
  mkSession (options s) (fs s) (files s) (inbox s) (outbox s) (closed s)
            (fcounter s) (world s) g.

Definition respondError (respId : Z) (err : error) : Effect :=
  let code := uint32 FX_FAILURE in
  let msg := "error" in
  let '(code, msg) :=
    if is_EOF err then (FX_EOF, Error err)
    else if is_ErrNotExist err then (FX_NO_SUCH_FILE, Error err)
    else if IsPermission err then (FX_PERMISSION_DENIED, Error err)
    else if is_ErrUnsupported err then (FX_OP_UNSUPPORTED, Error err)
    else (code, msg) in
  Respond (MakeStatus respId msg code).

Definition respondOk (respId : Z) : Effect :=
  Respond (MakeStatus respId "" FX_OK).

Definition fileStatToSFTPStat (stat : FileInfo) : FileStat :=
  let mode := uint32 (Z.land (fi_Mode stat) 511) in
  let mode := if fi_IsDir stat then Z.lor mode S_IFDIR
              else Z.lor mode S_IFREG in
  {| Flags := Z.lor (Z.lor FILEXFER_ATTR_SIZE FILEXFER_ATTR_PERMISSIONS)
                    FILEXFER_ATTR_ACMODTIME;
     Size := uint64 (fi_Size stat);
     Atime := uint32 (fi_ModTime stat);
     Mtime := uint32 (fi_ModTime stat);
     Mode := mode;
     UID := 0; GID := 0; Extended := [] |}.

(** One round of the loop [for req := range h.reqChan] of the goroutine
    started by [newFileHandle]: the new backend state, what is responded,
    and whether the loop goes on ([continue]) or the goroutine returns. *)
Definition serve (f : File.t W) (req : Packet) (w : W) : W * Effect * bool :=
  match req with
  | FxpFstatPacket ID _ =>
      match File.Stat f w with
      | (Failure err, w) => (w, respondError ID err, true)
      | (Success st, w) =>
          (w, Respond (FxpStatResponse ID (fileStatToSFTPStat st)), true)
      end
  | FxpWritePacket ID _ Offset _ Data =>
      match File.WriteAt f Data (int64 Offset) w with
      | (_, Some err, w) => (w, respondError ID err, true)
      | (_, None, w) => (w, respondOk ID, true)
      end
  | FxpReadPacket ID _ Offset Len =>
      if Len >? 1024 * 1024 then (w, respondError ID ErrBadRead, true)
      else
        let buf := replicate (Z.to_nat Len) x00 in
        match File.ReadAt f buf (int64 Offset) w with
        | (n, buf, Some err, w) =>
            if n =? 0 then (w, respondError ID err, true)
            else
              match slice_to buf n with
              | Ok data => (w, Respond (FxpDataPacket ID (uint32 n) data), true)
              | _ => (w, Panicking, false)
              end
        | (n, buf, None, w) =>
            match slice_to buf n with
            | Ok data => (w, Respond (FxpDataPacket ID (uint32 n) data), true)
            | _ => (w, Panicking, false)
            end
        end
  | FxpReaddirPacket ID _ =>
      match File.Readdir f 64 w with
      | (_, Some err, w) => (w, respondError ID err, true)
      | (stats, None, w) =>
          (w,
           Respond
             (FxpNamePacket ID
                (map (fun stat =>
                        mkFxpNameAttr (fi_Name stat) (runLsStat lib stat)
                                      (fileStatToSFTPStat stat))
                     stats)),
           true)
      end
  | FxpClosePacket ID _ =>
      match File.Close f w with
      | (Some err, w) => (w, respondError ID err, false)
      | (None, w) => (w, respondOk ID, false)
      end
  | _ => (w, Nothing, true)
  end.

(** [newFileHandle]: the id, the counter, the channel and the goroutine. *)
Definition newFileHandle (f : File.t W) (s : Session) : handle * Session :=
  let id := pretty (fcounter s) in
  let s := set_fcounter (int64 (fcounter s + 1)) s in
  let h := {| Id := id; reqChan := length (goroutines s) |} in
  (h, set_goroutines (goroutines s ++ [mkWorker h f Receiving]) s).

Definition handleInit (s : Session) : Session * Effect :=
  (s, Respond (FxVersionPacket ProtocolVersion [])).

Definition handleRealPath (ID : Z) (Path : string) (s : Session)
  : Session * Effect :=
  let p := Path in
  let p := if String.prefix "/" p then p else "/" +:+ p in
  let p := path_Clean lib p in
  (s, Respond (FxpNamePacket ID [mkFxpNameAttr p p EmptyFileStat])).

Definition handleRemove (ID : Z) (Filename : string) (s : Session)
  : Session * Effect :=
  match VFS.Stat (fs s) Filename (world s) with
  | (Failure err, w) => (set_world w s, respondError ID err)
  | (Success st, w) =>
      if fi_IsDir st then (set_world w s, respondError ID ErrUnsupported)
      else
        match VFS.Remove (fs s) Filename w with
        | (Some err, w) => (set_world w s, respondError ID err)
        | (None, w) => (set_world w s, respondOk ID)
        end
  end.

Definition handleRmdir (ID : Z) (Path : string) (s : Session)
  : Session * Effect :=
  match VFS.Stat (fs s) Path (world s) with
  | (Failure err, w) => (set_world w s, respondError ID err)
  | (Success st, w) =>
      if negb (fi_IsDir st) then (set_world w s, respondError ID ErrUnsupported)
      else
        match VFS.Remove (fs s) Path w with
        | (Some err, w) => (set_world w s, respondError ID err)
        | (None, w) => (set_world w s, respondOk ID)
        end
  end.

(** The shape shared by [handleFstat], [handleReadDir], [handleWrite] and
    [handleRead]: look the handle up, forward the request to its channel. *)
Definition forward (ID : Z) (Handle : string) (req : Packet) (s : Session)
  : Session * Effect :=
  match files s !! Handle with
  | None => (s, respondError ID ErrInvalidHandle)
  | Some h => (s, Send h req)
  end.

Definition handleFstat (ID : Z) (Handle : string) (s : Session) :=
  forward ID Handle (FxpFstatPacket ID Handle) s.

Definition handleReadDir (ID : Z) (Handle : string) (s : Session) :=
  forward ID Handle (FxpReaddirPacket ID Handle) s.

Definition handleWrite (ID : Z) (Handle : string) (Offset Length : Z)
           (Data : list byte) (s : Session) :=
  forward ID Handle (FxpWritePacket ID Handle Offset Length Data) s.

Definition handleRead (ID : Z) (Handle : string) (Offset Len : Z)
           (s : Session) :=
  forward ID Handle (FxpReadPacket ID Handle Offset Len) s.

Definition handleClose (ID : Z) (Handle : string) (s : Session)
  : Session * Effect :=
  match files s !! Handle with
  | None => (s, respondError ID ErrInvalidHandle)
  | Some h =>
      (set_files (delete Handle (files s)) s, Send h (FxpClosePacket ID Handle))
  end.

Definition statReply (ID : Z) (Path : string) (s : Session)
  : Session * Effect :=
  match VFS.Stat (fs s) Path (world s) with
  | (Failure err, w) => (set_world w s, respondError ID err)
  | (Success st, w) =>
      (set_world w s, Respond (FxpStatResponse ID (fileStatToSFTPStat st)))
  end.

Definition handleStat (ID : Z) (Path : string) (s : Session) :=
  statReply ID Path s.

Definition handleLstat (ID : Z) (Path : string) (s : Session) :=
  statReply ID Path s.

Definition handleSetStat (ID : Z) (Path : string) (Attrs : FileStat)
           (s : Session) : Session * Effect :=
  let after (s : Session) :=
    if nonzero (Z.land (Flags Attrs) FILEXFER_ATTR_SIZE)
    then (s, respondError ID ErrUnsupported)
    else if nonzero (Z.land (Flags Attrs) FILEXFER_ATTR_ACMODTIME)
    then (s, respondError ID ErrUnsupported)
    else (s, respondOk ID) in
  if nonzero (Z.land (Flags Attrs) FILEXFER_ATTR_PERMISSIONS) then
    match VFS.Chmod (fs s) Path (Mode Attrs) (world s) with
    | (Some err, w) => (set_world w s, respondError ID err)
    | (None, w) => after (set_world w s)
    end
  else after s.

Definition handleOpen (ID : Z) (Path : string) (Pflags : Z) (Attrs : FileStat)
           (s : Session) : Session * Effect :=
  if Z.of_nat (size (files s)) >? MaxFiles (options s) then
    (s, respondError ID ErrTooManyOpenFiles)
  else
    let flags := 0 in
    let '(flags, Pflags) :=
      if nonzero (Z.land Pflags FXF_READ) && nonzero (Z.land Pflags FXF_WRITE)
      then (O_RDWR, Z.land Pflags (not32 (Z.lor FXF_READ FXF_WRITE)))
      else if nonzero (Z.land Pflags FXF_READ)
      then (O_RDONLY, Z.land Pflags (not32 FXF_READ))
      else if nonzero (Z.land Pflags FXF_WRITE)
      then (O_WRONLY, Z.land Pflags (not32 FXF_WRITE))
      else (flags, Pflags) in
    let '(flags, Pflags) :=
      if nonzero (Z.land Pflags FXF_TRUNC)
      then (Z.lor flags O_TRUNC, Z.land Pflags (not32 FXF_TRUNC))
      else (flags, Pflags) in
    let '(flags, Pflags) :=
      if nonzero (Z.land Pflags FXF_CREAT)
      then (Z.lor flags O_CREATE, Z.land Pflags (not32 FXF_CREAT))
      else (flags, Pflags) in
    let '(flags, Pflags) :=
      if nonzero (Z.land Pflags FXF_APPEND)
      then (Z.lor flags O_APPEND, Z.land Pflags (not32 FXF_APPEND))
      else (flags, Pflags) in
    let '(flags, Pflags) :=
      if nonzero (Z.land Pflags FXF_EXCL)
      then (Z.lor flags O_EXCL, Z.land Pflags (not32 FXF_EXCL))
      else (flags, Pflags) in
    if nonzero Pflags then (s, respondError ID ErrUnsupported)
    else
      let mode :=
        if nonzero (Z.land (Flags Attrs) FILEXFER_ATTR_PERMISSIONS)
        then Z.land (Mode Attrs) 511
        else 493 in
      match VFS.OpenFile (fs s) Path flags mode (world s) with
      | (Failure err, w) => (set_world w s, respondError ID err)
      | (Success f, w) =>
          let '(handle, s) := newFileHandle f (set_world w s) in
          let s := set_files (<[Id handle := handle]> (files s)) s in
          (s, Respond (FxpHandlePacket ID (Id handle)))
      end.

Definition handleMkdir (ID : Z) (Path : string) (Attrs : FileStat)
           (s : Session) : Session * Effect :=
  let mode :=
    if nonzero (Z.land (Flags Attrs) FILEXFER_ATTR_PERMISSIONS)
    then Z.land (Mode Attrs) 511
    else 493 in
  match VFS.Mkdir (fs s) Path mode (world s) with
  | (Some err, w) => (set_world w s, respondError ID err)
  | (None, w) => (set_world w s, respondOk ID)
  end.

Definition handleOpenDir (ID : Z) (Path : string) (s : Session)
  : Session * Effect :=
  if Z.of_nat (size (files s)) >? MaxFiles (options s) then
    (s, respondError ID ErrTooManyOpenFiles)
  else
    match VFS.Open (fs s) Path (world s) with
    | (Failure err, w) => (set_world w s, respondError ID err)
    | (Success f, w) =>
        let '(handle, s) := newFileHandle f (set_world w s) in
        let s := set_files (<[Id handle := handle]> (files s)) s in
        (s, Respond (FxpHandlePacket ID (Id handle)))
    end.

Definition handleRename (ID : Z) (Oldpath Newpath : string) (s : Session)
  : Session * Effect :=
  match VFS.Rename (fs s) Oldpath Newpath (world s) with
  | (Some err, w) => (set_world w s, respondError ID err)
  | (None, w) => (set_world w s, respondOk ID)
  end.

Definition handleReadLink (ID : Z) (s : Session) : Session * Effect :=
  (s, respondError ID ErrUnsupported).

Definition handleSymlink (ID : Z) (s : Session) : Session * Effect :=
  (s, respondError ID ErrUnsupported).

(** The type switch of the third goroutine of [Serve]. *)
Definition dispatch (req : Packet) (s : Session) : Session * Effect :=
  match req with
  | FxpClosePacket ID Handle => handleClose ID Handle s
  | FxpFstatPacket ID Handle => handleFstat ID Handle s
  | FxpInitPacket _ _ => handleInit s
  | FxpLstatPacket ID Path => handleLstat ID Path s
  | FxpMkdirPacket ID Path Attrs => handleMkdir ID Path Attrs s
  | FxpOpendirPacket ID Path => handleOpenDir ID Path s
  | FxpOpenPacket ID Path Pflags Attrs => handleOpen ID Path Pflags Attrs s
  | FxpReaddirPacket ID Handle => handleReadDir ID Handle s
  | FxpReadlinkPacket ID _ => handleReadLink ID s
  | FxpReadPacket ID Handle Offset Len => handleRead ID Handle Offset Len s
  | FxpRealpathPacket ID Path => handleRealPath ID Path s
  | FxpRemovePacket ID Filename => handleRemove ID Filename s
  | FxpRenamePacket ID Oldpath Newpath => handleRename ID Oldpath Newpath s
  | FxpRmdirPacket ID Path => handleRmdir ID Path s
  | FxpSetStatPacket ID Path Attrs => handleSetStat ID Path Attrs s
  | FxpStatPacket ID Path => handleStat ID Path s
  | FxpSymlinkPacket ID _ _ => handleSymlink ID s
  | FxpWritePacket ID Handle Offset Length Data =>
      handleWrite ID Handle Offset Length Data s
  | _ => (s, Return)
  end.

(** *** [Serve]: the goroutines and their interleaving *)

(** The first goroutine of [Serve] (the reader). *)
Inductive rstate : Type :=
| Reading                     (* about to call [ReadPacket] *)
| Posting (req : Packet)      (* at the select that sends to [inbox] *)
| RExited.

(** The second (the writer) and the third (the dispatcher). *)
Inductive wrstate : Type := Writing | WrExited.
Inductive dstate : Type :=
| Selecting                   (* at the select over [closed] and [inbox] *)
| Doing (e : Effect)          (* inside a handler, at its channel operation *)
| DExited.

Record System : Type := mkSystem {
  session : Session;
  rw_in : list byte;          (* what [rw] has still to deliver *)
  rw_out : list byte;         (* what has been written to [rw] *)
  reader : rstate;
  writer : wrstate;
  dispatcher : dstate;
  panicked : bool
}.

Definition set_session (s : Session) (g : System) : System :=
  mkSystem s (rw_in g) (rw_out g) (reader g) (writer g) (dispatcher g)
           (panicked g).
Definition set_rw_in (r : list byte) (g : System) : System :=
  mkSystem (session g) r (rw_out g) (reader g) (writer g) (dispatcher g)
           (panicked g).
Definition set_rw_out (r : list byte) (g : System) : System :=
  mkSystem (session g) (rw_in g) r (reader g) (writer g) (dispatcher g)
           (panicked g).
Definition set_reader (r : rstate) (g : System) : System :=
  mkSystem (session g) (rw_in g) (rw_out g) r (writer g) (dispatcher g)
           (panicked g).
Definition set_writer (r : wrstate) (g : System) : System :=
  mkSystem (session g) (rw_in g) (rw_out g) (reader g) r (dispatcher g)
           (panicked g).
Definition set_dispatcher (d : dstate) (g : System) : System :=
  mkSystem (session g) (rw_in g) (rw_out g) (reader g) (writer g) d
           (panicked g).
Definition panic (g : System) : System :=
  mkSystem (session g) (rw_in g) (rw_out g) (reader g) (writer g)
           (dispatcher g) true.

(** [shutdown]: [closeOnce.Do(close(s.closed))]. *)
Definition shutdown (g : System) : System :=
  set_session (set_closed true (session g)) g.

(** [Serve(opt, fs, rw)] at the moment the three goroutines are started. *)
Definition Serve (opt : Options) (fs : VFS.t W) (w : W) (rw : list byte)
  : System :=
  {| session := mkSession opt fs ∅ [] [] false 0 w [];
     rw_in := rw; rw_out := [];
     reader := Reading; writer := Writing; dispatcher := Selecting;
     panicked := false |}.

(** The reader's turn at [ReadPacket]: the packet goes on to the select, an
    error breaks the loop and the deferred [shutdown] runs. *)
Definition readerRead (g : System) : System :=
  match ReadPacket (rw_in g) with
  | (Ok req, r) => set_reader (Posting req) (set_rw_in r g)
  | (Err _, r) => shutdown (set_reader RExited (set_rw_in r g))
  | (Panic, r) => panic (set_rw_in r g)
  end.

(** The dispatcher's turn on the request it received from [inbox]. *)
Definition dispatcherTake (req : Packet) (rest : list Packet) (g : System)
  : System * Effect :=
  let '(s, eff) := dispatch req (set_inbox rest (session g)) in
  (match eff with
   | Return => shutdown (set_dispatcher DExited (set_session s g))
   | _ => set_dispatcher (Doing eff) (set_session s g)
   end, eff).

Definition set_wst (c : nat) (st : wstate) (s : Session) : Session :=
  match goroutines s !! c with
  | Some wk =>
      set_goroutines (<[c := mkWorker (wh wk) (wfile wk) st]> (goroutines s)) s
  | None => s
  end.

Definition after (again : bool) : wstate :=
  if again then Receiving else Exited.

(** A per-handle goroutine's turn on the request it received; a goroutine
    that panics is gone, and the programme with it. *)
Definition workerServe (c : nat) (wk : worker) (req : Packet) (g : System)
  : System :=
  let '(w, eff, again) := serve (wfile wk) req (world (session g)) in
  let s := set_world w (session g) in
  match eff with
  | Respond resp => set_session (set_wst c (Responding resp again) s) g
  | Panicking => panic (set_session (set_wst c Exited s) g)
  | _ => set_session (set_wst c (after again) s) g
  end.

(** [s.inbox <- req] and [s.outbox <- resp] going through, and the
    rendezvous on [h.reqChan]. *)
Definition readerPost (req : Packet) (g : System) : System :=
  set_reader Reading
    (set_session (set_inbox (inbox (session g) ++ [req]) (session g)) g).
Definition deliver (resp : Packet) (s : Session) : Session :=
  set_outbox (outbox s ++ [resp]) s.
Definition dispatcherSend (h : handle) (req : Packet) (g : System) : System :=
  set_dispatcher Selecting
    (set_session (set_wst (reqChan h) (Got req) (session g)) g).

(** What happened in a step. *)
Inductive Label : Type :=
| LRead (req : Packet)                  (* the reader decoded [req] *)
| LReadFailed
| LPost (req : Packet)
| LReaderQuit
| LWrite (resp : Packet)
| LWriterQuit
| LDispatch (req : Packet) (e : Effect) (* the dispatcher handled [req] *)
| LDispatcherQuit
| LResponded (resp : Packet) (delivered : bool)
| LSend (h : handle) (req : Packet)     (* [h.reqChan <- req] went through *)
| LServe (h : handle) (req : Packet)    (* [h]'s goroutine ran [req] *)
| LPanic.

(** [select { case <-s.closed: case s.outbox <- resp: }] and the other
    selects take any branch that is ready; [inbox] and [outbox] hold 16. *)
Inductive step : System -> Label -> System -> Prop :=
| reader_read g req r :
    reader g = Reading ->
    ReadPacket (rw_in g) = (Ok req, r) ->
    step g (LRead req) (readerRead g)
| reader_fail g e r :
    reader g = Reading ->
    ReadPacket (rw_in g) = (Err e, r) ->
    step g LReadFailed (readerRead g)
| reader_panic g r :
    reader g = Reading ->
    ReadPacket (rw_in g) = (Panic, r) ->
    step g LPanic (readerRead g)
| reader_post g req :
    reader g = Posting req ->
    (length (inbox (session g)) < 16)%nat ->
    step g (LPost req) (readerPost req g)
| reader_quit g req :
    reader g = Posting req ->
    closed (session g) = true ->
    step g LReaderQuit (shutdown (set_reader RExited g))
| writer_quit g :
    writer g = Writing ->
    closed (session g) = true ->
    step g LWriterQuit (shutdown (set_writer WrExited g))
| writer_write g resp rest out :
    writer g = Writing ->
    outbox (session g) = resp :: rest ->
    WritePacket (rw_out g) resp = Ok out ->
    step g (LWrite resp)
         (set_rw_out out (set_session (set_outbox rest (session g)) g))
| writer_panic g resp rest :
    writer g = Writing ->
    outbox (session g) = resp :: rest ->
    WritePacket (rw_out g) resp = Panic ->
    step g LPanic (panic g)
| dispatcher_quit g :
    dispatcher g = Selecting ->
    closed (session g) = true ->
    step g LDispatcherQuit (shutdown (set_dispatcher DExited g))
| dispatcher_take g req rest :
    dispatcher g = Selecting ->
    inbox (session g) = req :: rest ->
    step g (LDispatch req (dispatcherTake req rest g).2)
         (dispatcherTake req rest g).1
| dispatcher_respond g resp :
    dispatcher g = Doing (Respond resp) ->
    (length (outbox (session g)) < 16)%nat ->
    step g (LResponded resp true)
         (set_dispatcher Selecting (set_session (deliver resp (session g)) g))
| dispatcher_respond_closed g resp :
    dispatcher g = Doing (Respond resp) ->
    closed (session g) = true ->
    step g (LResponded resp false) (set_dispatcher Selecting g)
| dispatcher_send g h req wk :
    dispatcher g = Doing (Send h req) ->
    goroutines (session g) !! reqChan h = Some wk ->
    wst wk = Receiving ->
    step g (LSend h req) (dispatcherSend h req g)
| worker_serve g c wk req :
    goroutines (session g) !! c = Some wk ->
    wst wk = Got req ->
    step g (LServe (wh wk) req) (workerServe c wk req g)
| worker_respond g c wk resp again :
    goroutines (session g) !! c = Some wk ->
    wst wk = Responding resp again ->
    (length (outbox (session g)) < 16)%nat ->
    step g (LResponded resp true)
         (set_session (set_wst c (after again) (deliver resp (session g))) g)
| worker_respond_closed g c wk resp again :
    goroutines (session g) !! c = Some wk ->
    wst wk = Responding resp again ->
    closed (session g) = true ->
    step g (LResponded resp false)
         (set_session (set_wst c (after again) (session g)) g).

(** Runs of the programme: a panic ends it. *)
Inductive exec : System -> list Label -> System -> Prop :=
| exec_nil g : exec g [] g
| exec_step g tr g1 l g2 :
    exec g tr g1 ->
    panicked g1 = false ->
    step g1 l g2 ->
    exec g (tr ++ [l]) g2.

End Session.

(** *** What a run shows *)


(** The requests in the order the reader took them off the wire. *)
Definition arrivals (tr : list Label) : list Packet :=
  omap (fun l => match l with LRead req => Some req | _ => None end) tr.

(** The requests in the order the dispatcher handled them. *)
Definition dispatched (tr : list Label) : list Packet :=
  omap (fun l => match l with LDispatch req _ => Some req | _ => None end) tr.

(** The requests the dispatcher decided to forward to [h], those it has
    handed over, and those [h]'s goroutine has run against its file. *)
Definition forwarded (h : handle) (tr : list Label) : list Packet :=
  omap (fun l => match l with
                 | LDispatch _ (Send h' req) =>
                     if decide (h' = h) then Some req else None
                 | _ => None
                 end) tr.
Definition sent (h : handle) (tr : list Label) : list Packet :=
  omap (fun l => match l with
                 | LSend h' req => if decide (h' = h) then Some req else None
                 | _ => None
                 end) tr.
Definition served (h : handle) (tr : list Label) : list Packet :=
  omap (fun l => match l with
                 | LServe h' req => if decide (h' = h) then Some req else None
                 | _ => None
                 end) tr.

(** The handle string a request names. *)
Definition Handle_of (req : Packet) : option string :=
  match req with
  | FxpReaddirPacket _ h | FxpFstatPacket _ h | FxpClosePacket _ h
  | FxpReadPacket _ h _ _ | FxpWritePacket _ h _ _ _
  | FxpFSetStatPacket _ h _ => Some h
  | _ => None
  end.

(** The requests of a list that name the handle [id]; the WRITEs of a
    list. *)
Definition for_handle (id : string) (l : list Packet) : list Packet :=
  filter (fun req => Handle_of req = Some id) l.



(** The effects that neither forward a request nor give out a handle. *)
Definition plain (e : Effect) : Prop :=
  (forall h req, e <> Send h req)
  /\ (forall ID h, e <> Respond (FxpHandlePacket ID h)).

(** What is in flight: the request the reader is posting, the one the
    dispatcher is sending to [h], the one [h]'s goroutine has received. *)
Definition posting (r : rstate) : list Packet :=
  match r with Posting req => [req] | _ => [] end.
Definition sending (h : handle) (d : dstate) : list Packet :=
  match d with
  | Doing (Send h' req) => if decide (h' = h) then [req] else []
  | _ => []
  end.
Definition holding {W : Type} (h : handle) (ws : list (@worker W))
  : list Packet :=
  match ws !! reqChan h with
  | Some wk =>
      if decide (wh wk = h)
      then match wst wk with Got req => [req] | _ => [] end
      else []
  | None => []
  end.

End sftp.

(* ================================================================== *)
(** ** A small in-memory backend, for running the session on examples *)
(* ================================================================== *)

Module memfs.
Import golang vfs.

Inductive node : Type :=
| Dir
| Reg (content : list byte).

Definition W : Type := gmap string node.

Definition info (path : string) (n : node) : FileInfo :=
  match n with
  | Dir => mkFileInfo path 0 493 0 true
  | Reg c => mkFileInfo path (len c) 420 0 false
  end.

Definition stat (path : string) (w : W) : result FileInfo * W :=
  match w !! path with
  | Some n => (Success (info path n), w)
  | None => (Failure os_ErrNotExist, w)
  end.

Definition content (path : string) (w : W) : list byte :=
  match w !! path with
  | Some (Reg c) => c
  | _ => []
  end.

Definition readAt (path : string) (buf : list byte) (off : Z) (w : W)
  : (Z * list byte * option error) * W :=
  let data := take (length buf) (drop (Z.to_nat off) (content path w)) in
  ((len data, data ++ drop (length data) buf,
    if len data <? len buf then Some io_EOF else None), w).

Definition writeAt (path : string) (data : list byte) (off : Z) (w : W)
  : (Z * option error) * W :=
  let c := content path w in
  let c := take (Z.to_nat off) (c ++ replicate (Z.to_nat off) x00)
           ++ data ++ drop (Z.to_nat off + length data) c in
  ((len data, None), <[path := Reg c]> w).

Definition file (path : string) : File.t W :=
  {| File.Name := path;
     File.Chmod := fun _ w => (None, w);
     File.Read := fun buf w => readAt path buf 0 w;
     File.ReadAt := fun buf off w => readAt path buf off w;
     File.Readdir := fun _ w => (([], Some io_EOF), w);
     File.Readdirnames := fun _ w => (([], Some io_EOF), w);
     File.Write := fun buf w => writeAt path buf 0 w;
     File.WriteAt := fun buf off w => writeAt path buf off w;
     File.Stat := fun w => stat path w;
     File.Close := fun w => (None, w) |}.

Definition open (path : string) (w : W) : result (File.t W) * W :=
  match w !! path with
  | Some _ => (Success (file path), w)
  | None => (Failure os_ErrNotExist, w)
  end.

Definition openFile (path : string) (flag perm : Z) (w : W)
  : result (File.t W) * W :=
  match w !! path with
  | Some _ => (Success (file path), w)
  | None =>
      if Z.land flag O_CREATE =? 0 then (Failure os_ErrNotExist, w)
      else (Success (file path), <[path := Reg []]> w)
  end.

Definition Fs : VFS.t W :=
  {| VFS.Chmod := fun _ _ w => (None, w);
     VFS.Open := open;
     VFS.OpenFile := openFile;
     VFS.Mkdir := fun path _ w => (None, <[path := Dir]> w);
     VFS.Stat := stat;
     VFS.Rename := fun from to w =>
       match w !! from with
       | Some n => (None, <[to := n]> (delete from w))
       | None => (Some os_ErrNotExist, w)
       end;
     VFS.Remove := fun path w =>
       match w !! path with
       | Some _ => (None, delete path w)
       | None => (Some os_ErrNotExist, w)
       end;
     VFS.Close := fun w => (None, w) |}.

(** A tree with one directory and one file. *)
Definition tree : W :=
  <["/d" := Dir]> (<["/f" := Reg [x48; x65; x6c; x6c; x6f]]> ∅).

Definition lib : sftp.Library :=
  sftp.mkLibrary (fun p => p) (fun st => fi_Name st).

End memfs.

(* ================================================================== *)
(** ** Example sessions over the in-memory backend *)
(* ================================================================== *)

Module demo.
Import golang protosftp vfs sftp.

(** A session that has just been started, with [MaxFiles = M]. *)
Definition fresh (M : Z) : @Session (memfs.W * list Spy.Call) :=
  session (Serve (mkOptions false M) (Spy.VFS memfs.Fs) (memfs.tree, []) []).

(** The same over the read-only wrapper. *)
Definition fresh_ro (M : Z) : @Session (memfs.W * list Spy.Call) :=
  session (Serve (mkOptions false M) (ReadOnlyVFS (Spy.VFS memfs.Fs))
                 (memfs.tree, []) []).

Definition open_f (ID : Z) : Packet := FxpOpenPacket ID "/f" FXF_READ EmptyFileStat.


(** A FileStat with SIZE and PERMISSIONS set. *)
Definition attrs_size_mode : FileStat := mkFileStat 5 11 420 0 0 0 0 [].

(** The frame of [FSETSTAT{id=1, handle="nope", attrs={}}]. *)
Definition fsetstat_frame : list byte :=
  [x00; x00; x00; x11; x0a; x00; x00; x00; x01; x00; x00; x00; x04;
   x6e; x6f; x70; x65; x00; x00; x00; x00].

(** The frames of [OPEN{id=1, path="/f", pflags=READ}] and of
    [WRITE{id=2, handle="0", offset=0, data="Hi"}], and the two in a row. *)
Definition frame (p : Packet) : list byte :=
  match WritePacket [] p with Ok b => b | _ => [] end.
Definition write_0 : Packet := FxpWritePacket 2 "0" 0 2 [x48; x69].
Definition wire : list byte := frame (open_f 1) ++ frame write_0.

(** [Serve] over the in-memory backend with [wire] as input, and the
    states of one of its runs: the OPEN is read, posted, handled and
    answered; the WRITE is read, posted, forwarded, handed to the handle's
    goroutine and run. *)
Definition start : @System (memfs.W * list Spy.Call) :=
  Serve (mkOptions false 64) (Spy.VFS memfs.Fs) (memfs.tree, []) wire.
Definition h0 : handle := mkHandle "0" 0.
Definition w0 : @worker (memfs.W * list Spy.Call) :=
  mkWorker h0 (Spy.File 0 (memfs.file "/f")) (Got write_0).
Definition g1 := readerRead start.
Definition g2 := readerPost (open_f 1) g1.
Definition g3 := (dispatcherTake memfs.lib (open_f 1) [] g2).1.
Definition g4 :=
  set_dispatcher Selecting
    (set_session (deliver (FxpHandlePacket 1 "0") (session g3)) g3).
Definition g5 := readerRead g4.
Definition g6 := readerPost write_0 g5.
Definition g7 := (dispatcherTake memfs.lib write_0 [] g6).1.
Definition g8 := dispatcherSend h0 write_0 g7.
Definition g9 := workerServe memfs.lib 0 w0 write_0 g8.

Definition run_open : list Label :=
  [LRead (open_f 1); LPost (open_f 1);
   LDispatch (open_f 1) (Respond (FxpHandlePacket 1 "0"))].
Definition run_write : list Label :=
  run_open ++
  [LResponded (FxpHandlePacket 1 "0") true;
   LRead write_0; LPost write_0; LDispatch write_0 (Send h0 write_0);
   LSend h0 write_0; LServe h0 write_0].

End demo.

(* ================================================================== *)
(** ** Well-formed values for the wire *)
(* ================================================================== *)

Module wire.
Import golang protosftp.

Definition is_uint32 (v : Z) : Prop := 0 <= v < 2 ^ 32.
Definition is_uint64 (v : Z) : Prop := 0 <= v < 2 ^ 64.

(** A Go string whose length fits the u32 length prefix. *)
Definition short (s : string) : Prop := len (bytes_of_string s) < 2 ^ 32.

(** [a] with the fields its flags do not select, and those the decoder
    never fills (size, extended), at their zero value. *)
Definition selected (a : FileStat) : FileStat :=
  {| Flags := Flags a;
     Size := 0;
     Mode := if Z.land (Flags a) FILEXFER_ATTR_PERMISSIONS =? 0
             then 0 else Mode a;
     Mtime := if Z.land (Flags a) FILEXFER_ATTR_ACMODTIME =? 0
              then 0 else Mtime a;
     Atime := if Z.land (Flags a) FILEXFER_ATTR_ACMODTIME =? 0
              then 0 else Atime a;
     UID := if Z.land (Flags a) FILEXFER_ATTR_UIDGID =? 0 then 0 else UID a;
     GID := if Z.land (Flags a) FILEXFER_ATTR_UIDGID =? 0 then 0 else GID a;
     Extended := [] |}.

(** The fields of a [FileStat] are of their Go types. *)
Definition stat_in_range (a : FileStat) : Prop :=
  is_uint32 (Flags a) /\ is_uint64 (Size a) /\ is_uint32 (Mode a)
  /\ is_uint32 (Mtime a) /\ is_uint32 (Atime a)
  /\ is_uint32 (UID a) /\ is_uint32 (GID a).

(** Attributes the decoder gives back as they are: in range, the size
    flag clear, nothing set that the flags do not select. *)
Definition plain_attrs (a : FileStat) : Prop :=
  stat_in_range a /\ Z.land (Flags a) FILEXFER_ATTR_SIZE = 0
  /\ selected a = a.

(** The requests [ReadPacket] builds, with fields of their Go types. *)
Definition request (p : Packet) : Prop :=
  match p with
  | FxpInitPacket v es =>
      is_uint32 v
      /\ Forall (fun e => short (ep_Name e) /\ short (ep_Data e)) es
  | FxpReaddirPacket id s | FxpOpendirPacket id s | FxpLstatPacket id s
  | FxpStatPacket id s | FxpFstatPacket id s | FxpClosePacket id s
  | FxpRemovePacket id s | FxpRmdirPacket id s | FxpReadlinkPacket id s
  | FxpRealpathPacket id s => is_uint32 id /\ short s
  | FxpSymlinkPacket id a b | FxpRenamePacket id a b =>
      is_uint32 id /\ short a /\ short b
  | FxpOpenPacket id path pflags attrs =>
      is_uint32 id /\ short path /\ is_uint32 pflags /\ plain_attrs attrs
  | FxpReadPacket id h off l =>
      is_uint32 id /\ short h /\ is_uint64 off /\ is_uint32 l
  | FxpWritePacket id h off l data =>
      is_uint32 id /\ short h /\ is_uint64 off /\ is_uint32 l
      /\ len data = l
  | FxpMkdirPacket id s attrs | FxpSetStatPacket id s attrs
  | FxpFSetStatPacket id s attrs =>
      is_uint32 id /\ short s /\ plain_attrs attrs
  | _ => False
  end.

End wire.

(* ================================================================== *)
(** ** package main: the [-vfs] flag *)
(* ================================================================== *)

Module main.
Import golang protosftp.

(** [strings.Index(s, sep)] for a separator of one byte: the index of its
    first occurrence, or -1. *)
Fixpoint strings_Index (s : list byte) (sep : byte) : Z :=
  match s with
  | [] => -1
  | b :: rest =>
      if Byte.eqb b sep then 0
      else
        let i := strings_Index rest sep in
        if i =? -1 then -1 else 1 + i
  end.

(** [parseVFS]: the engine name and its parameters. *)
Definition parseVFS (s : string) : outcome (string * string) :=
  let b := bytes_of_string s in
  let idx := strings_Index b ":"%byte in
  if idx =? -1 then Ok (s, "")
  else
    name ← slice_to b idx;
    params ← slice_from b (idx + 1);
    Ok (string_of_bytes name, string_of_bytes params).

End main.

(* ================================================================== *)
(** ** The type word of a directory listing line *)
(* ================================================================== *)

Module listing.
Import Stdlib.Strings.Ascii.
Import golang sftp.

(** [os.ModeDir] *)
Definition ModeDir : Z := 2147483648.

(** [runLsTypeWord]: the type character and the nine permission
    characters, as [fmt.Sprintf] puts them one after the other. *)
Definition runLsTypeWord (mode : Z) : string :=
  let pick (bits : Z) (c : Ascii.ascii) : Ascii.ascii :=
    if nonzero (Z.land mode bits) then c else "-"%char in
  let tc := pick ModeDir "d"%char in
  let orc := pick 256 "r"%char in
  let owc := pick 128 "w"%char in
  let oxc := pick 64 "x"%char in
  let grc := pick 32 "r"%char in
  let gwc := pick 16 "w"%char in
  let gxc := pick 8 "x"%char in
  let arc := pick 4 "r"%char in
  let awc := pick 2 "w"%char in
  let axc := pick 1 "x"%char in
  String tc (String orc (String owc (String oxc (String grc (String gwc
    (String gxc (String arc (String awc (String axc EmptyString))))))))).

End listing.

(* ================================================================== *)
(** ** What is observed of packets, backend calls and runs *)
(* ================================================================== *)

Module observe.
Import golang protosftp vfs sftp.

(** The packet types [ReadPacket] has a case for. *)
Definition known (t : Z) : Prop :=
  t ∈ [FXP_INIT; FXP_LSTAT; FXP_OPEN; FXP_CLOSE; FXP_READ; FXP_WRITE;
       FXP_FSTAT; FXP_SETSTAT; FXP_FSETSTAT; FXP_OPENDIR; FXP_READDIR;
       FXP_REMOVE; FXP_MKDIR; FXP_RMDIR; FXP_REALPATH; FXP_STAT; FXP_RENAME;
       FXP_READLINK; FXP_SYMLINK].

(** The [ID] field of a packet; INIT and VERSION have none. *)
Definition ID_of (p : Packet) : option Z :=
  match p with
  | FxpInitPacket _ _ | FxVersionPacket _ _ => None
  | FxpReaddirPacket ID _ | FxpOpendirPacket ID _ | FxpLstatPacket ID _
  | FxpStatPacket ID _ | FxpFstatPacket ID _ | FxpStatResponse ID _
  | FxpClosePacket ID _ | FxpRemovePacket ID _ | FxpRmdirPacket ID _
  | FxpSymlinkPacket ID _ _ | FxpReadlinkPacket ID _
  | FxpRealpathPacket ID _ | FxpNamePacket ID _ | FxpOpenPacket ID _ _ _
  | FxpReadPacket ID _ _ _ | FxpRenamePacket ID _ _
  | FxpWritePacket ID _ _ _ _ | FxpMkdirPacket ID _ _
  | FxpSetStatPacket ID _ _ | FxpFSetStatPacket ID _ _
  | FxpHandlePacket ID _ | FxpStatusPacket ID _ | FxpDataPacket ID _ _ =>
      Some ID
  end.

(** The status code of a STATUS response. *)
Definition status_of (p : Packet) : option Z :=
  match p with FxpStatusPacket _ st => Some (Code st) | _ => None end.


(** The [os] open flags an OPEN asks for, read off the bits of [Pflags]
    one by one: the access mode, then truncate, create, append, exclusive. *)
Definition os_flags (Pflags : Z) : Z :=
  let acc :=
    if nonzero (Z.land Pflags FXF_READ) && nonzero (Z.land Pflags FXF_WRITE)
    then O_RDWR
    else if nonzero (Z.land Pflags FXF_WRITE) then O_WRONLY else O_RDONLY in
  Z.lor (Z.lor (Z.lor (Z.lor acc
    (if nonzero (Z.land Pflags FXF_TRUNC) then O_TRUNC else 0))
    (if nonzero (Z.land Pflags FXF_CREAT) then O_CREATE else 0))
    (if nonzero (Z.land Pflags FXF_APPEND) then O_APPEND else 0))
    (if nonzero (Z.land Pflags FXF_EXCL) then O_EXCL else 0).

(** The permission bits an OPEN or MKDIR passes on: 0755 unless the
    attributes select the permissions. *)
Definition perm_of (Attrs : FileStat) : Z :=
  if nonzero (Z.land (Flags Attrs) FILEXFER_ATTR_PERMISSIONS)
  then Z.land (Mode Attrs) 511 else 493.


Definition is_close (req : Packet) : Prop :=
  exists ID k, req = FxpClosePacket ID k.


(** A packet [MarshalBinary] does not panic on; a READ request. *)
Definition marshals (p : Packet) : Prop := MarshalBinary p <> Panic.
Definition is_read (req : Packet) : Prop :=
  exists ID h off l, req = FxpReadPacket ID h off l.

(** The call of a record entry if it is a call on file [fid]; whether an
    entry is a call on a file at all. *)
Definition on_file (fid : nat) (c : Spy.Call) : option Spy.FileCall :=
  match c with
  | Spy.OnFile fid' fc => if decide (fid' = fid) then Some fc else None
  | _ => None
  end.
Definition is_file_call (c : Spy.Call) : bool :=
  match c with Spy.OnFile _ _ => true | _ => false end.

(** The calls a request makes on the file of its handle. *)
Definition file_calls (req : Packet) : list Spy.FileCall :=
  match req with
  | FxpFstatPacket _ _ => [Spy.FStat]
  | FxpWritePacket _ _ Offset _ Data => [Spy.FWriteAt Data (int64 Offset)]
  | FxpReadPacket _ _ Offset Len =>
      if Len >? 1024 * 1024 then []
      else [Spy.FReadAt (Z.max 0 Len) (int64 Offset)]
  | FxpReaddirPacket _ _ => [Spy.FReaddir 64]
  | FxpClosePacket _ _ => [Spy.FClose]
  | _ => []
  end.



End observe.

(* ================================================================== *)
(** * Properties *)
(* ================================================================== *)

Import golang protosftp vfs sftp.

(* ================================================================== *)
(** ** The error mapper *)
(* ================================================================== *)

Lemma respondError_default respId err :
  is_EOF err = false -> is_ErrNotExist err = false ->
  IsPermission err = false -> is_ErrUnsupported err = false ->
  respondError respId err = Respond (MakeStatus respId "error" FX_FAILURE).
Proof.
  intros H1 H2 H3 H4. unfold respondError. by rewrite H1, H2, H3, H4.
Qed.

Lemma marshalUint32_app b v :
  marshalUint32 b v = b ++ marshalUint32 [] v.
Proof. reflexivity. Qed.

Lemma marshalString_app b v :
  marshalString b v = b ++ marshalString [] v.
Proof.
  unfold marshalString. rewrite marshalUint32_app. by rewrite <- app_assoc.
Qed.

(** C10: an error that is none of io.EOF, os.ErrNotExist, a permission
    error or ErrUnsupported -- the sentinels ErrBadRead, ErrInvalidHandle
    and ErrTooManyOpenFiles among them -- is answered with the status
    code FX_FAILURE and the message "error", which is not the error's own
    text; these are the code and the message that go on the wire. *)
Theorem respondError_hides_message (respId : Z) (err : error) :
  err <> io_EOF -> err <> os_ErrNotExist -> IsPermission err = false ->
  err <> ErrUnsupported ->
  respondError respId err
    = Respond (FxpStatusPacket respId (mkStatusError FX_FAILURE "error" ""))
  /\ (forall e, e = ErrBadRead \/ e = ErrInvalidHandle
                \/ e = ErrTooManyOpenFiles ->
        respondError respId e
          = Respond (FxpStatusPacket respId
                       (mkStatusError FX_FAILURE "error" ""))
        /\ Error e <> "error")
  /\ MarshalBinary (FxpStatusPacket respId (mkStatusError FX_FAILURE "error" ""))
     = Ok (marshalUint32 [byte_of_Z FXP_STATUS] respId
             ++ marshalUint32 [] FX_FAILURE
             ++ marshalString [] "error" ++ marshalString [] "").
Proof.
  intros Heof Hne Hperm Hun. split; [|split].
  - apply respondError_default; [by destruct err..| done | by destruct err].
  - intros e [-> | [-> | ->]]; split; done.
  - cbn [MarshalBinary marshalStatus Code Msg Lang].
    rewrite (marshalString_app _ ""), (marshalString_app _ "error").
    rewrite (marshalUint32_app _ FX_FAILURE).
    by rewrite <- !app_assoc.
Qed.

Lemma respondError_hides_message_witness :
  respondError 7 (errorString "disk on fire")
  = Respond (FxpStatusPacket 7 (mkStatusError FX_FAILURE "error" "")).
Proof.
  refine (proj1 (respondError_hides_message
                   7 (errorString "disk on fire") _ _ _ _));
    [discriminate | discriminate | reflexivity | discriminate].
Defined.

(* ================================================================== *)
(** ** Decoding never panics *)
(* ================================================================== *)

Lemma Z_of_byte_bound b : 0 <= Z_of_byte b < 256.
Proof.
  unfold Z_of_byte. pose proof (Byte.to_N_bounded b). lia.
Qed.

Lemma bind_Ok {A B} (m : outcome A) (k : A -> outcome B) a :
  m = Ok a -> m ≫= k = k a.
Proof. by intros ->. Qed.

Lemma bind_not_Panic {A B} (m : outcome A) (k : A -> outcome B) :
  m <> Panic -> (forall a, m = Ok a -> k a <> Panic) -> m ≫= k <> Panic.
Proof. destruct m; cbn; [naive_solver | done | done]. Qed.

Lemma unmarshalUint32_Ok b :
  4 <= len b ->
  exists v rest, unmarshalUint32 b = Ok (v, rest)
                 /\ 0 <= v < 2 ^ 32 /\ len rest = len b - 4.
Proof.
  unfold len. intros Hlen.
  destruct b as [|b0 [|b1 [|b2 [|b3 rest]]]]; cbn in Hlen; try lia.
  eexists _, rest. split; [reflexivity|]. split; [|cbn; lia].
  pose proof (Z_of_byte_bound b0). pose proof (Z_of_byte_bound b1).
  pose proof (Z_of_byte_bound b2). pose proof (Z_of_byte_bound b3).
  rewrite !Z.shiftl_mul_pow2 by lia.
  split.
  - rewrite !Z.lor_nonneg. lia.
  - assert (Hlog : forall z, 0 <= z < 2 ^ 32 -> z = 0 \/ Z.log2 z < 32).
    { intros z Hz. destruct (Z.eq_dec z 0); [by left | right].
      apply Z.log2_lt_pow2; lia. }
    assert (Hlt : forall x y, 0 <= x < 2 ^ 32 -> 0 <= y < 2 ^ 32 ->
                              0 <= Z.lor x y < 2 ^ 32).
    { intros x y Hx Hy. split; [apply Z.lor_nonneg; lia|].
      destruct (Z.eq_dec (Z.lor x y) 0) as [->|Hne]; [lia|].
      apply Z.log2_lt_pow2; [pose proof (Z.lor_nonneg x y); lia|].
      rewrite Z.log2_lor by lia.
      destruct (Hlog x Hx) as [->|], (Hlog y Hy) as [->|];
        change (Z.log2 0) with 0 in *; lia. }
    apply Hlt; [apply Hlt; [apply Hlt|]|]; lia.
Qed.

Lemma unmarshalUint32Safe_cases b :
  (len b < 4 /\ unmarshalUint32Safe b = Err errShortPacket)
  \/ (exists v rest, unmarshalUint32Safe b = Ok (v, rest)
                     /\ 0 <= v < 2 ^ 32 /\ len rest = len b - 4).
Proof.
  unfold unmarshalUint32Safe.
  destruct (Z.ltb_spec (len b) 4); [by left | right].
  by apply unmarshalUint32_Ok.
Qed.

Lemma unmarshalUint32Safe_safe b : unmarshalUint32Safe b <> Panic.
Proof.
  destruct (unmarshalUint32Safe_cases b) as [[_ ->] | (v & r & -> & _)]; done.
Qed.

Lemma unmarshalUint64Safe_safe b : unmarshalUint64Safe b <> Panic.
Proof.
  unfold unmarshalUint64Safe, unmarshalUint64.
  destruct (Z.ltb_spec (len b) 8); [done|].
  destruct (unmarshalUint32_Ok b) as (h & r1 & -> & _ & Hr1); [lia|].
  cbn. destruct (unmarshalUint32_Ok r1) as (l & r2 & -> & _ & _); [lia|].
  done.
Qed.

Lemma len_nonneg {A} (l : list A) : 0 <= len l.
Proof. unfold len. lia. Qed.

Lemma int64_id z : 0 <= z < 2 ^ 63 -> int64 z = z.
Proof. intros. unfold int64. rewrite Z.mod_small by lia. lia. Qed.

Lemma len_bound (b : list byte) : len b < 2 ^ 63 -> int64 (len b) = len b.
Proof. intros. apply int64_id. pose proof (len_nonneg b). lia. Qed.

Lemma slice_to_Ok {A} (b : list A) n :
  0 <= n <= len b -> slice_to b n = Ok (take (Z.to_nat n) b).
Proof.
  intros. unfold slice_to.
  destruct (Z.leb_spec 0 n), (Z.leb_spec n (len b)); try lia; done.
Qed.

Lemma slice_from_Ok {A} (b : list A) n :
  0 <= n <= len b -> slice_from b n = Ok (drop (Z.to_nat n) b).
Proof.
  intros. unfold slice_from.
  destruct (Z.leb_spec 0 n), (Z.leb_spec n (len b)); try lia; done.
Qed.

Lemma unmarshalStringSafe_cases b :
  len b < 2 ^ 63 ->
  (exists e, unmarshalStringSafe b = Err e)
  \/ (exists s rest, unmarshalStringSafe b = Ok (s, rest)
                     /\ len rest <= len b - 4).
Proof.
  intros Hb. unfold unmarshalStringSafe.
  destruct (unmarshalUint32Safe_cases b)
    as [[_ ->] | (n & r & -> & Hn & Hr)]; [left; by eexists|].
  cbn. pose proof (len_nonneg r).
  rewrite (int64_id n), (int64_id (len r)) by lia.
  destruct (Z.gtb_spec n (len r)); [left; by eexists|].
  rewrite slice_to_Ok, slice_from_Ok by lia. cbn.
  right. eexists _, _. split; [done|].
  unfold len in *. rewrite length_drop. lia.
Qed.

Lemma unmarshalStringSafe_safe b :
  len b < 2 ^ 63 -> unmarshalStringSafe b <> Panic.
Proof.
  intros Hb.
  destruct (unmarshalStringSafe_cases b Hb)
    as [[e ->] | (s & r & -> & _)]; done.
Qed.

Lemma unmarshalUint64Safe_cases b :
  (exists e, unmarshalUint64Safe b = Err e)
  \/ (exists v rest, unmarshalUint64Safe b = Ok (v, rest)
                     /\ len rest <= len b).
Proof.
  unfold unmarshalUint64Safe, unmarshalUint64.
  destruct (Z.ltb_spec (len b) 8); [left; by eexists|].
  destruct (unmarshalUint32_Ok b) as (h & r1 & -> & _ & Hr1); [lia|].
  cbn. destruct (unmarshalUint32_Ok r1) as (l & r2 & -> & _ & Hr2); [lia|].
  cbn. right. eexists _, _. split; [done | lia].
Qed.

Lemma unmarshalFileStatSafe_cases b stat :
  (exists e, unmarshalFileStatSafe b stat = Err e)
  \/ (exists st rest, unmarshalFileStatSafe b stat = Ok (st, rest)
                      /\ len rest <= len b).
Proof.
  unfold unmarshalFileStatSafe.
  destruct (unmarshalUint32Safe_cases b)
    as [[_ ->] | (flags & r & -> & _ & Hr)]; [left; by eexists|].
  cbn.
  repeat first
    [ match goal with
      | |- context [if ?c =? 0 then _ else _] => destruct (c =? 0); cbn
      end
    | match goal with
      | |- context [unmarshalUint32Safe ?b] =>
          let Hl := fresh "Hl" in
          destruct (unmarshalUint32Safe_cases b)
            as [[_ ->] | (? & ? & -> & _ & Hl)];
          [left; by eexists | cbn]
      end ];
    right; eexists _, _; (split; [done | lia]).
Qed.

Lemma unmarshalFileStatSafe_safe b stat : unmarshalFileStatSafe b stat <> Panic.
Proof.
  destruct (unmarshalFileStatSafe_cases b stat)
    as [[e ->] | (st & r & -> & _)]; done.
Qed.

Lemma unmarshalExtensionPair_cases b :
  len b < 2 ^ 63 ->
  (exists e, unmarshalExtensionPair b = Err e)
  \/ (exists ep rest, unmarshalExtensionPair b = Ok (ep, rest)
                      /\ len rest <= len b - 8).
Proof.
  intros Hb. unfold unmarshalExtensionPair.
  destruct (unmarshalStringSafe_cases b Hb)
    as [[e ->] | (name & r1 & -> & Hr1)]; [left; by eexists|].
  cbn. pose proof (len_nonneg r1).
  destruct (unmarshalStringSafe_cases r1)
    as [[e ->] | (data & r2 & -> & Hr2)]; [lia | left; by eexists|].
  cbn. right. eexists _, _. split; [done | lia].
Qed.

Lemma unmarshalExtensions_safe fuel b acc :
  len b < 2 ^ 63 -> unmarshalExtensions fuel b acc <> Panic.
Proof.
  revert b acc. induction fuel as [|fuel IH]; intros b acc Hb; cbn.
  - by destruct (len b >? 0).
  - destruct (len b >? 0); [|done].
    destruct (unmarshalExtensionPair_cases b Hb)
      as [[e ->] | (ep & r & -> & Hr)]; [done|].
    cbn. apply IH. lia.
Qed.

(** The fuel of [unmarshalExtensions] is never what ends the loop: with at
    least [length b] rounds allowed the result is that of any larger
    allowance. *)
Lemma unmarshalExtensions_fuel fuel fuel' b acc :
  len b < 2 ^ 63 ->
  (length b <= fuel)%nat -> (length b <= fuel')%nat ->
  unmarshalExtensions fuel b acc = unmarshalExtensions fuel' b acc.
Proof.
  revert fuel' b acc.
  induction fuel as [|fuel IH]; intros fuel' b acc Hb Hf Hf'.
  - assert (b = []) as -> by (destruct b; [done | cbn in Hf; lia]).
    by destruct fuel'.
  - destruct fuel' as [|fuel'].
    { assert (b = []) as -> by (destruct b; [done | cbn in Hf'; lia]). done. }
    cbn. destruct (len b >? 0); [|done].
    destruct (unmarshalExtensionPair_cases b Hb)
      as [[e ->] | (ep & r & -> & Hr)]; [done|].
    cbn. unfold len in *. apply IH; lia.
Qed.

Lemma uint32_le z : 0 <= z -> uint32 z <= z.
Proof. intros. unfold uint32. apply Z.mod_le; lia. Qed.

(** A chain of decoders does not panic when its first decoder fails or
    hands on a slice that is no longer, and the rest does not panic on any
    such slice. *)
Lemma bind_shorter {A B} (m : outcome (A * list byte))
      (k : A * list byte -> outcome B) (b : list byte) (P : A -> Prop) :
  len b < 2 ^ 63 ->
  (exists e, m = Err e)
  \/ (exists a rest, m = Ok (a, rest) /\ P a /\ len rest <= len b) ->
  (forall a rest, P a -> len rest < 2 ^ 63 -> k (a, rest) <> Panic) ->
  m ≫= k <> Panic.
Proof.
  intros Hb [[e ->] | (a & rest & -> & HP & Hrest)] Hk; [done|].
  cbn. apply Hk; [done | lia].
Qed.

Lemma unmarshalUint32Safe_shorter b :
  (exists e, unmarshalUint32Safe b = Err e)
  \/ (exists v rest, unmarshalUint32Safe b = Ok (v, rest)
                     /\ 0 <= v < 2 ^ 32 /\ len rest <= len b).
Proof.
  destruct (unmarshalUint32Safe_cases b)
    as [[_ ->] | (v & r & -> & Hv & Hr)]; [left; by eexists | right].
  eexists _, _. split; [done|]. split; [done | lia].
Qed.

Lemma unmarshalStringSafe_shorter b :
  len b < 2 ^ 63 ->
  (exists e, unmarshalStringSafe b = Err e)
  \/ (exists v rest, unmarshalStringSafe b = Ok (v, rest)
                     /\ True /\ len rest <= len b).
Proof.
  intros Hb.
  destruct (unmarshalStringSafe_cases b Hb)
    as [[e ->] | (v & r & -> & Hr)]; [left; by eexists | right].
  eexists _, _. split; [done|]. split; [done | lia].
Qed.

Lemma unmarshalUint64Safe_shorter b :
  (exists e, unmarshalUint64Safe b = Err e)
  \/ (exists v rest, unmarshalUint64Safe b = Ok (v, rest)
                     /\ True /\ len rest <= len b).
Proof.
  destruct (unmarshalUint64Safe_cases b)
    as [[e ->] | (v & r & -> & Hr)]; [left; by eexists | right].
  eexists _, _. split; [done|]. split; [done | lia].
Qed.

Lemma unmarshalFileStatSafe_shorter b stat :
  (exists e, unmarshalFileStatSafe b stat = Err e)
  \/ (exists v rest, unmarshalFileStatSafe b stat = Ok (v, rest)
                     /\ True /\ len rest <= len b).
Proof.
  destruct (unmarshalFileStatSafe_cases b stat)
    as [[e ->] | (v & r & -> & Hr)]; [left; by eexists | right].
  eexists _, _. split; [done|]. split; [done | lia].
Qed.

Lemma unmarshalIDString_safe b :
  len b < 2 ^ 63 -> unmarshalIDString b <> Panic.
Proof.
  intros Hb. unfold unmarshalIDString.
  apply (bind_shorter _ _ b _ Hb (unmarshalUint32Safe_shorter b)).
  intros id r _ Hr. cbn beta iota.
  apply (bind_shorter _ _ r _ Hr (unmarshalStringSafe_shorter r Hr)).
  intros str r' _ _. done.
Qed.

(** One step through a chain of decoders. *)
Ltac through :=
  match goal with
  | H : len ?b < 2 ^ 63 |- unmarshalUint32Safe ?b ≫= _ <> Panic =>
      apply (bind_shorter _ _ b _ H (unmarshalUint32Safe_shorter b));
      intros ? ? ? ?; cbn beta iota
  | H : len ?b < 2 ^ 63 |- unmarshalStringSafe ?b ≫= _ <> Panic =>
      apply (bind_shorter _ _ b _ H (unmarshalStringSafe_shorter b H));
      intros ? ? _ ?; cbn beta iota
  | H : len ?b < 2 ^ 63 |- unmarshalUint64Safe ?b ≫= _ <> Panic =>
      apply (bind_shorter _ _ b _ H (unmarshalUint64Safe_shorter b));
      intros ? ? _ ?; cbn beta iota
  | H : len ?b < 2 ^ 63 |- unmarshalFileStatSafe ?b ?st ≫= _ <> Panic =>
      apply (bind_shorter _ _ b _ H (unmarshalFileStatSafe_shorter b st));
      intros ? ? _ ?; cbn beta iota
  | H : len ?b < 2 ^ 63 |- unmarshalIDString ?b ≫= _ <> Panic =>
      apply bind_not_Panic;
      [ by apply unmarshalIDString_safe | by intros [? ?] _ ]
  end.

Lemma UnmarshalBinary_safe pktType body :
  len body < 2 ^ 63 -> UnmarshalBinary pktType body <> Panic.
Proof.
  intros Hb. unfold UnmarshalBinary.
  repeat (match goal with
          | |- (if pktType =? ?t then _ else _) <> Panic =>
              destruct (pktType =? t)
          end; [repeat through; try done |]); [| | done].
  - apply bind_not_Panic; [|by intros ? _].
    apply unmarshalExtensions_safe. done.
  - match goal with
    | Hl : 0 <= ?l < 2 ^ 32, Hr : len ?b < 2 ^ 63
      |- (if uint32 (len ?b) <? ?l then _ else _) <> Panic =>
        destruct (Z.ltb_spec (uint32 (len b)) l) as [|Hle]; [done|];
        assert (0 <= l <= len b) as Hin
            by (pose proof (len_nonneg b) as Hn;
                pose proof (uint32_le (len b) Hn) as Hu;
                clear - Hl Hle Hn Hu; lia);
        rewrite (slice_to_Ok b l Hin)
    end.
    done.
Qed.

Lemma ReadFull_cases r n :
  0 < n ->
  (exists e, ReadFull r n = (Err e, []) /\ len r < n)
  \/ (ReadFull r n = (Ok (take (Z.to_nat n) r), drop (Z.to_nat n) r)
      /\ n <= len r).
Proof.
  intros Hn. unfold ReadFull.
  destruct (Z.leb_spec n 0); [lia|].
  destruct (Z.ltb_spec (len r) n); [left; by eexists | by right].
Qed.

Lemma len_take {A} (l : list A) n :
  0 <= n <= len l -> len (take (Z.to_nat n) l) = n.
Proof. unfold len. intros. rewrite length_take. lia. Qed.

Lemma ReadPacket_safe r : (ReadPacket r).1 <> Panic.
Proof.
  unfold ReadPacket.
  destruct (ReadFull_cases r 4) as [(e & -> & _) | [-> Hr]]; [lia | done |].
  destruct (unmarshalUint32_Ok (take (Z.to_nat 4) r)) as (l & r' & -> & Hl & _).
  { rewrite len_take; lia. }
  destruct (Z.gtb_spec l (1024 * 1024)); [done|].
  destruct (Z.leb_spec l 1); [done|].
  destruct (ReadFull_cases (drop (Z.to_nat 4) r) l)
    as [(e & -> & _) | [-> Hr']]; [lia | done |].
  cbn [fst]. unfold parseBody.
  destruct (take (Z.to_nat l) (drop (Z.to_nat 4) r)) as [|t body] eqn:E.
  { apply (f_equal len) in E. rewrite len_take in E by lia.
    unfold len in E. cbn in E. lia. }
  apply UnmarshalBinary_safe.
  apply (f_equal len) in E. rewrite len_take in E by lia.
  unfold len in *. cbn in E. lia.
Qed.

(* ================================================================== *)
(** ** Framing and the reader *)
(* ================================================================== *)

Section Reader.
Context {W : Type} (lib : Library).
Implicit Types (g : @System W).

Lemma set_wst_closed c st (s : @Session W) :
  closed (set_wst c st s) = closed s.
Proof. unfold set_wst. by destruct (goroutines s !! c). Qed.

Lemma dispatch_closed req (s : @Session W) :
  closed (dispatch lib req s).1 = closed s.
Proof.
  destruct req; cbn [dispatch]; try done;
    unfold handleClose, handleFstat, handleInit, handleLstat, handleMkdir,
      handleOpenDir, handleOpen, handleReadDir, handleReadLink, handleRead,
      handleRealPath, handleRemove, handleRename, handleRmdir, handleSetStat,
      handleStat, handleSymlink, handleWrite, forward, statReply,
      newFileHandle;
    repeat case_match; done.
Qed.




End Reader.


(* ================================================================== *)
(** ** Admission of OPEN and OPENDIR *)
(* ================================================================== *)

Section Admission.
Context {W : Type} (lib : Library).
Implicit Types (s : @Session W).


End Admission.



(* ================================================================== *)
(** ** FSETSTAT *)
(* ================================================================== *)

(** C2, what the code does: ReadPacket decodes an FSETSTAT frame, and the
    dispatcher's type switch has no case for the packet: the handle table
    is not consulted, nothing is responded, the goroutine returns and its
    deferred shutdown closes the session. *)
Theorem fsetstat_ends_session {W : Type} (lib : Library) (g : @System W)
        (ID : Z) (Handle : string) (Attrs : FileStat) (rest : list Packet) :
  ReadPacket demo.fsetstat_frame
  = (Ok (FxpFSetStatPacket 1 "nope" EmptyFileStat), [])
  /\ dispatch lib (FxpFSetStatPacket ID Handle Attrs) (session g)
     = (session g, Return)
  /\ (dispatcherTake lib (FxpFSetStatPacket ID Handle Attrs) rest g).2 = Return
  /\ dispatcher (dispatcherTake lib (FxpFSetStatPacket ID Handle Attrs)
                                rest g).1 = DExited
  /\ closed (session (dispatcherTake lib (FxpFSetStatPacket ID Handle Attrs)
                                     rest g).1) = true
  /\ outbox (session (dispatcherTake lib (FxpFSetStatPacket ID Handle Attrs)
                                     rest g).1) = outbox (session g).
Proof. repeat split; by vm_compute. Qed.

(* ================================================================== *)
(** ** FileStat on the wire *)
(* ================================================================== *)

(** C1, what the code does with SIZE set: the encoder writes the size, the
    decoder has no branch that reads it.  For flags SIZE|PERMISSIONS, size
    11 and mode 0644 the decoder returns size 0 and mode 0 (the upper half
    of the size) and leaves eight of the encoder's bytes unread. *)
Theorem filestat_size_not_decoded :
  marshalFileStat [] demo.attrs_size_mode
  = [x00; x00; x00; x05;
     x00; x00; x00; x00; x00; x00; x00; x0b;
     x00; x00; x01; xa4]
  /\ unmarshalFileStatSafe (marshalFileStat [] demo.attrs_size_mode)
                           EmptyFileStat
     = Ok (mkFileStat 5 0 0 0 0 0 0 [],
           [x00; x00; x00; x0b; x00; x00; x01; xa4]).
Proof. split; by vm_compute. Qed.

(* ================================================================== *)
(** ** The read-only wrapper *)
(* ================================================================== *)

Section ReadOnlyFacts.
Context {W : Type}.

(** The flag test of [ReadOnlyVFS.OpenFile], flattened. *)
Lemma writeAttempt_spec flag :
  writeAttempt flag = false
  <-> Z.land flag O_WRONLY = 0 /\ Z.land flag O_RDWR = 0
      /\ Z.land flag 3 = O_RDONLY
      /\ Z.land flag (Z.lor (Z.lor O_CREATE O_TRUNC) O_APPEND) = 0.
Proof.
  unfold writeAttempt.
  destruct (Z.eqb_spec (Z.land flag O_WRONLY) 0);
    destruct (Z.eqb_spec (Z.land flag O_RDWR) 0);
    destruct (Z.eqb_spec (Z.land flag 3) O_RDONLY);
    destruct (Z.eqb_spec
                (Z.land flag (Z.lor (Z.lor O_CREATE O_TRUNC) O_APPEND)) 0);
    split; try done; intros (? & ? & ? & ?); done.
Qed.

(** A flag word that asks for write access (O_WRONLY or O_RDWR), creation,
    truncation or appending is a write attempt. *)
Lemma writeAttempt_mutating flag :
  Z.land flag O_WRONLY <> 0 \/ Z.land flag O_RDWR <> 0
  \/ Z.land flag O_CREATE <> 0 \/ Z.land flag O_TRUNC <> 0
  \/ Z.land flag O_APPEND <> 0 ->
  writeAttempt flag = true.
Proof.
  intros H. destruct (writeAttempt flag) eqn:E; [done|].
  apply writeAttempt_spec in E as (H1 & H2 & _ & H4).
  destruct H as [H | [H | H]]; [done | done |].
  exfalso.
  assert (Hbits : forall n, Z.testbit flag n && Z.testbit 1600 n = false).
  { intros n. rewrite <- Z.land_spec.
    change 1600 with (Z.lor (Z.lor O_CREATE O_TRUNC) O_APPEND).
    rewrite H4. apply Z.bits_0. }
  destruct H as [H | [H | H]]; apply H; apply Z.bits_inj'; intros n Hn;
    rewrite Z.land_spec, Z.bits_0; specialize (Hbits n);
    [ destruct (Z.eq_dec n 6) as [->|]
    | destruct (Z.eq_dec n 9) as [->|]
    | destruct (Z.eq_dec n 10) as [->|] ];
    try (rewrite andb_false_iff in Hbits; destruct Hbits as [->| Hb];
         [done | discriminate Hb]).
  - change O_CREATE with (2 ^ 6). rewrite Z.pow2_bits_false by done.
    apply andb_false_r.
  - change O_TRUNC with (2 ^ 9). rewrite Z.pow2_bits_false by done.
    apply andb_false_r.
  - change O_APPEND with (2 ^ 10). rewrite Z.pow2_bits_false by done.
    apply andb_false_r.
Qed.

(** C4: under the read-only wrapper, VFS chmod, mkdir, remove and rename,
    file write_at and chmod (and write), and every open_file whose flags
    ask for write access, creation, truncation or appending, return
    os.ErrPermission -- a permission error for the error mapper -- and leave
    the wrapped backend's state and call record as they were; open, stat,
    read, read_at, readdir and close are the wrapped backend's own (a file
    comes back wrapped).  On a session over the wrapper, an OPEN with
    pflags FXF_WRITE|FXF_CREAT never reaches the backend, and when the open
    is within the handle limit it is answered with FX_PERMISSION_DENIED. *)
Theorem read_only_wrapper (lib : Library) (Fs : VFS.t W) (F : File.t W) :
  let RO := ReadOnlyVFS (Spy.VFS Fs) in
  let ROF fid := ReadOnlyFile (Spy.File fid F) in
  (forall name mode w,
      VFS.Chmod RO name mode w = (Some os_ErrPermission, w))
  /\ (forall path perm w,
      VFS.Mkdir RO path perm w = (Some os_ErrPermission, w))
  /\ (forall path w, VFS.Remove RO path w = (Some os_ErrPermission, w))
  /\ (forall from to w,
      VFS.Rename RO from to w = (Some os_ErrPermission, w))
  /\ (forall fid buf off w,
      File.WriteAt (ROF fid) buf off w = ((0, Some os_ErrPermission), w))
  /\ (forall fid buf w,
      File.Write (ROF fid) buf w = ((0, Some os_ErrPermission), w))
  /\ (forall fid mode w,
      File.Chmod (ROF fid) mode w = (Some os_ErrPermission, w))
  /\ (forall name flag perm w,
      Z.land flag O_WRONLY <> 0 \/ Z.land flag O_RDWR <> 0
      \/ Z.land flag O_CREATE <> 0 \/ Z.land flag O_TRUNC <> 0
      \/ Z.land flag O_APPEND <> 0 ->
      VFS.OpenFile RO name flag perm w = (Failure os_ErrPermission, w))
  /\ IsPermission os_ErrPermission = true
  /\ (forall path w,
      VFS.Open (ReadOnlyVFS Fs) path w
      = match VFS.Open Fs path w with
        | (Success f, w) => (Success (ReadOnlyFile f), w)
        | (Failure err, w) => (Failure err, w)
        end)
  /\ (forall path w, VFS.Stat (ReadOnlyVFS Fs) path w = VFS.Stat Fs path w)
  /\ (forall w, VFS.Close (ReadOnlyVFS Fs) w = VFS.Close Fs w)
  /\ (forall buf w, File.Read (ReadOnlyFile F) buf w = File.Read F buf w)
  /\ (forall buf off w,
      File.ReadAt (ReadOnlyFile F) buf off w = File.ReadAt F buf off w)
  /\ (forall n w, File.Readdir (ReadOnlyFile F) n w = File.Readdir F n w)
  /\ (forall w, File.Stat (ReadOnlyFile F) w = File.Stat F w)
  /\ (forall w, File.Close (ReadOnlyFile F) w = File.Close F w)
  /\ (forall (s : @Session (W * list Spy.Call)) ID Path Attrs,
      fs s = RO ->
      let r := dispatch lib (FxpOpenPacket ID Path (Z.lor FXF_WRITE FXF_CREAT)
                                           Attrs) s in
      world r.1 = world s
      /\ (Z.of_nat (size (files s)) <= MaxFiles (options s) ->
          r = (s, Respond (FxpStatusPacket ID
                             (mkStatusError FX_PERMISSION_DENIED
                                            "permission denied" ""))))).
Proof.
  intros RO ROF. repeat split; try done.
  - intros name flag perm w Hflag. unfold RO. cbn [ReadOnlyVFS VFS.OpenFile].
    by rewrite writeAttempt_mutating.
  - cbn [dispatch]. unfold handleOpen.
    destruct (_ >? _); [done|]. cbn. rewrite H. cbn. by destruct s.
  - intros Hadm. cbn [dispatch]. unfold handleOpen.
    destruct (Z.gtb_spec (Z.of_nat (size (files s))) (MaxFiles (options s)));
      [lia|].
    cbn. rewrite H. cbn. by destruct s.
Qed.

End ReadOnlyFacts.

Lemma read_only_wrapper_witness :
  dispatch memfs.lib (FxpOpenPacket 1 "/x" 10 EmptyFileStat)
    (session (Serve (mkOptions false 64) (ReadOnlyVFS (Spy.VFS memfs.Fs))
                    (memfs.tree, []) []))
  = (session (Serve (mkOptions false 64) (ReadOnlyVFS (Spy.VFS memfs.Fs))
                    (memfs.tree, []) []),
     Respond (FxpStatusPacket 1 (mkStatusError FX_PERMISSION_DENIED
                                               "permission denied" ""))).
Proof.
  pose proof (read_only_wrapper memfs.lib memfs.Fs (memfs.file "/f")) as H.
  cbv zeta in H. do 17 apply proj2 in H.
  refine (proj2 (H (session (Serve (mkOptions false 64)
                                    (ReadOnlyVFS (Spy.VFS memfs.Fs))
                                    (memfs.tree, []) []))
                    1 "/x" EmptyFileStat eq_refl) _).
  vm_compute. discriminate.
Defined.

(* ================================================================== *)
(** ** READ on an open handle *)
(* ================================================================== *)

Lemma len_replicate {A} (n : Z) (x : A) :
  0 <= n -> len (replicate (Z.to_nat n) x) = n.
Proof. intros. unfold len. rewrite length_replicate. lia. Qed.

Lemma uint32_small z : 0 <= z < 2 ^ 32 -> uint32 z = z.
Proof. intros. unfold uint32. by rewrite Z.mod_small. Qed.

Section Read.
Context {W : Type} (lib : Library).

(** C5: the per-handle goroutine of a file [F] (observed through the
    recorder as file [fid]) on a READ request.  A length above 1 MiB is
    answered with the FX_FAILURE status made from ErrBadRead and nothing is
    called.  Otherwise ReadAt is called once, on a buffer of exactly [Len]
    bytes, at the request's offset (as int64, the same number below 2^63);
    a count [n > 0] within the buffer -- with or without an error -- is
    answered with FXP_DATA carrying [n] and the first [n] bytes of the
    buffer; a count of zero with an error is answered with the mapped
    status, FX_EOF for io.EOF. *)
Theorem read_reply (F : File.t W) (fid : nat) (ID : Z) (Handle : string)
        (Offset Len : Z) (w : W) (log : list Spy.Call) :
  0 <= Len ->
  let req := FxpReadPacket ID Handle Offset Len in
  let r := serve lib (Spy.File fid F) req (w, log) in
  let buf := replicate (Z.to_nat Len) x00 in
  let ra := File.ReadAt F buf (int64 Offset) w in
  (1024 * 1024 < Len ->
     r = ((w, log), respondError ID ErrBadRead, true)
     /\ respondError ID ErrBadRead
        = Respond (FxpStatusPacket ID (mkStatusError FX_FAILURE "error" "")))
  /\ (Len <= 1024 * 1024 ->
     len buf = Len
     /\ (0 <= Offset < 2 ^ 63 -> int64 Offset = Offset)
     /\ r.1.1 = (ra.2, log ++ [Spy.OnFile fid (Spy.FReadAt Len (int64 Offset))])
     /\ (forall n data err,
           ra.1 = (n, data, err) -> 0 < n <= len data -> len data = Len ->
           r.1.2 = Respond (FxpDataPacket ID n (take (Z.to_nat n) data))
           /\ len (take (Z.to_nat n) data) = n)
     /\ (forall data err,
           ra.1 = (0, data, Some err) ->
           r.1.2 = respondError ID err)
     /\ respondError ID io_EOF
        = Respond (FxpStatusPacket ID (mkStatusError FX_EOF "EOF" ""))).
Proof.
  intros HLen req r buf ra. split.
  - intros Hbig. subst r req. cbn [serve].
    destruct (Z.gtb_spec Len (1024 * 1024)) as [_|]; [done | lia].
  - intros Hsmall.
    assert (Hbuf : len buf = Len) by (by apply len_replicate).
    split; [done|]. split; [apply int64_id|].
    subst r req. cbn [serve].
    destruct (Z.gtb_spec Len (1024 * 1024)) as [|_]; [lia|].
    cbn [Spy.File File.ReadAt]. unfold Spy.logged. cbn [fst snd].
    fold buf. rewrite Hbuf. fold ra.
    destruct ra as [[[n data] err] w'] eqn:Hra. cbn [fst snd].
    split; [|split; [|split; [|done]]].
    + destruct err as [err|]; [destruct (n =? 0)|];
        try done; by destruct (slice_to data n).
    + intros n' data' err' [= -> -> ->] Hn Hdata.
      assert (Hs : slice_to data' n' = Ok (take (Z.to_nat n') data')).
      { unfold slice_to.
        destruct (Z.leb_spec 0 n'), (Z.leb_spec n' (len data'));
          try lia; done. }
      assert (Hu : uint32 n' = n') by (apply uint32_small; lia).
      split.
      * destruct err' as [err'|];
          [destruct (Z.eqb_spec n' 0); [lia|]|]; by rewrite Hs, Hu.
      * unfold len in *. rewrite length_take. lia.
    + intros data' err' [= -> -> ->]. done.
Qed.

End Read.

Lemma read_reply_witness :
  (serve memfs.lib (Spy.File 0 (memfs.file "/f"))
         (FxpReadPacket 2 "0" 0 5) (memfs.tree, [])).1.2
  = Respond (FxpDataPacket 2 5 [x48; x65; x6c; x6c; x6f]).
Proof.
  pose proof (read_reply memfs.lib (memfs.file "/f") 0 2 "0" 0 5
                         memfs.tree []) as H.
  destruct H as [_ H]; [lia|].
  destruct H as (_ & _ & _ & H & _); [lia|].
  refine (proj1 (H 5 [x48; x65; x6c; x6c; x6f] None eq_refl _ eq_refl)).
  unfold len. simpl. lia.
Defined.

(* ================================================================== *)
(** ** REMOVE and RMDIR *)
(* ================================================================== *)

Section RemoveRmdir.
Context {W : Type} (lib : Library) (Fs : VFS.t W).
Implicit Types (s : @Session (W * list Spy.Call)).

Lemma handleRemove_spy s ID path :
  fs s = Spy.VFS Fs ->
  handleRemove ID path s =
    match VFS.Stat Fs path (world s).1 with
    | (Failure err, w) =>
        (set_world (w, Spy.calls (world s) ++ [Spy.Stat path]) s,
         respondError ID err)
    | (Success st, w) =>
        if fi_IsDir st then
          (set_world (w, Spy.calls (world s) ++ [Spy.Stat path]) s,
           respondError ID ErrUnsupported)
        else
          match VFS.Remove Fs path w with
          | (Some err, w) =>
              (set_world (w, Spy.calls (world s)
                               ++ [Spy.Stat path; Spy.Remove path]) s,
               respondError ID err)
          | (None, w) =>
              (set_world (w, Spy.calls (world s)
                               ++ [Spy.Stat path; Spy.Remove path]) s,
               respondOk ID)
          end
    end.
Proof.
  intros Hfs. unfold handleRemove. rewrite Hfs. cbn.
  unfold Spy.logged, Spy.calls.
  destruct (VFS.Stat Fs path (world s).1) as [[st|err] w1]; cbn; [|done].
  destruct (fi_IsDir st); [done|]. cbn.
  destruct (VFS.Remove Fs path w1) as [[err|] w2]; cbn;
    by rewrite <- app_assoc.
Qed.

Lemma handleRmdir_spy s ID path :
  fs s = Spy.VFS Fs ->
  handleRmdir ID path s =
    match VFS.Stat Fs path (world s).1 with
    | (Failure err, w) =>
        (set_world (w, Spy.calls (world s) ++ [Spy.Stat path]) s,
         respondError ID err)
    | (Success st, w) =>
        if negb (fi_IsDir st) then
          (set_world (w, Spy.calls (world s) ++ [Spy.Stat path]) s,
           respondError ID ErrUnsupported)
        else
          match VFS.Remove Fs path w with
          | (Some err, w) =>
              (set_world (w, Spy.calls (world s)
                               ++ [Spy.Stat path; Spy.Remove path]) s,
               respondError ID err)
          | (None, w) =>
              (set_world (w, Spy.calls (world s)
                               ++ [Spy.Stat path; Spy.Remove path]) s,
               respondOk ID)
          end
    end.
Proof.
  intros Hfs. unfold handleRmdir. rewrite Hfs. cbn.
  unfold Spy.logged, Spy.calls.
  destruct (VFS.Stat Fs path (world s).1) as [[st|err] w1]; cbn; [|done].
  destruct (fi_IsDir st); cbn; [|done].
  destruct (VFS.Remove Fs path w1) as [[err|] w2]; cbn;
    by rewrite <- app_assoc.
Qed.

(** C7: on a session whose backend is [Fs] (observed through the recorder),
    when the backend's stat of the target succeeds with [st]:
    REMOVE of a directory and RMDIR of a non-directory are answered with
    the status FX_OP_UNSUPPORTED and the only backend call made is that
    stat (remove is not called); REMOVE of a non-directory and RMDIR of a
    directory call stat and then remove with the request's path, and answer
    with what remove returned. *)
Theorem remove_rmdir_stat_gate s (ID : Z) (path : string) (st : FileInfo)
        (w1 : W) :
  fs s = Spy.VFS Fs ->
  VFS.Stat Fs path (world s).1 = (Success st, w1) ->
  let unsupported :=
    Respond (FxpStatusPacket ID (mkStatusError FX_OP_UNSUPPORTED
                                               "unsupported operation" "")) in
  let removed (r : @Session (W * list Spy.Call) * Effect) :=
    Spy.calls (world r.1)
      = Spy.calls (world s) ++ [Spy.Stat path; Spy.Remove path]
    /\ (world r.1).1 = (VFS.Remove Fs path w1).2
    /\ r.2 = match (VFS.Remove Fs path w1).1 with
             | Some err => respondError ID err
             | None => respondOk ID
             end in
  let refused (r : @Session (W * list Spy.Call) * Effect) :=
    r.2 = unsupported
    /\ Spy.calls (world r.1) = Spy.calls (world s) ++ [Spy.Stat path]
    /\ (world r.1).1 = w1 in
  (fi_IsDir st = true ->
     refused (dispatch lib (FxpRemovePacket ID path) s)
     /\ removed (dispatch lib (FxpRmdirPacket ID path) s))
  /\ (fi_IsDir st = false ->
     refused (dispatch lib (FxpRmdirPacket ID path) s)
     /\ removed (dispatch lib (FxpRemovePacket ID path) s)).
Proof.
  intros Hfs Hst unsupported removed refused. subst removed refused.
  cbn [dispatch].
  rewrite (handleRemove_spy _ _ _ Hfs), (handleRmdir_spy _ _ _ Hfs), Hst.
  split; intros ->; cbn [negb];
    destruct (VFS.Remove Fs path w1) as [[err|] w2]; cbn; done.
Qed.

End RemoveRmdir.

Lemma remove_rmdir_stat_gate_witness :
  let s := session (Serve (mkOptions false 64) (Spy.VFS memfs.Fs)
                          (memfs.tree, []) []) in
  (dispatch memfs.lib (FxpRemovePacket 5 "/d") s).2
  = Respond (FxpStatusPacket 5 (mkStatusError FX_OP_UNSUPPORTED
                                              "unsupported operation" ""))
  /\ Spy.calls (world (dispatch memfs.lib (FxpRemovePacket 5 "/d") s).1)
     = [Spy.Stat "/d"].
Proof.
  intros s.
  pose proof (remove_rmdir_stat_gate memfs.lib memfs.Fs s 5 "/d"
                (memfs.info "/d" memfs.Dir) memfs.tree
                eq_refl eq_refl) as [H _].
  destruct (H eq_refl) as [(He & Hc & _) _].
  split; [exact He | exact Hc].
Defined.

(* ================================================================== *)
(** ** What the dispatcher can do to the session *)
(* ================================================================== *)

Section Dispatch.
Context {W : Type} (lib : Library).
Implicit Types (s : @Session W) (g : @System W).

Lemma set_world_same s : set_world (world s) s = s.
Proof. by destruct s. Qed.

Lemma respondError_status ID err :
  exists msg code, respondError ID err = Respond (MakeStatus ID msg code).
Proof.
  unfold respondError.
  destruct (is_EOF err); [by eexists _, _|].
  destruct (is_ErrNotExist err); [by eexists _, _|].
  destruct (IsPermission err); [by eexists _, _|].
  destruct (is_ErrUnsupported err); by eexists _, _.
Qed.

Lemma plain_respondError ID err : plain (respondError ID err).
Proof.
  destruct (respondError_status ID err) as (msg & code & ->). by split.
Qed.

(** The four things [dispatch] does: admit an open (a new handle, a new
    goroutine, the counter moved on), take a handle out of the table and
    forward its CLOSE, forward a request to the handle it names, or answer
    by itself and touch at most the backend. *)
Lemma dispatch_cases req s :
  (exists ID f w,
      let id := pretty (fcounter s) in
      let h := mkHandle id (length (goroutines s)) in
      dispatch lib req s
      = (mkSession (options s) (fs s) (<[id := h]> (files s)) (inbox s)
                   (outbox s) (closed s) (int64 (fcounter s + 1)) w
                   (goroutines s ++ [mkWorker h f Receiving]),
         Respond (FxpHandlePacket ID id)))
  \/ (exists ID k hd,
      req = FxpClosePacket ID k /\ files s !! k = Some hd
      /\ dispatch lib req s = (set_files (delete k (files s)) s, Send hd req))
  \/ (exists k hd,
      Handle_of req = Some k /\ files s !! k = Some hd
      /\ dispatch lib req s = (s, Send hd req))
  \/ (exists w e, plain e /\ dispatch lib req s = (set_world w s, e)).
Proof.
  assert (Hplain : forall e, plain e ->
            exists w e', plain e' /\ (s, e) = (set_world w s, e')).
  { intros e He. exists (world s), e. by rewrite set_world_same. }
  assert (Hfwd : forall ID k,
            Handle_of req = Some k ->
            (exists hd, files s !! k = Some hd
                        /\ forward ID k req s = (s, Send hd req))
            \/ (exists w e, plain e /\ forward ID k req s = (set_world w s, e))).
  { intros ID k Hk. unfold forward.
    destruct (files s !! k) as [hd|] eqn:E; [left; by exists hd|].
    right. apply Hplain, plain_respondError. }
  destruct req; cbn [dispatch].
  all: try (do 3 right; apply Hplain; by split).
  all: try (unfold handleReadDir, handleFstat, handleRead, handleWrite;
            match goal with
            | |- context [forward ?ID ?k ?r _] =>
                destruct (Hfwd ID k eq_refl)
                  as [(hd & E & ->) | (w & e & He & ->)];
                [ right; right; left; by exists k, hd
                | do 3 right; by exists w, e ]
            end).
  all: try (do 3 right; apply Hplain; apply plain_respondError).
  - (* OPENDIR *)
    unfold handleOpenDir.
    destruct (_ >? _); [do 3 right; apply Hplain, plain_respondError|].
    destruct (VFS.Open (fs s) Path (world s)) as [[f|err] w].
    + left. by exists ID, f, w.
    + do 3 right. exists w, (respondError ID err).
      split; [apply plain_respondError | done].
  - (* LSTAT *)
    do 3 right. unfold handleLstat, statReply.
    destruct (VFS.Stat (fs s) Path (world s)) as [[st|err] w];
      eexists w, _; (split; [|done]); [by split | apply plain_respondError].
  - (* STAT *)
    do 3 right. unfold handleStat, statReply.
    destruct (VFS.Stat (fs s) Path (world s)) as [[st|err] w];
      eexists w, _; (split; [|done]); [by split | apply plain_respondError].
  - (* CLOSE *)
    unfold handleClose.
    destruct (files s !! Handle) as [hd|] eqn:E.
    + right; left. by exists ID, Handle, hd.
    + do 3 right. apply Hplain, plain_respondError.
  - (* REMOVE *)
    do 3 right. unfold handleRemove.
    destruct (VFS.Stat (fs s) Filename (world s)) as [[st|err] w];
      [destruct (fi_IsDir st);
       [|destruct (VFS.Remove (fs s) Filename w) as [[err|] w']]|];
      eexists _, _; (split; [|done]);
      first [apply plain_respondError | by split].
  - (* RMDIR *)
    do 3 right. unfold handleRmdir.
    destruct (VFS.Stat (fs s) Path (world s)) as [[st|err] w];
      [destruct (fi_IsDir st); cbn [negb];
       [destruct (VFS.Remove (fs s) Path w) as [[err|] w']|]|];
      eexists _, _; (split; [|done]);
      first [apply plain_respondError | by split].
  - (* OPEN *)
    unfold handleOpen.
    destruct (_ >? _); [do 3 right; apply Hplain, plain_respondError|].
    cbv zeta.
    repeat match goal with
           | |- context [let '(a, b) := ?e in _] =>
               destruct e as [? ?]; cbv iota beta
           end.
    destruct (nonzero _); [do 3 right; apply Hplain, plain_respondError|].
    match goal with
    | r : result (File.t W) |- _ => destruct r as [f|err]
    end.
    + left. by exists ID, f, w.
    + do 3 right. exists w, (respondError ID err).
      split; [apply plain_respondError | done].
  - (* RENAME *)
    do 3 right. unfold handleRename.
    destruct (VFS.Rename (fs s) Oldpath Newpath (world s)) as [[err|] w];
      eexists _, _; (split; [|done]);
      first [apply plain_respondError | by split].
  - (* MKDIR *)
    do 3 right. unfold handleMkdir.
    match goal with
    | |- context [VFS.Mkdir ?a ?b ?c ?d] =>
        destruct (VFS.Mkdir a b c d) as [[err|] w]
    end;
      eexists _, _; (split; [|done]);
      first [apply plain_respondError | by split].
  - (* SETSTAT *)
    do 3 right. unfold handleSetStat.
    destruct (nonzero (Z.land (Flags Attrs) FILEXFER_ATTR_PERMISSIONS));
      [destruct (VFS.Chmod (fs s) Path (Mode Attrs) (world s)) as [[err|] w]|];
      repeat match goal with
             | |- context [if nonzero ?x then _ else _] => destruct (nonzero x)
             end;
      first [ eexists _, _; (split; [|done]);
              first [apply plain_respondError | by split]
            | apply Hplain; first [apply plain_respondError | by split] ].
Qed.

End Dispatch.

(* ================================================================== *)
(** ** Runs: the handle counter *)
(* ================================================================== *)

Section Runs.
Context {W : Type} (lib : Library).
Implicit Types (s : @Session W) (g : @System W).

Lemma set_wst_files c st s : files (set_wst c st s) = files s.
Proof. unfold set_wst. by destruct (goroutines s !! c). Qed.

Lemma set_wst_fcounter c st s : fcounter (set_wst c st s) = fcounter s.
Proof. unfold set_wst. by destruct (goroutines s !! c). Qed.

Lemma dispatcherTake_effect req rest g :
  (dispatcherTake lib req rest g).2
  = (dispatch lib req (set_inbox rest (session g))).2.
Proof.
  unfold dispatcherTake.
  by destruct (dispatch lib req (set_inbox rest (session g))) as [s' []].
Qed.

Lemma dispatcherTake_files req rest g :
  files (session (dispatcherTake lib req rest g).1)
  = files (dispatch lib req (set_inbox rest (session g))).1.
Proof.
  unfold dispatcherTake.
  by destruct (dispatch lib req (set_inbox rest (session g))) as [s' []].
Qed.


Lemma workerServe_files c wk req g :
  files (session (workerServe lib c wk req g)) = files (session g).
Proof.
  unfold workerServe.
  destruct (serve lib (wfile wk) req (world (session g))) as [[w eff] again].
  destruct eff; cbn; by rewrite ?set_wst_files.
Qed.

Lemma workerServe_fcounter c wk req g :
  fcounter (session (workerServe lib c wk req g)) = fcounter (session g).
Proof.
  unfold workerServe.
  destruct (serve lib (wfile wk) req (world (session g))) as [[w eff] again].
  destruct eff; cbn; by rewrite ?set_wst_fcounter.
Qed.

Lemma readerRead_session g :
  files (session (readerRead g)) = files (session g)
  /\ fcounter (session (readerRead g)) = fcounter (session g).
Proof.
  unfold readerRead. by destruct (ReadPacket (rw_in g)) as [[?|?|] ?].
Qed.

(** A step that is not the dispatcher's leaves table and counter alone. *)
Lemma step_table g l g' :
  step lib g l g' ->
  (forall req e, l <> LDispatch req e) ->
  files (session g') = files (session g)
  /\ fcounter (session g') = fcounter (session g).
Proof.
  intros Hstep Hl. destruct Hstep; cbn;
    rewrite ?set_wst_files, ?set_wst_fcounter,
      ?workerServe_files, ?workerServe_fcounter;
    try done; try apply readerRead_session.
  by destruct (Hl req (dispatcherTake lib req rest g).2).
Qed.





End Runs.

Section Fresh.
Context {W : Type} (lib : Library).
Implicit Types (s : @Session W) (g : @System W).




End Fresh.

(** The demonstration run, up to the answer to its OPEN. *)
Lemma demo_run_open : exec memfs.lib demo.start demo.run_open demo.g3.
Proof.
  apply (exec_step memfs.lib demo.start [_; _] demo.g2 _ demo.g3);
    [apply (exec_step memfs.lib demo.start [_] demo.g1 _ demo.g2);
     [apply (exec_step memfs.lib demo.start [] demo.start _ demo.g1);
      [apply exec_nil | reflexivity |]
     | reflexivity |]
    | reflexivity |].
  - eapply reader_read; reflexivity.
  - apply reader_post; [reflexivity | vm_compute; lia].
  - apply (dispatcher_take memfs.lib demo.g2 (demo.open_f 1) []); reflexivity.
Defined.


(* ================================================================== *)
(** ** Runs: the queues *)
(* ================================================================== *)

Section Queues.
Context {W : Type} (lib : Library).
Implicit Types (s : @Session W) (g : @System W) (h : handle).


Lemma lookup_set_wst c st s c' :
  goroutines (set_wst c st s) !! c'
  = if decide (c = c')
    then (fun wk => mkWorker (wh wk) (wfile wk) st) <$> goroutines s !! c
    else goroutines s !! c'.
Proof.
  unfold set_wst. destruct (goroutines s !! c) as [wk|] eqn:E.
  - cbn. destruct (decide (c = c')) as [<-|Hne].
    + rewrite list_lookup_insert_eq; [done|].
      by eapply lookup_lt_Some.
    + by rewrite list_lookup_insert_ne.
  - destruct (decide (c = c')) as [<-|Hne]; [by rewrite ?E | done].
Qed.

(** Changing where a goroutine is does not change whose it is. *)
Lemma set_wst_wh c st s c' :
  wh <$> goroutines (set_wst c st s) !! c' = wh <$> goroutines s !! c'.
Proof.
  rewrite lookup_set_wst. destruct (decide (c = c')) as [<-|]; [|done].
  by destruct (goroutines s !! c).
Qed.

Lemma set_wst_inbox c st s : inbox (set_wst c st s) = inbox s.
Proof. unfold set_wst. by destruct (goroutines s !! c). Qed.

Lemma workerServe_view c wk req g :
  inbox (session (workerServe lib c wk req g)) = inbox (session g)
  /\ reader (workerServe lib c wk req g) = reader g
  /\ dispatcher (workerServe lib c wk req g) = dispatcher g.
Proof.
  unfold workerServe.
  destruct (serve lib (wfile wk) req (world (session g))) as [[w eff] again].
  destruct eff; cbn; by rewrite set_wst_inbox.
Qed.

Lemma workerServe_goroutines c wk req g :
  exists st,
    (forall r, st <> Got r)
    /\ goroutines (session (workerServe lib c wk req g))
       = goroutines (set_wst c st (session g)).
Proof.
  unfold workerServe.
  destruct (serve lib (wfile wk) req (world (session g))) as [[w eff] again].
  destruct eff; cbn;
    [ exists (Responding resp again)
    | exists (after again) | exists (after again) | exists (after again)
    | exists Exited ];
    (split; [by destruct again|]);
    unfold set_wst; cbn; by destruct (goroutines (session g) !! c).
Qed.

Lemma dispatcherTake_view req rest g :
  let r := dispatch lib req (set_inbox rest (session g)) in
  goroutines (session (dispatcherTake lib req rest g).1) = goroutines r.1
  /\ inbox (session (dispatcherTake lib req rest g).1) = inbox r.1
  /\ reader (dispatcherTake lib req rest g).1 = reader g
  /\ dispatcher (dispatcherTake lib req rest g).1
     = match r.2 with Return => DExited | e => Doing e end.
Proof.
  unfold dispatcherTake.
  by destruct (dispatch lib req (set_inbox rest (session g))) as [s' []].
Qed.

(** A step that is not the dispatcher's handling of a request leaves the
    table and the owners of the goroutines alone, and the dispatcher where
    it was unless it leaves a channel operation. *)
Lemma step_view g l g' :
  step lib g l g' ->
  (forall req e, l <> LDispatch req e) ->
  files (session g') = files (session g)
  /\ (forall c, wh <$> goroutines (session g') !! c
                = wh <$> goroutines (session g) !! c)
  /\ (dispatcher g' = dispatcher g
      \/ forall h req, dispatcher g' <> Doing (Send h req)).
Proof.
  intros Hstep Hl.
  split; [by eapply step_table|].
  destruct Hstep; cbn; try (split; [done | by auto]).
  - unfold readerRead.
    destruct (ReadPacket (rw_in g)) as [[?|?|] ?]; by auto.
  - unfold readerRead.
    destruct (ReadPacket (rw_in g)) as [[?|?|] ?]; by auto.
  - unfold readerRead.
    destruct (ReadPacket (rw_in g)) as [[?|?|] ?]; by auto.
  - by destruct (Hl req (dispatcherTake lib req rest g).2).
  - split; [|by right]. intros c. apply set_wst_wh.
  - destruct (workerServe_goroutines c wk req g) as (st & _ & ->).
    split; [intros c'; apply set_wst_wh|].
    left. unfold workerServe.
    destruct (serve lib (wfile wk) req (world (session g)))
      as [[w eff] again]. by destruct eff.
  - split; [|by left]. intros c'. apply (set_wst_wh _ _ (deliver resp _)).
  - split; [|by left]. intros c'. apply set_wst_wh.
Qed.

(** Along a run a key of the table is the id of its handle, a handle in the
    table or about to be sent to owns the goroutine its channel leads to,
    goroutine [c] is the one of channel [c], and the request about to be
    sent names the handle it is sent to. *)
Lemma exec_table opt fs0 w rw tr g :
  exec lib (Serve opt fs0 w rw) tr g ->
  (forall k hd, files (session g) !! k = Some hd ->
     Id hd = k /\ wh <$> goroutines (session g) !! reqChan hd = Some hd)
  /\ (forall c h, wh <$> goroutines (session g) !! c = Some h -> reqChan h = c)
  /\ (forall h req, dispatcher g = Doing (Send h req) ->
     wh <$> goroutines (session g) !! reqChan h = Some h
     /\ Handle_of req = Some (Id h)).
Proof.
  remember (Serve opt fs0 w rw) as g0 eqn:Hg0.
  induction 1 as [g|g tr g1 l g2 Hexec IH _ Hstep]; subst.
  { cbn. repeat split; done. }
  destruct (IH eq_refl) as (IHt & IHc & IHd). clear IH.
  assert (Hquiet :
    (forall req e, l <> LDispatch req e) ->
    (forall k hd, files (session g2) !! k = Some hd ->
       Id hd = k /\ wh <$> goroutines (session g2) !! reqChan hd = Some hd)
    /\ (forall c h, wh <$> goroutines (session g2) !! c = Some h ->
                    reqChan h = c)
    /\ (forall h req, dispatcher g2 = Doing (Send h req) ->
       wh <$> goroutines (session g2) !! reqChan h = Some h
       /\ Handle_of req = Some (Id h))).
  { intros Hl. destruct (step_view _ _ _ Hstep Hl) as (Hf & Hg & Hd).
    split; [|split].
    - intros k hd. rewrite Hf, Hg. apply IHt.
    - intros c h. rewrite Hg. apply IHc.
    - intros h req Hdo. rewrite Hg. apply IHd.
      destruct Hd as [<- | Hd]; [done | by destruct (Hd h req)]. }
  destruct Hstep as [| | | | | | | | |g1 req rest Hsel Hin| | | | | |];
    try (by apply Hquiet).
  clear Hquiet.
  destruct (dispatcherTake_view req rest g1) as (Hgo & _ & _ & Hdisp).
  pose proof (dispatcherTake_files lib req rest g1) as Hfiles.
  destruct (dispatcherTake lib req rest g1) as [g2 eff].
  cbn [fst snd] in *.
  destruct (dispatch_cases lib req (set_inbox rest (session g1)))
    as [(ID & f & w' & Hd) | [(ID & k & hd & -> & Hk & Hd)
       | [(k & hd & Hname & Hk & Hd) | (w' & e & [He1 He2] & Hd)]]];
    cbv zeta in Hd; rewrite Hd in Hgo, Hfiles, Hdisp;
    cbn in Hgo, Hfiles, Hdisp; rewrite Hgo, Hfiles, Hdisp.
  - (* a handle is given out *)
    split; [|split; [|done]].
    + intros k hd [[<- <-] | [_ Hk]]%lookup_insert_Some; cbn.
      * split; [done|]. by rewrite list_lookup_middle.
      * destruct (IHt k hd Hk) as [? Hwk]. split; [done|].
        destruct (goroutines (session g1) !! reqChan hd) eqn:E; [|done].
        by erewrite lookup_app_l_Some.
    + intros c h.
      destruct (goroutines (session g1) !! c) as [wk|] eqn:E.
      * erewrite lookup_app_l_Some by done. intros Hwk.
        apply IHc. by rewrite E.
      * apply lookup_ge_None in E.
        destruct (decide (c = length (goroutines (session g1)))) as [->|].
        { rewrite list_lookup_middle by done. by intros [= <-]. }
        rewrite lookup_ge_None_2; [done|]. rewrite length_app. cbn. lia.
  - (* CLOSE *)
    split; [|split; [exact IHc|]].
    + intros k' hd' [_ Hk']%lookup_delete_Some. by apply IHt.
    + intros h req [= <- <-]. destruct (IHt k hd Hk) as [<- ?]. done.
  - (* forwarded *)
    split; [exact IHt|]. split; [exact IHc|].
    intros h req' [= <- <-]. destruct (IHt k hd Hk) as [<- ?]. done.
  - (* answered in place *)
    split; [exact IHt|]. split; [exact IHc|].
    intros h req' Hdo. destruct e; try done.
    injection Hdo as -> ->. by destruct (He1 h req').
Qed.

Lemma arrivals_app tr1 tr2 :
  arrivals (tr1 ++ tr2) = arrivals tr1 ++ arrivals tr2.
Proof. apply omap_app. Qed.
Lemma dispatched_app tr1 tr2 :
  dispatched (tr1 ++ tr2) = dispatched tr1 ++ dispatched tr2.
Proof. apply omap_app. Qed.
Lemma forwarded_app h tr1 tr2 :
  forwarded h (tr1 ++ tr2) = forwarded h tr1 ++ forwarded h tr2.
Proof. apply omap_app. Qed.
Lemma sent_app h tr1 tr2 : sent h (tr1 ++ tr2) = sent h tr1 ++ sent h tr2.
Proof. apply omap_app. Qed.
Lemma served_app h tr1 tr2 :
  served h (tr1 ++ tr2) = served h tr1 ++ served h tr2.
Proof. apply omap_app. Qed.

Lemma dispatch_inbox req s : inbox (dispatch lib req s).1 = inbox s.
Proof.
  destruct (dispatch_cases lib req s)
    as [(ID & f & w' & Hd) | [(ID & k & hd & -> & Hk & Hd)
       | [(k & hd & Hname & Hk & Hd) | (w' & e & _ & Hd)]]];
    cbv zeta in Hd; by rewrite Hd.
Qed.

(** The requests read off the wire reach the dispatcher in order: what it
    has handled, then the inbox, then the request being posted. *)
Lemma step_inbox g l g' tr :
  step lib g l g' ->
  dispatched tr ++ inbox (session g) ++ posting (reader g)
    `sublist_of` arrivals tr ->
  dispatched (tr ++ [l]) ++ inbox (session g') ++ posting (reader g')
    `sublist_of` arrivals (tr ++ [l]).
Proof.
  intros Hstep IH. rewrite dispatched_app, arrivals_app.
  destruct Hstep as [g req r Hr Hread|g e r Hr Hread|g r Hr Hread
                    |g req Hr Hfull|g req Hr Hcl| | | |
                    |g req rest Hsel Hin| | | | | |];
    cbn; rewrite ?set_wst_inbox; cbn; rewrite ?app_nil_r; try exact IH.
  - unfold readerRead. rewrite Hread. cbn. rewrite Hr in IH. cbn in IH.
    rewrite app_nil_r in IH.
    rewrite (app_assoc (dispatched tr)). by apply sublist_app.
  - unfold readerRead. rewrite Hread. cbn. rewrite app_nil_r.
    rewrite Hr in IH. cbn in IH. by rewrite app_nil_r in IH.
  - unfold readerRead. rewrite Hread. cbn. rewrite Hr.
    by rewrite Hr in IH.
  - by rewrite Hr in IH.
  - rewrite Hr in IH. cbn in IH.
    etrans; [|exact IH]. apply sublist_app; [done|].
    by apply sublist_inserts_r.
  - destruct (dispatcherTake_view req rest g) as (_ & -> & -> & _).
    cbv zeta. rewrite dispatch_inbox. cbn.
    rewrite Hin in IH. by rewrite <- app_assoc.
  - by destruct (workerServe_view c wk req g) as (-> & -> & _).
Qed.

(** What the dispatcher has decided to forward to [h] is what has gone
    through [h]'s channel and the request it is sending now. *)
Lemma step_sending g l g' tr :
  step lib g l g' ->
  (forall h, forwarded h tr = sent h tr ++ sending h (dispatcher g)) ->
  forall h,
    forwarded h (tr ++ [l]) = sent h (tr ++ [l]) ++ sending h (dispatcher g').
Proof.
  intros Hstep IH h. specialize (IH h). rewrite forwarded_app, sent_app.
  destruct Hstep as [| | | | | | | |g Hsel Hcl
                    |g req rest Hsel Hin|g resp Hdo Hfull|g resp Hdo Hcl
                    |g h' req wk Hdo Hwk Hst|g c wk req Hwk Hst| |];
    cbn; rewrite ?app_nil_r; try exact IH.
  - unfold readerRead. by destruct (ReadPacket (rw_in g)) as [[?|?|] ?].
  - unfold readerRead. by destruct (ReadPacket (rw_in g)) as [[?|?|] ?].
  - unfold readerRead. by destruct (ReadPacket (rw_in g)) as [[?|?|] ?].
  - rewrite Hsel in IH. cbn in IH. by rewrite app_nil_r in IH.
  - destruct (dispatcherTake_view req rest g) as (_ & _ & _ & ->).
    rewrite dispatcherTake_effect. cbv zeta.
    rewrite Hsel in IH. cbn in IH. rewrite app_nil_r in IH. rewrite IH.
    destruct (dispatch lib req (set_inbox rest (session g))).2 as [| h0 ? | | |];
      cbn; try destruct (decide (h0 = h)); cbn; by rewrite ?app_nil_r.
  - rewrite Hdo in IH. cbn in IH. by rewrite app_nil_r in IH.
  - rewrite Hdo in IH. cbn in IH. by rewrite app_nil_r in IH.
  - rewrite Hdo in IH. cbn in IH. rewrite IH.
    destruct (decide (h' = h)); cbn; by rewrite ?app_nil_r.
  - by destruct (workerServe_view c wk req g) as (_ & _ & ->).
Qed.

Lemma holding_set_wst h c st s :
  holding h (goroutines (set_wst c st s))
  = if decide (c = reqChan h)
    then match goroutines s !! c with
         | Some wk =>
             if decide (wh wk = h)
             then match st with Got r => [r] | _ => [] end
             else []
         | None => []
         end
    else holding h (goroutines s).
Proof.
  unfold holding. rewrite lookup_set_wst.
  destruct (decide (c = reqChan h)) as [->|]; [|done].
  by destruct (goroutines s !! reqChan h).
Qed.

Lemma holding_idle h (ws : list (@worker W)) wk :
  ws !! reqChan h = Some wk -> (forall r, wst wk <> Got r) ->
  holding h ws = [].
Proof.
  intros Hwk Hst. unfold holding. rewrite Hwk.
  destruct (decide (wh wk = h)); [|done].
  destruct (wst wk) eqn:E; try done. by destruct (Hst req).
Qed.

(** What has gone through [h]'s channel is what [h]'s goroutine has run
    and the request it holds. *)
Lemma step_holding g l g' tr :
  step lib g l g' ->
  (forall c h, wh <$> goroutines (session g) !! c = Some h -> reqChan h = c) ->
  (forall h req, dispatcher g = Doing (Send h req) ->
     wh <$> goroutines (session g) !! reqChan h = Some h) ->
  (forall h, sent h tr = served h tr ++ holding h (goroutines (session g))) ->
  forall h,
    sent h (tr ++ [l])
    = served h (tr ++ [l]) ++ holding h (goroutines (session g')).
Proof.
  intros Hstep Hchan Hsend IH h. specialize (IH h).
  rewrite sent_app, served_app.
  assert (Hquiet : forall c st (s : @Session W) wk,
            goroutines s = goroutines (session g) ->
            goroutines (session g) !! c = Some wk ->
            (forall r, wst wk <> Got r) -> (forall r, st <> Got r) ->
            holding h (goroutines (set_wst c st s))
            = holding h (goroutines (session g))).
  { intros c st s wk Hs Hwk Hst1 Hst2. rewrite holding_set_wst, Hs, Hwk.
    destruct (decide (c = reqChan h)) as [->|]; [|done].
    rewrite (holding_idle h _ wk) by done.
    destruct (decide (wh wk = h)); [|done].
    destruct st; try done. by destruct (Hst2 req). }
  destruct Hstep as [| | | | | | | | |g req rest Hsel Hin| |
                    |g h' req wk Hdo Hwk Hst|g c wk req Hwk Hst
                    |g c wk resp again Hwk Hst Hfull
                    |g c wk resp again Hwk Hst Hcl];
    cbn; rewrite ?app_nil_r; try exact IH.
  - unfold readerRead. by destruct (ReadPacket (rw_in g)) as [[?|?|] ?].
  - unfold readerRead. by destruct (ReadPacket (rw_in g)) as [[?|?|] ?].
  - unfold readerRead. by destruct (ReadPacket (rw_in g)) as [[?|?|] ?].
  - (* the dispatcher handles a request *)
    destruct (dispatcherTake_view req rest g) as (-> & _).
    cbv zeta.
    destruct (dispatch_cases lib req (set_inbox rest (session g)))
      as [(ID & f & w' & Hd) | [(ID & k & hd & -> & Hk & Hd)
         | [(k & hd & Hname & Hk & Hd) | (w' & e & _ & Hd)]]];
      cbv zeta in Hd; rewrite Hd; cbn; try exact IH.
    rewrite IH. f_equal. unfold holding.
    destruct (goroutines (session g) !! reqChan h) as [wk|] eqn:E.
    + by erewrite lookup_app_l_Some.
    + apply lookup_ge_None in E.
      destruct (decide (reqChan h = length (goroutines (session g))))
        as [->|].
      * rewrite list_lookup_middle by done. cbn. by destruct (decide _).
      * rewrite lookup_ge_None_2; [done|]. rewrite length_app. cbn. lia.
  - (* the rendezvous *)
    pose proof (Hsend h' req Hdo) as Hown. rewrite Hwk in Hown.
    injection Hown as Hown.
    rewrite holding_set_wst, Hwk.
    destruct (decide (h' = h)) as [->|Hne].
    + rewrite decide_True by done. rewrite decide_True by done.
      rewrite IH, (holding_idle h _ wk) by (done || by rewrite Hst).
      by rewrite !app_nil_r.
    + rewrite app_nil_r.
      destruct (decide (reqChan h' = reqChan h)) as [Heq|]; [|done].
      rewrite decide_False by congruence.
      rewrite IH. f_equal. unfold holding. rewrite <- Heq, Hwk.
      by rewrite decide_False by congruence.
  - (* the goroutine runs the request *)
    destruct (workerServe_goroutines c wk req g) as (st & Hnot & ->).
    assert (Hc : reqChan (wh wk) = c) by (apply Hchan; by rewrite Hwk).
    rewrite holding_set_wst, Hwk.
    destruct (decide (wh wk = h)) as [<-|Hne].
    + rewrite decide_True by done.
      assert (Hnil : match st with Got r => [r] | _ => [] end = @nil Packet).
      { destruct st; try done. by destruct (Hnot req0). }
      rewrite Hnil, app_nil_r, IH. f_equal.
      unfold holding. rewrite Hc, Hwk, decide_True by done. by rewrite Hst.
    + rewrite app_nil_r, IH. f_equal.
      destruct (decide (c = reqChan h)) as [->|]; [|done].
      unfold holding. rewrite Hwk. by rewrite decide_False.
  - (* a response is delivered *)
    rewrite IH. f_equal. symmetry.
    apply (Hquiet c (after again) (deliver resp (session g)) wk);
      [done | done | by rewrite Hst | by destruct again].
  - rewrite IH. f_equal. symmetry.
    apply (Hquiet c (after again) (session g) wk);
      [done | done | by rewrite Hst | by destruct again].
Qed.

Lemma for_handle_app id l1 l2 :
  for_handle id (l1 ++ l2) = for_handle id l1 ++ for_handle id l2.
Proof. apply filter_app. Qed.

(** What the dispatcher forwards to [h] are requests it handled that name
    [h]'s id, in the order it handled them. *)
Lemma step_forwarded g l g' tr :
  step lib g l g' ->
  (forall k hd, files (session g) !! k = Some hd -> Id hd = k) ->
  (forall h, forwarded h tr `sublist_of` for_handle (Id h) (dispatched tr)) ->
  forall h,
    forwarded h (tr ++ [l])
      `sublist_of` for_handle (Id h) (dispatched (tr ++ [l])).
Proof.
  intros Hstep Htable IH h. specialize (IH h).
  rewrite forwarded_app, dispatched_app, for_handle_app.
  destruct Hstep as [| | | | | | | | |g req rest Hsel Hin| | | | | |];
    try (cbn; rewrite ?app_nil_r; exact IH).
  rewrite dispatcherTake_effect.
  change (dispatched [LDispatch req ?e]) with [req].
  destruct (dispatch_cases lib req (set_inbox rest (session g)))
    as [(ID & f & w' & Hd) | [(ID & k & hd & -> & Hk & Hd)
       | [(k & hd & Hname & Hk & Hd) | (w' & e & [He _] & Hd)]]];
    cbv zeta in Hd; rewrite Hd; cbn [snd].
  - cbn [forwarded omap]. cbn. rewrite app_nil_r. by apply sublist_inserts_r.
  - cbn [forwarded omap]. cbn -[for_handle].
    destruct (decide (hd = h)) as [->|];
      [|rewrite app_nil_r; by apply sublist_inserts_r].
    apply sublist_app; [done|].
    unfold for_handle. rewrite filter_cons, decide_True; [done|].
    cbn. f_equal. symmetry. by apply Htable.
  - cbn [forwarded omap]. cbn -[for_handle].
    destruct (decide (hd = h)) as [->|];
      [|rewrite app_nil_r; by apply sublist_inserts_r].
    apply sublist_app; [done|].
    unfold for_handle. rewrite filter_cons, decide_True; [done|].
    rewrite Hname. f_equal. symmetry. by apply Htable.
  - destruct e as [|h0 r0| | |];
      try (cbn -[for_handle]; rewrite app_nil_r; by apply sublist_inserts_r).
    by destruct (He h0 r0).
Qed.

(** Along a run, for every handle: the requests its goroutine has run are
    the first of those that went through its channel, these are the first
    of those the dispatcher forwarded to it, which it handled in that order
    and which name the handle's id; and the dispatcher handles requests in
    the order the reader took them off the wire. *)
Lemma exec_queues opt fs0 w rw tr g :
  exec lib (Serve opt fs0 w rw) tr g ->
  dispatched tr ++ inbox (session g) ++ posting (reader g)
    `sublist_of` arrivals tr
  /\ (forall h, forwarded h tr = sent h tr ++ sending h (dispatcher g))
  /\ (forall h, sent h tr = served h tr ++ holding h (goroutines (session g)))
  /\ (forall h, forwarded h tr `sublist_of` for_handle (Id h) (dispatched tr)).
Proof.
  intros Hexec.
  remember (Serve opt fs0 w rw) as g0 eqn:Hg0.
  induction Hexec as [g|g tr g1 l g2 Hexec IH _ Hstep]; subst.
  { cbn. repeat split; done. }
  destruct (IH eq_refl) as (IH1 & IH2 & IH3 & IH4). clear IH.
  destruct (exec_table _ _ _ _ _ _ Hexec) as (Ht & Hc & Hd).
  split; [by apply (step_inbox g1)|].
  split; [by apply (step_sending g1)|].
  split.
  { apply (step_holding g1); try done.
    intros h req Hdo. by destruct (Hd h req Hdo). }
  apply (step_forwarded g1 _ g2); try done.
  intros k hd Hk. by destruct (Ht k hd Hk).
Qed.

End Queues.

Section Order.
Context {W : Type} (lib : Library).
Implicit Types (s : @Session W) (g : @System W) (h : handle).




End Order.

(** The demonstration run, up to the WRITE reaching the file. *)
Lemma demo_run_write : exec memfs.lib demo.start demo.run_write demo.g9.
Proof.
  unfold demo.run_write.
  apply (exec_step memfs.lib demo.start (demo.run_open ++ [_; _; _; _; _])
                   demo.g8 _ demo.g9);
    [apply (exec_step memfs.lib demo.start (demo.run_open ++ [_; _; _; _])
                      demo.g7 _ demo.g8);
     [apply (exec_step memfs.lib demo.start (demo.run_open ++ [_; _; _])
                       demo.g6 _ demo.g7);
      [apply (exec_step memfs.lib demo.start (demo.run_open ++ [_; _])
                        demo.g5 _ demo.g6);
       [apply (exec_step memfs.lib demo.start (demo.run_open ++ [_])
                         demo.g4 _ demo.g5);
        [apply (exec_step memfs.lib demo.start demo.run_open
                          demo.g3 _ demo.g4);
         [exact demo_run_open | reflexivity |]
        | reflexivity |]
       | reflexivity |]
      | reflexivity |]
     | reflexivity |]
    | reflexivity |].
  - apply (dispatcher_respond memfs.lib demo.g3 (FxpHandlePacket 1 "0"));
      [reflexivity | vm_compute; lia].
  - eapply (reader_read memfs.lib demo.g4); reflexivity.
  - apply (reader_post memfs.lib demo.g5 demo.write_0);
      [reflexivity | vm_compute; lia].
  - apply (dispatcher_take memfs.lib demo.g6 demo.write_0 []); reflexivity.
  - eapply (dispatcher_send memfs.lib demo.g7 demo.h0 demo.write_0);
      reflexivity.
  - apply (worker_serve memfs.lib demo.g8 0 demo.w0 demo.write_0);
      reflexivity.
Defined.


(* ================================================================== *)
(** ** Round trips of the wire encodings *)
(* ================================================================== *)

Lemma Z_of_byte_of_Z z : Z_of_byte (byte_of_Z z) = z mod 256.
Proof.
  unfold Z_of_byte, byte_of_Z, uint8. change (2 ^ 8) with 256.
  pose proof (Z.mod_pos_bound z 256 eq_refl) as Hz.
  destruct (Byte.of_N (Z.to_N (z mod 256))) as [b|] eqn:E; cbn.
  - apply Byte.to_of_N in E. rewrite E. lia.
  - apply Byte.of_N_None_iff in E. lia.
Qed.

Lemma byte_of_Z_of_byte b : byte_of_Z (Z_of_byte b) = b.
Proof.
  unfold Z_of_byte, byte_of_Z, uint8.
  pose proof (Byte.to_N_bounded b).
  rewrite Z.mod_small by (change (2 ^ 8) with 256; lia).
  by rewrite N2Z.id, Byte.of_to_N.
Qed.

Lemma testbit_high v n : 0 <= v < 2 ^ 32 -> 32 <= n -> Z.testbit v n = false.
Proof.
  intros Hv Hn. destruct (Z.eq_dec v 0) as [->|]; [apply Z.bits_0|].
  apply Z.bits_above_log2; [lia|].
  assert (Z.log2 v < 32) by (apply Z.log2_lt_pow2; lia). lia.
Qed.

(** The four bytes of [marshalUint32] read back as the number. *)
Lemma uint32_bytes v :
  0 <= v < 2 ^ 32 ->
  Z.lor (Z.lor (Z.lor (v mod 256) (Z.shiftl (Z.shiftr v 8 mod 256) 8))
               (Z.shiftl (Z.shiftr v 16 mod 256) 16))
        (Z.shiftl (Z.shiftr v 24 mod 256) 24) = v.
Proof.
  intros Hv. apply Z.bits_inj'. intros n Hn.
  rewrite !Z.lor_spec.
  change 256 with (2 ^ 8).
  destruct (Z.lt_ge_cases n 8).
  { rewrite Z.mod_pow2_bits_low by lia.
    rewrite !Z.shiftl_spec_low by lia. by rewrite !orb_false_r. }
  rewrite (Z.mod_pow2_bits_high v) by lia. cbn [orb].
  rewrite !Z.shiftl_spec by lia.
  destruct (Z.lt_ge_cases n 16).
  { rewrite Z.mod_pow2_bits_low by lia. rewrite Z.shiftr_spec by lia.
    rewrite (Z.testbit_neg_r _ (n - 16)), (Z.testbit_neg_r _ (n - 24)) by lia.
    rewrite !orb_false_r. f_equal. lia. }
  rewrite (Z.mod_pow2_bits_high (Z.shiftr v 8)) by lia. cbn [orb].
  destruct (Z.lt_ge_cases n 24).
  { rewrite Z.mod_pow2_bits_low by lia. rewrite Z.shiftr_spec by lia.
    rewrite (Z.testbit_neg_r _ (n - 24)) by lia.
    rewrite !orb_false_r. f_equal. lia. }
  rewrite (Z.mod_pow2_bits_high (Z.shiftr v 16)) by lia. cbn [orb].
  destruct (Z.lt_ge_cases n 32).
  { rewrite Z.mod_pow2_bits_low by lia. rewrite Z.shiftr_spec by lia.
    f_equal. lia. }
  rewrite Z.mod_pow2_bits_high by lia. symmetry. by apply testbit_high.
Qed.

Lemma unmarshalUint32Safe_marshal v rest :
  wire.is_uint32 v ->
  unmarshalUint32Safe (marshalUint32 [] v ++ rest) = Ok (v, rest).
Proof.
  intros Hv. unfold unmarshalUint32Safe, marshalUint32, len. cbn.
  rewrite !Z_of_byte_of_Z.
  destruct (Z.ltb_spec (Z.of_nat (S (S (S (S (length rest)))))) 4); [lia|].
  by rewrite uint32_bytes.
Qed.

(** X1: a uint32 written by marshalUint32 is read back by
    unmarshalUint32Safe, which consumes exactly its four bytes. *)
Theorem uint32_round_trip (b : list byte) (v : Z) (rest : list byte) :
  0 <= v < 2 ^ 32 ->
  marshalUint32 b v = b ++ marshalUint32 [] v
  /\ length (marshalUint32 [] v) = 4%nat
  /\ unmarshalUint32Safe (marshalUint32 [] v ++ rest) = Ok (v, rest).
Proof.
  intros Hv. split; [apply marshalUint32_app|]. split; [reflexivity|].
  by apply unmarshalUint32Safe_marshal.
Qed.

Lemma uint32_round_trip_witness :
  0 <= 1577934245 < 2 ^ 32
  /\ unmarshalUint32Safe (marshalUint32 [] 1577934245 ++ [x07])
     = Ok (1577934245, [x07]).
Proof.
  split; [lia|].
  refine (proj2 (proj2 (uint32_round_trip [] 1577934245 [x07] _))). lia.
Defined.

Import wire.

Lemma bind_ret {A B} (a : A) (k : A -> outcome B) : Ok a ≫= k = k a.
Proof. reflexivity. Qed.

Lemma unmarshalUint32_marshal v rest :
  is_uint32 v -> unmarshalUint32 (marshalUint32 [] v ++ rest) = Ok (v, rest).
Proof.
  intros Hv. unfold marshalUint32. cbn.
  rewrite !Z_of_byte_of_Z. by rewrite uint32_bytes.
Qed.

Lemma marshalUint64_app b v : marshalUint64 b v = b ++ marshalUint64 [] v.
Proof.
  unfold marshalUint64.
  rewrite (marshalUint32_app (marshalUint32 b _)), (marshalUint32_app b).
  rewrite (marshalUint32_app (marshalUint32 [] _)).
  by rewrite <- !app_assoc.
Qed.

Lemma uint64_halves v :
  is_uint64 v ->
  is_uint32 (uint32 (Z.shiftr v 32)) /\ is_uint32 (uint32 v)
  /\ Z.lor (Z.shiftl (uint64 (uint32 (Z.shiftr v 32))) 32)
           (uint64 (uint32 v)) = v.
Proof.
  intros Hv. unfold is_uint32, is_uint64, uint32, uint64 in *.
  assert (Hhi : 0 <= Z.shiftr v 32 < 2 ^ 32).
  { rewrite Z.shiftr_div_pow2 by lia. split; [apply Z.div_pos; lia|].
    apply Z.div_lt_upper_bound; lia. }
  pose proof (Z.mod_pos_bound v (2 ^ 32) eq_refl) as Hlo.
  split; [rewrite Z.mod_small by lia; lia|]. split; [lia|].
  rewrite (Z.mod_small (Z.shiftr v 32) (2 ^ 32)) by lia.
  rewrite (Z.mod_small (Z.shiftr v 32) (2 ^ 64)) by lia.
  rewrite (Z.mod_small (v mod 2 ^ 32) (2 ^ 64)) by lia.
  apply Z.bits_inj'. intros n Hn. rewrite Z.lor_spec.
  destruct (Z.lt_ge_cases n 32).
  - rewrite Z.shiftl_spec_low by lia. rewrite Z.mod_pow2_bits_low by lia. done.
  - rewrite Z.shiftl_spec by lia. rewrite Z.shiftr_spec by lia.
    rewrite Z.mod_pow2_bits_high by lia. rewrite orb_false_r. f_equal. lia.
Qed.

Lemma unmarshalUint64Safe_marshal v rest :
  is_uint64 v ->
  unmarshalUint64Safe (marshalUint64 [] v ++ rest) = Ok (v, rest).
Proof.
  intros Hv.
  destruct (uint64_halves v Hv) as (Hhi & Hlo & Hjoin).
  unfold unmarshalUint64Safe, unmarshalUint64.
  assert (Hlen : (len (marshalUint64 [] v ++ rest) <? 8) = false).
  { apply Z.ltb_ge. unfold len. rewrite length_app.
    change (length (marshalUint64 [] v)) with 8%nat. lia. }
  rewrite Hlen. unfold marshalUint64.
  rewrite (marshalUint32_app (marshalUint32 [] _)), <- app_assoc.
  rewrite unmarshalUint32_marshal by done. rewrite bind_ret. cbv beta iota.
  rewrite unmarshalUint32_marshal by done. rewrite bind_ret. cbv beta iota.
  by rewrite Hjoin.
Qed.

(** X2: a uint64 written by marshalUint64 -- the high word, then the low
    word -- is read back by unmarshalUint64Safe, which consumes exactly its
    eight bytes. *)
Theorem uint64_round_trip (v : Z) (rest : list byte) :
  0 <= v < 2 ^ 64 ->
  length (marshalUint64 [] v) = 8%nat
  /\ unmarshalUint64Safe (marshalUint64 [] v ++ rest) = Ok (v, rest).
Proof.
  intros Hv. split; [reflexivity|]. by apply unmarshalUint64Safe_marshal.
Qed.

Lemma uint64_round_trip_witness :
  0 <= 4294967297 < 2 ^ 64
  /\ unmarshalUint64Safe (marshalUint64 [] 4294967297 ++ [x07])
     = Ok (4294967297, [x07]).
Proof.
  split; [lia|].
  refine (proj2 (uint64_round_trip 4294967297 [x07] _)). lia.
Defined.

Lemma string_of_bytes_of_string s : string_of_bytes (bytes_of_string s) = s.
Proof. apply String.string_of_list_byte_of_string. Qed.

Lemma len_app {A} (l k : list A) : len (l ++ k) = len l + len k.
Proof. unfold len. rewrite length_app. lia. Qed.

Lemma take_len_app {A} (l k : list A) : take (Z.to_nat (len l)) (l ++ k) = l.
Proof. unfold len. rewrite Nat2Z.id. by rewrite take_app_length. Qed.

Lemma drop_len_app {A} (l k : list A) : drop (Z.to_nat (len l)) (l ++ k) = k.
Proof. unfold len. rewrite Nat2Z.id. by rewrite drop_app_length. Qed.

Lemma unmarshalStringSafe_marshal s rest :
  short s -> len (bytes_of_string s ++ rest) < 2 ^ 63 ->
  unmarshalStringSafe (marshalString [] s ++ rest) = Ok (s, rest).
Proof.
  unfold short. intros Hs Hall.
  pose proof (len_nonneg (bytes_of_string s)) as Hpos.
  assert (Hu : uint32 (len (bytes_of_string s)) = len (bytes_of_string s))
    by (apply uint32_small; lia).
  unfold unmarshalStringSafe, marshalString. rewrite Hu.
  rewrite <- app_assoc.
  rewrite unmarshalUint32Safe_marshal by (unfold is_uint32; lia).
  rewrite bind_ret. cbv beta iota.
  rewrite !int64_id by (pose proof (len_nonneg (bytes_of_string s ++ rest)); lia).
  rewrite len_app. pose proof (len_nonneg rest).
  destruct (Z.gtb_spec (len (bytes_of_string s))
                       (len (bytes_of_string s) + len rest)); [lia|].
  rewrite slice_to_Ok, slice_from_Ok by (rewrite len_app; lia).
  rewrite !bind_ret.
  by rewrite take_len_app, drop_len_app, string_of_bytes_of_string.
Qed.

Lemma unmarshalStringSafe_cut n cut :
  is_uint32 n -> len cut < n ->
  unmarshalStringSafe (marshalUint32 [] n ++ cut) = Err errShortPacket.
Proof.
  intros Hn Hcut. unfold unmarshalStringSafe.
  rewrite unmarshalUint32Safe_marshal by done.
  rewrite bind_ret. cbv beta iota.
  pose proof (len_nonneg cut). unfold is_uint32 in Hn.
  rewrite !int64_id by lia.
  by destruct (Z.gtb_spec n (len cut)); [|lia].
Qed.

(** X3: a string written by marshalString -- its length as a uint32, then
    its bytes -- is read back by unmarshalStringSafe, which consumes
    exactly those bytes; and when fewer bytes follow the length than it
    announces, the result is the error "packet too short". *)
Theorem string_round_trip (s : string) (rest : list byte) :
  len (bytes_of_string s) < 2 ^ 32 ->
  len (bytes_of_string s ++ rest) < 2 ^ 63 ->
  unmarshalStringSafe (marshalString [] s ++ rest) = Ok (s, rest)
  /\ (forall cut,
        len cut < len (bytes_of_string s) ->
        unmarshalStringSafe
          (marshalUint32 [] (len (bytes_of_string s)) ++ cut)
        = Err errShortPacket).
Proof.
  intros Hs Hall. split; [by apply unmarshalStringSafe_marshal|].
  intros cut Hcut. apply unmarshalStringSafe_cut; [|done].
  pose proof (len_nonneg (bytes_of_string s)). unfold is_uint32. lia.
Qed.

Lemma string_round_trip_witness :
  unmarshalStringSafe (marshalString [] "/a.txt" ++ [x07])
  = Ok ("/a.txt", [x07])
  /\ unmarshalStringSafe (marshalUint32 [] 6 ++ [x2f; x61])
     = Err errShortPacket.
Proof.
  assert (H1 : len (bytes_of_string "/a.txt") < 2 ^ 32) by (vm_compute; reflexivity).
  assert (H2 : len (bytes_of_string "/a.txt" ++ [x07]) < 2 ^ 63)
    by (vm_compute; reflexivity).
  split.
  - exact (proj1 (string_round_trip "/a.txt" [x07] H1 H2)).
  - refine (proj2 (string_round_trip "/a.txt" [x07] H1 H2) [x2f; x61] _).
    vm_compute; reflexivity.
Defined.

Import wire.

Lemma marshalFileStat_app b a : marshalFileStat b a = b ++ marshalFileStat [] a.
Proof.
  unfold marshalFileStat. cbv zeta.
  repeat match goal with
         | |- context [if ?c =? 0 then _ else _] => destruct (c =? 0)
         end;
    unfold marshalUint64;
    repeat (rewrite (marshalUint32_app (_ ++ _))
            || rewrite (marshalUint32_app (marshalUint32 _ _)));
    rewrite ?(marshalUint32_app b); by rewrite <- ?app_assoc.
Qed.

Lemma unmarshalFileStatSafe_selected a rest :
  stat_in_range a ->
  Z.land (Flags a) FILEXFER_ATTR_SIZE = 0 ->
  unmarshalFileStatSafe (marshalFileStat [] a ++ rest) EmptyFileStat
  = Ok (selected a, rest).
Proof.
  intros (Hf & Hsz & Hmode & Hmt & Hat & Huid & Hgid) Hsize.
  unfold unmarshalFileStatSafe, marshalFileStat, selected. cbv zeta.
  rewrite Hsize. cbn [Z.eqb].
  repeat match goal with
         | |- context [if ?c =? 0 then _ else _] => destruct (c =? 0) eqn:?
         end;
    repeat (rewrite (marshalUint32_app (marshalUint32 _ _)));
    rewrite <- ?app_assoc;
    repeat first
      [ rewrite unmarshalUint32Safe_marshal by done
      | rewrite bind_ret
      | progress cbv beta iota
      | progress cbn [Flags Size Mode Mtime Atime UID GID Extended
                      EmptyFileStat]
      | rewrite Heqb | rewrite Heqb0 | rewrite Heqb1 ];
    reflexivity.
Qed.

Lemma unmarshalFileStatSafe_marshal a rest :
  plain_attrs a ->
  unmarshalFileStatSafe (marshalFileStat [] a ++ rest) EmptyFileStat
  = Ok (a, rest).
Proof.
  intros (Hr & Hs & Hsel). rewrite <- Hsel at 2.
  exact (unmarshalFileStatSafe_selected a rest Hr Hs).
Qed.

(** X4: a FileStat whose flags do not select the size is read back by
    unmarshalFileStatSafe from what marshalFileStat wrote: the flags and
    every selected field (uid and gid, mode, atime and mtime) come back,
    the fields not selected stay zero, and exactly the encoder's bytes are
    consumed. *)
Theorem filestat_round_trip_without_size (a : FileStat) (rest : list byte) :
  stat_in_range a ->
  Z.land (Flags a) FILEXFER_ATTR_SIZE = 0 ->
  unmarshalFileStatSafe (marshalFileStat [] a ++ rest) EmptyFileStat
  = Ok (selected a, rest).
Proof. apply unmarshalFileStatSafe_selected. Qed.

Lemma filestat_round_trip_without_size_witness :
  unmarshalFileStatSafe
    (marshalFileStat [] (mkFileStat 12 0 420 1577934245 1577934245 0 0 [])
       ++ [x07])
    EmptyFileStat
  = Ok (mkFileStat 12 0 420 1577934245 1577934245 0 0 [], [x07]).
Proof.
  apply (filestat_round_trip_without_size
           (mkFileStat 12 0 420 1577934245 1577934245 0 0 []) [x07]).
  - unfold stat_in_range, is_uint32, is_uint64. cbn. lia.
  - reflexivity.
Defined.

Import wire.

Lemma len_marshalUint32 v : len (marshalUint32 [] v) = 4.
Proof. reflexivity. Qed.

Lemma len_marshalString s :
  len (marshalString [] s) = 4 + len (bytes_of_string s).
Proof. unfold marshalString. by rewrite len_app, len_marshalUint32. Qed.

Lemma len_cons {A} (x : A) l : len (x :: l) = 1 + len l.
Proof. unfold len. cbn [length]. lia. Qed.

(** Every [len] in sight is not negative. *)
Ltac len_nonnegs :=
  repeat match goal with
         | |- context [len ?x] =>
             lazymatch goal with
             | H : 0 <= len x |- _ => fail
             | _ => pose proof (len_nonneg x)
             end
         | H : context [len ?x] |- _ =>
             lazymatch goal with
             | H : 0 <= len x |- _ => fail
             | _ => pose proof (len_nonneg x)
             end
         end.

(** A bound on a suffix of the packet from the bound [H] on all of it. *)
Ltac sizes H :=
  rewrite ?len_cons, ?len_app, ?len_marshalString, ?len_marshalUint32 in H;
  rewrite ?len_cons, ?len_app, ?len_marshalString, ?len_marshalUint32;
  clear -H; len_nonnegs; lia.

Lemma marshalExtensions_cons b e es :
  marshalExtensions b (e :: es)
  = marshalExtensions (b ++ marshalString [] (ep_Name e)
                         ++ marshalString [] (ep_Data e)) es.
Proof.
  unfold marshalExtensions. cbn.
  rewrite (marshalString_app (marshalString b _)), (marshalString_app b).
  by rewrite <- app_assoc.
Qed.

Lemma marshalExtensions_app b es :
  marshalExtensions b es = b ++ marshalExtensions [] es.
Proof.
  revert b. induction es as [|e es IH]; intros b.
  { cbn. by rewrite app_nil_r. }
  rewrite !marshalExtensions_cons, (IH (b ++ _)), (IH ([] ++ _)).
  by rewrite <- !app_assoc.
Qed.

Lemma unmarshalExtensions_marshal fuel es acc :
  Forall (fun e => short (ep_Name e) /\ short (ep_Data e)) es ->
  len (marshalExtensions [] es) < 2 ^ 63 ->
  (length (marshalExtensions [] es) <= fuel)%nat ->
  unmarshalExtensions fuel (marshalExtensions [] es) acc = Ok (acc ++ es).
Proof.
  revert fuel acc. induction es as [|e es IH]; intros fuel acc Hes Hlen Hfuel.
  { destruct fuel; cbn; by rewrite app_nil_r. }
  apply Forall_cons in Hes as [[Hn Hd] Hes].
  rewrite marshalExtensions_cons, marshalExtensions_app in Hlen, Hfuel |- *.
  rewrite app_nil_l, <- app_assoc in Hlen, Hfuel |- *.
  assert (Hpos : (len (marshalString [] (ep_Name e)
                        ++ marshalString [] (ep_Data e)
                        ++ marshalExtensions [] es) >? 0) = true).
  { apply Z.gtb_lt. rewrite !len_app, !len_marshalString.
    clear. len_nonnegs. lia. }
  destruct fuel as [|fuel].
  { exfalso. apply Z.gtb_lt in Hpos. clear -Hpos Hfuel. unfold len in *. apply Nat.le_0_r in Hfuel. rewrite Hfuel in Hpos. done. }
  cbn [unmarshalExtensions]. rewrite Hpos.
  unfold unmarshalExtensionPair.
  rewrite unmarshalStringSafe_marshal by (done || sizes Hlen).
  rewrite bind_ret. cbv beta iota.
  rewrite unmarshalStringSafe_marshal by (done || sizes Hlen).
  rewrite !bind_ret. cbv beta iota.
  rewrite IH; [|done|sizes Hlen|].
  - rewrite <- app_assoc. by destruct e.
  - unfold marshalString in Hfuel. rewrite !length_app in Hfuel.
    change (length (marshalUint32 [] ?v)) with 4%nat in Hfuel.
    clear -Hfuel. lia.
Qed.

Import wire.

(** Writes every encoder call as an append to the empty buffer. *)
Ltac flatten :=
  repeat match goal with
         | |- context [marshalUint32 ?b ?v] =>
             lazymatch b with [] => fail | _ => rewrite (marshalUint32_app b v) end
         | |- context [marshalUint64 ?b ?v] =>
             lazymatch b with [] => fail | _ => rewrite (marshalUint64_app b v) end
         | |- context [marshalString ?b ?v] =>
             lazymatch b with [] => fail | _ => rewrite (marshalString_app b v) end
         | |- context [marshalFileStat ?b ?v] =>
             lazymatch b with [] => fail | _ => rewrite (marshalFileStat_app b v) end
         | |- context [marshalExtensions ?b ?v] =>
             lazymatch b with [] => fail | _ => rewrite (marshalExtensions_app b v) end
         end;
  rewrite <- ?app_assoc.

Ltac decode H :=
  repeat first
    [ rewrite unmarshalUint32Safe_marshal by done
    | rewrite unmarshalUint64Safe_marshal by done
    | rewrite unmarshalStringSafe_marshal by (done || sizes H)
    | rewrite unmarshalFileStatSafe_marshal by done
    | rewrite bind_ret
    | progress cbv beta iota ].

Lemma Ok_inj {A} (a b : A) : Ok a = Ok b -> a = b.
Proof. congruence. Qed.

Lemma take_len_app_nil {A} (l : list A) : take (Z.to_nat (len l)) l = l.
Proof. unfold len. rewrite Nat2Z.id. apply firstn_all. Qed.

Lemma parseBody_marshal p body :
  request p -> MarshalBinary p = Ok body -> len body < 2 ^ 63 ->
  parseBody body = Ok p.
Proof.
  intros Hreq Hm. rewrite <- (app_nil_r body).
  destruct p; cbn [request] in Hreq; try done;
    cbn [MarshalBinary] in Hm; unfold marshalIDString in Hm; cbv zeta in Hm;
    apply Ok_inj in Hm; subst body; destruct_and!; flatten; intros Hlen;
    cbn [app parseBody];
    match goal with
    | |- context [Z_of_byte (byte_of_Z ?t)] =>
        let n := eval vm_compute in (Z_of_byte (byte_of_Z t)) in
        change (Z_of_byte (byte_of_Z t)) with n
    end.
  all: unfold UnmarshalBinary, unmarshalIDString;
    cbv beta iota delta
      [Z.eqb Pos.eqb FXP_INIT FXP_VERSION FXP_OPEN FXP_CLOSE FXP_READ
         FXP_WRITE FXP_LSTAT FXP_FSTAT FXP_SETSTAT FXP_FSETSTAT FXP_OPENDIR
         FXP_READDIR FXP_REMOVE FXP_MKDIR FXP_RMDIR FXP_REALPATH FXP_STAT
         FXP_RENAME FXP_READLINK FXP_SYMLINK].
  all: cbn [app] in Hlen.
  all: try (decode Hlen; reflexivity).
  - (* INIT: the extension pairs up to the end of the body *)
    decode Hlen. rewrite app_nil_r in Hlen |- *.
    rewrite unmarshalExtensions_marshal; [done|done|sizes Hlen|done].
  - (* WRITE: the data is the [Length] bytes after the fixed fields *)
    decode Hlen. rewrite app_nil_r in Hlen |- *.
    match goal with Hd : len Data = Length, Hl : is_uint32 Length |- _ =>
      rewrite uint32_small by (rewrite Hd; exact Hl);
      rewrite Hd, Z.ltb_irrefl, slice_to_Ok by (rewrite Hd; unfold is_uint32 in Hl; lia);
      rewrite bind_ret, <- Hd, take_len_app_nil
    end.
    done.
Qed.

Lemma request_body_len p body :
  request p -> MarshalBinary p = Ok body -> 5 <= len body.
Proof.
  intros Hreq Hm.
  destruct p; cbn [request] in Hreq; try done;
    cbn [MarshalBinary] in Hm; unfold marshalIDString in Hm; cbv zeta in Hm;
    apply Ok_inj in Hm; subst body; clear Hreq; flatten; cbn [app];
    rewrite ?len_cons, ?len_app, ?len_marshalUint32; len_nonnegs; lia.
Qed.

(** A frame: the length of the body as a uint32, then the body. *)
Lemma ReadPacket_frame body rest :
  2 <= len body <= 1024 * 1024 ->
  ReadPacket (marshalUint32 [] (len body) ++ body ++ rest)
  = (parseBody body, rest).
Proof.
  intros Hb. unfold ReadPacket.
  destruct (ReadFull_cases (marshalUint32 [] (len body) ++ body ++ rest) 4)
    as [(e & _ & Hshort) | [-> _]]; [lia | |].
  { rewrite len_app, len_marshalUint32 in Hshort.
    pose proof (len_nonneg (body ++ rest)). lia. }
  change (Z.to_nat 4) with (Z.to_nat (len (marshalUint32 [] (len body)))).
  rewrite take_len_app, drop_len_app.
  rewrite <- (app_nil_r (marshalUint32 [] (len body))).
  rewrite unmarshalUint32_marshal by (unfold is_uint32; lia).
  destruct (Z.gtb_spec (len body) (1024 * 1024)); [lia|].
  destruct (Z.leb_spec (len body) 1); [lia|].
  destruct (ReadFull_cases (body ++ rest) (len body))
    as [(e & _ & Hshort) | [-> _]]; [lia | |].
  { rewrite len_app in Hshort. pose proof (len_nonneg rest). lia. }
  by rewrite take_len_app, drop_len_app.
Qed.

(** X5: a well-formed request (fields of their Go types, strings short
    enough for the length prefix, attributes that do not select the size)
    written by WritePacket, with a body of at most 1 MiB, is read back by
    ReadPacket as the same request, and ReadPacket consumes exactly the
    frame. *)
Theorem request_round_trip (p : Packet) (frame rest : list byte) :
  request p ->
  WritePacket [] p = Ok frame ->
  len frame <= 4 + 1024 * 1024 ->
  ReadPacket (frame ++ rest) = (Ok p, rest).
Proof.
  intros Hreq Hw Hlen. unfold WritePacket in Hw.
  destruct (MarshalBinary p) as [body| |] eqn:Hm; try done.
  rewrite bind_ret in Hw. cbv zeta in Hw. apply Ok_inj in Hw. subst frame.
  pose proof (request_body_len p body Hreq Hm) as Hbody.
  rewrite app_nil_l in Hlen |- *. rewrite len_app in Hlen.
  change (len [_; _; _; _]) with 4 in Hlen.
  assert (Hu : uint32 (len body) = len body) by (apply uint32_small; lia).
  rewrite Hu.
  change (([?a; ?b; ?c; ?d] ++ body) ++ rest)
    with (marshalUint32 [] (len body) ++ body ++ rest).
  rewrite ReadPacket_frame by lia.
  f_equal. apply parseBody_marshal; [done..|lia].
Qed.

Lemma request_round_trip_witness :
  ReadPacket (demo.frame (demo.open_f 1) ++ [x07])
  = (Ok (demo.open_f 1), [x07]).
Proof.
  apply (request_round_trip (demo.open_f 1)).
  - repeat split; vm_compute; congruence.
  - reflexivity.
  - vm_compute. congruence.
Defined.

Import wire observe.

(* ================================================================== *)
(** ** What the decoder refuses *)
(* ================================================================== *)

Lemma bind_Err {A B} (m : outcome A) (k : A -> outcome B) e :
  m ≫= k = Err e -> m = Err e \/ exists a, m = Ok a /\ k a = Err e.
Proof.
  destruct m as [a|e'|]; intros H;
    [ right; by exists a
    | left; change (@Err B e' = Err e) in H; congruence
    | discriminate H ].
Qed.

Lemma unmarshalUint32Safe_Err b e :
  unmarshalUint32Safe b = Err e -> e = errShortPacket.
Proof.
  destruct (unmarshalUint32Safe_cases b) as [[_ ->] | (v & r & -> & _)];
    congruence.
Qed.

Lemma unmarshalUint64Safe_Err b e :
  unmarshalUint64Safe b = Err e -> e = errShortPacket.
Proof.
  unfold unmarshalUint64Safe, unmarshalUint64.
  destruct (Z.ltb_spec (len b) 8); [congruence|].
  destruct (unmarshalUint32_Ok b) as (h & r & -> & _ & Hr); [lia|].
  rewrite bind_ret. cbv beta iota.
  destruct (unmarshalUint32_Ok r) as (l & r' & -> & _); [lia|].
  rewrite bind_ret. done.
Qed.

Lemma slice_Err {A} (b : list A) n e :
  slice_to b n <> Err e /\ slice_from b n <> Err e.
Proof. unfold slice_to, slice_from. split; by repeat case_match. Qed.

Lemma unmarshalStringSafe_Err b e :
  unmarshalStringSafe b = Err e -> e = errShortPacket.
Proof.
  unfold unmarshalStringSafe. intros [H | ([n r] & _ & H)]%bind_Err.
  { by eapply unmarshalUint32Safe_Err. }
  cbv beta iota in H. destruct (_ >? _); [congruence|].
  apply bind_Err in H as [H | (s & _ & H)]; [by apply slice_Err in H|].
  apply bind_Err in H as [H | (s' & _ & H)]; [by apply slice_Err in H|].
  done.
Qed.

(** Peels the first decoding step off a failing chain. *)
Ltac peel H :=
  apply bind_Err in H as [H | ([? ?] & _ & H)];
  [ first [ by eapply unmarshalUint32Safe_Err
          | by eapply unmarshalUint64Safe_Err
          | by eapply unmarshalStringSafe_Err ]
  | cbv beta iota in H ].

Lemma unmarshalFileStatSafe_Err b stat e :
  unmarshalFileStatSafe b stat = Err e -> e = errShortPacket.
Proof.
  unfold unmarshalFileStatSafe. intros H. peel H. cbv zeta in H.
  cbn [Flags] in H.
  apply bind_Err in H as [H | ([? ?] & _ & H)].
  { destruct (_ =? _); [done|]. peel H. peel H. done. }
  cbv beta iota in H.
  apply bind_Err in H as [H | ([? ?] & _ & H)].
  { destruct (_ =? _); [done|]. peel H. done. }
  cbv beta iota in H.
  apply bind_Err in H as [H | ([? ?] & _ & H)].
  { destruct (_ =? _); [done|]. peel H. peel H. done. }
  done.
Qed.

Lemma unmarshalIDString_Err b e :
  unmarshalIDString b = Err e -> e = errShortPacket.
Proof. unfold unmarshalIDString. intros H. peel H. peel H. done. Qed.

Lemma unmarshalExtensions_Err fuel b acc e :
  unmarshalExtensions fuel b acc = Err e -> e = errShortPacket.
Proof.
  revert b acc. induction fuel as [|fuel IH]; intros b acc; cbn.
  { by destruct (_ >? _). }
  destruct (_ >? _); [|done]. intros H.
  apply bind_Err in H as [H | ([? ?] & _ & H)]; [|by eapply IH].
  unfold unmarshalExtensionPair in H. peel H. peel H. done.
Qed.

Ltac peel_all H :=
  repeat first
    [ apply bind_Err in H as [H | ([? ?] & _ & H)];
      [ first [ by eapply unmarshalUint32Safe_Err
              | by eapply unmarshalUint64Safe_Err
              | by eapply unmarshalStringSafe_Err
              | by eapply unmarshalFileStatSafe_Err
              | by eapply unmarshalIDString_Err ]
      | cbv beta iota in H ]
    | done ].

Lemma known_256 t : known t -> 0 <= t < 256.
Proof.
  unfold known. rewrite !elem_of_cons, elem_of_nil.
  intros H; repeat destruct H as [-> | H]; done.
Qed.

Lemma UnmarshalBinary_Err t body e :
  UnmarshalBinary t body = Err e ->
  e = errShortPacket
  \/ (~ known t
      /\ e = errorString ("unhandled packet type: " +:+ fxp_String t)).
Proof.
  unfold UnmarshalBinary.
  repeat match goal with
         | |- context [t =? ?c] =>
             destruct (Z.eqb_spec t c) as [->|?];
             [ intros H; left;
               try (apply bind_Err in H as [H | ([? ?] & _ & H)];
                    [by eapply unmarshalIDString_Err | done]);
               peel_all H | ]
         end.
  - apply bind_Err in H as [H | (es & _ & H)]; [|done].
    by eapply unmarshalExtensions_Err.
  - destruct (_ <? _); [congruence|].
    apply bind_Err in H as [H | (d & _ & H)]; [by apply slice_Err in H | done].
  - intros [= <-]. right. split; [|done].
    unfold known. rewrite !elem_of_cons, elem_of_nil. intros Hk.
    repeat destruct Hk as [-> | Hk]; done.
Qed.

(** X6: the only errors decoding a packet body gives are "packet too
    short", for a body that ends before the fields of its type do, and
    "unhandled packet type: ..." for a type tag that is not one of the
    nineteen request types; and a tag that is one of them never gives the
    second. *)
Theorem decode_errors (t : Z) (body : list byte) (e : error) :
  UnmarshalBinary t body = Err e ->
  (known t -> e = errShortPacket)
  /\ (~ known t ->
      e = errorString ("unhandled packet type: " +:+ fxp_String t)).
Proof.
  intros H. destruct (UnmarshalBinary_Err t body e H) as [-> | [Hk ->]].
  - split; [done|]. intros Hk. exfalso.
    revert H. unfold UnmarshalBinary.
    repeat match goal with
           | |- context [t =? ?c] =>
               destruct (Z.eqb_spec t c) as [->|?];
               [ exfalso; apply Hk; unfold known;
                 rewrite !elem_of_cons; tauto | ]
           end.
    done.
  - split; [done | done].
Qed.

Lemma decode_errors_witness :
  UnmarshalBinary FXP_OPEN [x00; x00] = Err errShortPacket
  /\ (known FXP_OPEN -> errShortPacket = errShortPacket).
Proof.
  split; [reflexivity|].
  exact (proj1 (decode_errors FXP_OPEN [x00; x00] errShortPacket eq_refl)).
Defined.

Import wire observe.

(* ================================================================== *)
(** ** What [ReadPacket] takes off the stream *)
(* ================================================================== *)

Lemma ReadPacket_consumes r :
  exists used,
    r = used ++ (ReadPacket r).2
    /\ (forall p, (ReadPacket r).1 = Ok p ->
        6 <= len used <= 4 + 1024 * 1024).
Proof.
  unfold ReadPacket.
  destruct (ReadFull_cases r 4) as [(e & -> & _) | [-> Hr]]; [lia | |].
  { exists r. cbn. by rewrite app_nil_r. }
  destruct (unmarshalUint32_Ok (take (Z.to_nat 4) r)) as (l & r' & -> & Hl & _).
  { rewrite len_take; lia. }
  destruct (Z.gtb_spec l (1024 * 1024)).
  { exists (take (Z.to_nat 4) r). cbn [fst snd].
    by rewrite take_drop. }
  destruct (Z.leb_spec l 1).
  { exists (take (Z.to_nat 4) r). cbn [fst snd]. by rewrite take_drop. }
  destruct (ReadFull_cases (drop (Z.to_nat 4) r) l)
    as [(e & -> & _) | [-> Hd]]; [lia | |].
  { exists r. cbn. by rewrite app_nil_r. }
  exists (take (Z.to_nat 4) r ++ take (Z.to_nat l) (drop (Z.to_nat 4) r)).
  cbn [fst snd]. split.
  - by rewrite <- app_assoc, !take_drop.
  - intros p _. rewrite len_app, !len_take by lia. lia.
Qed.

(** X7: what ReadPacket leaves of the stream is a suffix of what it was
    given, and a packet it returns was cut from a frame of at least 6 and
    at most 4 + 1 MiB bytes at the front of the stream: reading packets
    makes progress and needs no more than one frame each. *)
Theorem ReadPacket_takes_one_frame (r : list byte) (p : Packet)
        (r' : list byte) :
  ReadPacket r = (Ok p, r') ->
  exists frame,
    r = frame ++ r' /\ 6 <= len frame <= 4 + 1024 * 1024.
Proof.
  intros H. destruct (ReadPacket_consumes r) as (used & Hu & Hlen).
  rewrite H in Hu, Hlen. exists used. split; [done|]. by eapply Hlen.
Qed.

Lemma ReadPacket_takes_one_frame_witness :
  exists frame,
    demo.wire = frame ++ demo.frame demo.write_0
    /\ 6 <= len frame <= 4 + 1024 * 1024.
Proof.
  apply (ReadPacket_takes_one_frame demo.wire (demo.open_f 1)).
  vm_compute. reflexivity.
Defined.

Import wire observe.

(* ================================================================== *)
(** ** Responses and the requests they answer *)
(* ================================================================== *)

Section Answers.
Context {W : Type} (lib : Library).
Implicit Types (s : @Session W).

Lemma respondError_ID ID err e :
  respondError ID err = e ->
  exists msg code, e = Respond (MakeStatus ID msg code).
Proof. intros <-. apply respondError_status. Qed.

(** Settles a goal about an effect that [respondError] made. *)
Ltac by_status :=
  repeat match goal with
         | H : respondOk ?i = ?e |- _ => unfold respondOk in H; simplify_eq
         | H : respondError ?i ?err = ?e |- _ =>
             apply respondError_ID in H as (? & ? & ?); simplify_eq
         | |- context [respondError ?i ?err] =>
             destruct (respondError_status i err) as (? & ? & ->)
         end;
  try done.

Lemma dispatch_answer req s s1 e :
  dispatch lib req s = (s1, e) ->
  match e with
  | Respond resp => ID_of resp = ID_of req
  | Send _ req' => req' = req
  | Return => forall s', dispatch lib req s' = (s', Return)
  | Nothing | Panicking => False
  end.
Proof.
  destruct req; cbn [dispatch ID_of]; try (by intros [= <- <-]).
  all: unfold handleClose, handleFstat, handleInit, handleLstat, handleMkdir,
      handleOpenDir, handleReadDir, handleReadLink, handleRead,
      handleRealPath, handleRemove, handleRename, handleRmdir, handleSetStat,
      handleStat, handleSymlink, handleWrite, forward, statReply,
      newFileHandle; cbv zeta.
  all: try (lazymatch goal with
            | |- context [handleOpen] => fail
            | _ => idtac
            end;
            intros H; repeat case_match; simplify_eq; by_status).
  (* OPEN *)
  unfold handleOpen, newFileHandle.
  destruct (_ >? _); [intros [= <- <-]; by_status|].
  cbv zeta.
  repeat match goal with
         | |- context [let '(a, b) := ?e in _] =>
             destruct e as [? ?]; cbv iota beta
         end.
  destruct (nonzero _); [intros [= <- <-]; by_status|].
  match goal with
  | r : result (File.t W) |- _ => destruct r as [f|err]
  end; intros [= <- <-]; by_status.
Qed.

Lemma serve_answer (f : File.t W) req w w1 e again :
  serve lib f req w = (w1, e, again) ->
  match e with
  | Respond resp => ID_of resp = ID_of req
  | Nothing => again = true /\ w1 = w
  | Panicking => exists ID h off l, req = FxpReadPacket ID h off l
  | Send _ _ | Return => False
  end.
Proof.
  destruct req; cbn [serve ID_of]; try (by intros [= <- <- <-]).
  all: intros H; repeat case_match; simplify_eq; by_status.
  all: by eexists _, _, _, _.
Qed.

(** X8: a response, whether the dispatcher makes it or the goroutine of a
    handle, carries the id of the request it answers (the VERSION answer
    to INIT has none, as INIT has none); a request the dispatcher forwards
    reaches the handle's goroutine unchanged. *)
Theorem responses_carry_request_id (req : Packet) :
  (forall s s1 resp,
      dispatch lib req s = (s1, Respond resp) -> ID_of resp = ID_of req)
  /\ (forall s s1 h req',
      dispatch lib req s = (s1, Send h req') -> req' = req)
  /\ (forall (f : File.t W) w w1 resp again,
      serve lib f req w = (w1, Respond resp, again) ->
      ID_of resp = ID_of req).
Proof.
  split; [|split].
  - intros s s1 resp H. exact (dispatch_answer req s s1 _ H).
  - intros s s1 h req' H. exact (dispatch_answer req s s1 _ H).
  - intros f w w1 resp again H. exact (serve_answer f req w w1 _ again H).
Qed.

End Answers.

Lemma responses_carry_request_id_witness :
  ID_of (FxpHandlePacket 1 "0") = ID_of (demo.open_f 1).
Proof.
  refine (proj1 (responses_carry_request_id memfs.lib (demo.open_f 1))
                (demo.fresh 4)
                (dispatch memfs.lib (demo.open_f 1) (demo.fresh 4)).1 _ _).
  assert (E : (dispatch memfs.lib (demo.open_f 1) (demo.fresh 4)).2
              = Respond (FxpHandlePacket 1 "0")) by (vm_compute; reflexivity).
  rewrite <- E. apply surjective_pairing.
Defined.

Import wire observe.

(* ================================================================== *)
(** ** Handles that are not in the table *)
(* ================================================================== *)

Section Handles.
Context {W : Type} (lib : Library).
Implicit Types (s : @Session W).



End Handles.


Import wire observe.

(* ================================================================== *)
(** ** The flags of an OPEN *)
(* ================================================================== *)

Lemma uint32_land_ones P : is_uint32 P -> Z.land P 4294967295 = P.
Proof.
  intros HP. change 4294967295 with (Z.ones 32).
  rewrite Z.land_ones by lia. apply Z.mod_small. exact HP.
Qed.

Lemma nonzero_false x : nonzero x = false -> x = 0.
Proof. unfold nonzero. by destruct (Z.eqb_spec x 0). Qed.

(** Clearing the bits [m] of a word that has none of them changes
    nothing. *)
Lemma clear_absent P m :
  Z.land P 4294967295 = P -> Z.lor m (not32 m) = 4294967295 ->
  Z.land P m = 0 -> Z.land P (not32 m) = P.
Proof.
  intros HP Hm H0. rewrite <- HP at 2. rewrite <- Hm.
  rewrite Z.land_lor_distr_r, H0. done.
Qed.

Lemma clear_if P m :
  Z.land P 4294967295 = P -> Z.lor m (not32 m) = 4294967295 ->
  (if nonzero (Z.land P m) then Z.land P (not32 m) else P)
  = Z.land P (not32 m).
Proof.
  intros HP Hm. destruct (nonzero _) eqn:E; [done|].
  symmetry. by apply clear_absent, nonzero_false.
Qed.

Lemma land_fits P m :
  Z.land P 4294967295 = P -> Z.land (Z.land P m) 4294967295 = Z.land P m.
Proof.
  intros HP. rewrite <- Z.land_assoc, (Z.land_comm m), Z.land_assoc.
  by rewrite HP.
Qed.

Lemma pair_if {A B} (c : bool) (a a' : A) (b b' : B) :
  (if c then (a, b) else (a', b')) = (if c then a else a', if c then b else b').
Proof. by destruct c. Qed.

Lemma lor_if (c : bool) f m : (if c then Z.lor f m else f) = Z.lor f (if c then m else 0).
Proof. destruct c; [done|]. by rewrite Z.lor_0_r. Qed.

Section Open.
Context {W : Type} (lib : Library).
Implicit Types (s : @Session W).

Lemma handleOpen_flags ID Path P Attrs s :
  is_uint32 P ->
  handleOpen ID Path P Attrs s
  = if Z.of_nat (size (files s)) >? MaxFiles (options s)
    then (s, respondError ID ErrTooManyOpenFiles)
    else if nonzero (Z.land P (not32 63))
    then (s, respondError ID ErrUnsupported)
    else
      match VFS.OpenFile (fs s) Path (os_flags P) (perm_of Attrs) (world s) with
      | (Failure err, w) => (set_world w s, respondError ID err)
      | (Success f, w) =>
          let '(handle, s) := newFileHandle f (set_world w s) in
          let s := set_files (<[Id handle := handle]> (files s)) s in
          (s, Respond (FxpHandlePacket ID (Id handle)))
      end.
Proof.
  intros HP%uint32_land_ones. unfold handleOpen.
  destruct (_ >? _); [done|]. cbv zeta.
  (* the access mode *)
  assert (H1 : (if nonzero (Z.land P FXF_READ) && nonzero (Z.land P FXF_WRITE)
                then (O_RDWR, Z.land P (not32 (Z.lor FXF_READ FXF_WRITE)))
                else if nonzero (Z.land P FXF_READ)
                     then (O_RDONLY, Z.land P (not32 FXF_READ))
                     else if nonzero (Z.land P FXF_WRITE)
                          then (O_WRONLY, Z.land P (not32 FXF_WRITE))
                          else (0, P))
               = (if nonzero (Z.land P FXF_READ) && nonzero (Z.land P FXF_WRITE)
                  then O_RDWR
                  else if nonzero (Z.land P FXF_WRITE) then O_WRONLY
                       else O_RDONLY,
                  Z.land P (not32 3))).
  { destruct (nonzero (Z.land P FXF_READ)) eqn:Er,
             (nonzero (Z.land P FXF_WRITE)) eqn:Ew; cbn [andb]; f_equal.
    - apply nonzero_false in Ew.
      rewrite <- (clear_absent P FXF_WRITE HP eq_refl Ew) at 1.
      by rewrite <- Z.land_assoc.
    - apply nonzero_false in Er.
      rewrite <- (clear_absent P FXF_READ HP eq_refl Er) at 1.
      by rewrite <- Z.land_assoc.
    - apply nonzero_false in Er, Ew.
      rewrite <- (clear_absent P FXF_READ HP eq_refl Er) at 1.
      rewrite <- (clear_absent P FXF_WRITE HP eq_refl Ew) at 1.
      by rewrite <- !Z.land_assoc. }
  rewrite H1. clear H1.
  repeat (rewrite pair_if, lor_if, clear_if
            by first [reflexivity | repeat apply land_fits; exact HP]).
  rewrite <- !Z.land_assoc.
  reflexivity.
Qed.

End Open.

Section OpenSpy.
Context {W : Type} (lib : Library).

(** X10: an OPEN within the handle limit whose pflags have a bit outside
    READ, WRITE, APPEND, CREAT, TRUNC and EXCL is answered with
    FX_OP_UNSUPPORTED and does not reach the backend; otherwise the
    backend's OpenFile is called once, with the request's path, with the
    os flags the six bits stand for (O_RDWR, O_WRONLY or O_RDONLY for the
    access bits -- read-only when neither is set -- and O_TRUNC, O_CREATE,
    O_APPEND, O_EXCL), and with the mode 0755 unless the attributes select
    the permissions, then with their low nine bits. *)
Theorem open_pflags (Fs : VFS.t W) (ID : Z) (Path : string) (Pflags : Z)
        (Attrs : FileStat) (s : @Session (W * list Spy.Call)) :
  fs s = Spy.VFS Fs ->
  0 <= Pflags < 2 ^ 32 ->
  Z.of_nat (size (files s)) <= MaxFiles (options s) ->
  let r := dispatch lib (FxpOpenPacket ID Path Pflags Attrs) s in
  if nonzero (Z.land Pflags (not32 63))
  then r = (s, Respond (MakeStatus ID "unsupported operation"
                                   FX_OP_UNSUPPORTED))
  else Spy.calls (world r.1)
       = Spy.calls (world s)
           ++ [Spy.OpenFile Path (os_flags Pflags) (perm_of Attrs)].
Proof.
  intros Hfs HP Hadm r. subst r. cbn [dispatch].
  rewrite handleOpen_flags by exact HP.
  destruct (Z.gtb_spec (Z.of_nat (size (files s))) (MaxFiles (options s)));
    [lia|].
  destruct (nonzero _); [done|].
  rewrite Hfs. cbn [Spy.VFS VFS.OpenFile Spy.opened fst snd].
  by destruct (VFS.OpenFile Fs Path _ _ _) as [[f|err] w].
Qed.

End OpenSpy.

Lemma open_pflags_witness :
  Spy.calls (world (dispatch memfs.lib
                      (FxpOpenPacket 1 "/f" 26 EmptyFileStat)
                      (demo.fresh 4)).1)
  = [Spy.OpenFile "/f" 577 493].
Proof.
  refine (open_pflags memfs.lib memfs.Fs 1 "/f" 26 EmptyFileStat
                      (demo.fresh 4) eq_refl _ _).
  - lia.
  - vm_compute. discriminate.
Defined.

Import wire observe.

(* ================================================================== *)
(** ** SETSTAT *)
(* ================================================================== *)

Section SetStat.
Context {W : Type} (lib : Library).

(** X11: SETSTAT calls the backend at most once: a chmod with the
    request's path and its mode as sent (not cut to the permission bits),
    exactly when the attributes select the permissions.  It answers
    FX_OK only when neither the size nor the times are selected; when one
    of them is, a chmod that succeeded has been carried out all the same
    and the answer is FX_OP_UNSUPPORTED. *)
Theorem setstat_chmod_then_unsupported (Fs : VFS.t W) (ID : Z)
        (Path : string) (Attrs : FileStat)
        (s : @Session (W * list Spy.Call)) :
  fs s = Spy.VFS Fs ->
  let r := dispatch lib (FxpSetStatPacket ID Path Attrs) s in
  let perms := nonzero (Z.land (Flags Attrs) FILEXFER_ATTR_PERMISSIONS) in
  let other := nonzero (Z.land (Flags Attrs) FILEXFER_ATTR_SIZE)
               || nonzero (Z.land (Flags Attrs) FILEXFER_ATTR_ACMODTIME) in
  Spy.calls (world r.1)
  = Spy.calls (world s)
      ++ (if perms then [Spy.Chmod Path (Mode Attrs)] else [])
  /\ (r.2 = Respond (MakeStatus ID "" FX_OK) -> other = false)
  /\ (other = true ->
      (perms = true ->
       (VFS.Chmod Fs Path (Mode Attrs) (world s).1).1 = None) ->
      r.2 = Respond (MakeStatus ID "unsupported operation"
                                FX_OP_UNSUPPORTED)).
Proof.
  intros Hfs r perms other. subst r perms other.
  cbn [dispatch]. unfold handleSetStat. rewrite Hfs.
  cbn [Spy.VFS VFS.Chmod Spy.logged].
  destruct (nonzero (Z.land (Flags Attrs) FILEXFER_ATTR_PERMISSIONS)).
  - destruct (VFS.Chmod Fs Path (Mode Attrs) (world s).1) as [[err|] w];
      cbn [fst snd].
    + split; [done|]. split.
      * destruct (respondError_status ID err) as (msg & code & E).
        revert E. unfold respondError.
        repeat case_match; intros; simplify_eq.
      * intros _ H. by specialize (H eq_refl).
    + destruct (nonzero (Z.land (Flags Attrs) FILEXFER_ATTR_SIZE)),
        (nonzero (Z.land (Flags Attrs) FILEXFER_ATTR_ACMODTIME));
        cbn [fst snd world set_world Spy.calls orb]; repeat split; try done.
  - rewrite app_nil_r.
    destruct (nonzero (Z.land (Flags Attrs) FILEXFER_ATTR_SIZE)),
      (nonzero (Z.land (Flags Attrs) FILEXFER_ATTR_ACMODTIME));
      cbn [fst snd orb]; repeat split; try done.
Qed.

End SetStat.

Lemma setstat_chmod_then_unsupported_witness :
  Spy.calls (world (dispatch memfs.lib
                      (FxpSetStatPacket 3 "/f" (mkFileStat 12 0 4095 0 0 0 0 []))
                      (demo.fresh 4)).1)
  = [Spy.Chmod "/f" 4095]
  /\ (dispatch memfs.lib
        (FxpSetStatPacket 3 "/f" (mkFileStat 12 0 4095 0 0 0 0 []))
        (demo.fresh 4)).2
     = Respond (MakeStatus 3 "unsupported operation" FX_OP_UNSUPPORTED).
Proof.
  pose proof (setstat_chmod_then_unsupported memfs.lib memfs.Fs 3 "/f"
                (mkFileStat 12 0 4095 0 0 0 0 []) (demo.fresh 4) eq_refl)
    as (Hc & _ & Hu).
  split; [exact Hc|]. apply Hu; [reflexivity|]. intros _. reflexivity.
Defined.

Import wire observe.

(* ================================================================== *)
(** ** The attributes of a stat reply *)
(* ================================================================== *)

Lemma land_511 x : 0 <= Z.land x 511 < 512.
Proof.
  change 511 with (Z.ones 9). rewrite Z.land_ones by lia.
  apply Z.mod_pos_bound. lia.
Qed.

(** X12: the attributes the server reports for a file select size,
    permissions and times; the mode carries the file's nine permission
    bits and, as its type, S_IFDIR for a directory and S_IFREG for
    anything else; atime is the modification time; every field fits its
    wire type and the encoding takes 24 bytes. *)
Theorem stat_reply_attrs (st : FileInfo) :
  let r := fileStatToSFTPStat st in
  Flags r = 13
  /\ Z.land (Mode r) 511 = Z.land (fi_Mode st) 511
  /\ Z.land (Mode r) 61440 = (if fi_IsDir st then S_IFDIR else S_IFREG)
  /\ Atime r = Mtime r
  /\ stat_in_range r
  /\ length (marshalFileStat [] r) = 24%nat.
Proof.
  intros r. subst r. unfold fileStatToSFTPStat. cbv zeta.
  pose proof (land_511 (fi_Mode st)) as Hp.
  assert (Hu : uint32 (Z.land (fi_Mode st) 511) = Z.land (fi_Mode st) 511)
    by (apply uint32_small; lia).
  rewrite Hu. cbn [Flags Mode Atime Mtime].
  assert (Hbits : forall T, 
            Z.land (Z.lor (Z.land (fi_Mode st) 511) T) 511
            = Z.lor (Z.land (fi_Mode st) 511) (Z.land T 511)
            /\ Z.land (Z.lor (Z.land (fi_Mode st) 511) T) 61440
               = Z.land T 61440).
  { intros T. rewrite !Z.land_lor_distr_l, <- !Z.land_assoc.
    change (Z.land 511 511) with 511. change (Z.land 511 61440) with 0.
    by rewrite Z.land_0_r, Z.lor_0_l. }
  assert (Hrange : forall T, 0 <= T < 2 ^ 16 ->
            is_uint32 (Z.lor (Z.land (fi_Mode st) 511) T)).
  { intros T HT. unfold is_uint32. split; [apply Z.lor_nonneg; lia|].
    destruct (Z.eq_dec (Z.lor (Z.land (fi_Mode st) 511) T) 0) as [->|Hnz];
      [done|].
    apply Z.log2_lt_pow2; [|rewrite Z.log2_lor by lia].
    - assert (0 <= Z.lor (Z.land (fi_Mode st) 511) T)
        by (apply Z.lor_nonneg; lia). lia.
    - assert (Z.log2 (Z.land (fi_Mode st) 511) < 9).
      { destruct (Z.eq_dec (Z.land (fi_Mode st) 511) 0) as [->|?]; [done|].
        apply Z.log2_lt_pow2; lia. }
      assert (Z.log2 T < 16).
      { destruct (Z.eq_dec T 0) as [->|?]; [done|].
        apply Z.log2_lt_pow2; lia. }
      lia. }
  split; [done|].
  split.
  { destruct (fi_IsDir st); rewrite (proj1 (Hbits _));
      by rewrite Z.lor_0_r. }
  split.
  { destruct (fi_IsDir st); by rewrite (proj2 (Hbits _)). }
  split; [done|].
  split; [|done].
  unfold stat_in_range. cbn [Flags Size Mode Mtime Atime UID GID].
  assert (Hu32 : forall z, is_uint32 (uint32 z))
    by (intros z; apply Z.mod_pos_bound; lia).
  assert (Hu64 : is_uint64 (uint64 (fi_Size st)))
    by (apply Z.mod_pos_bound; lia).
  repeat split; try done; try apply Hu32; try apply Hu64;
    destruct (fi_IsDir st); apply Hrange; done.
Qed.

Import wire observe.

(* ================================================================== *)
(** ** The goroutine of a handle and its file *)
(* ================================================================== *)

(** From "the request is a CLOSE or the goroutine panicked" to the loop
    having ended, where the reply on the table is neither. *)
Ltac back Hne :=
  let H := fresh in
  intros [(? & ? & ?) | H]; first [done | by destruct (Hne _ _ H)].

Section Worker.
Context {W : Type} (lib : Library).

Lemma serve_log_loop (F : File.t W) (fid : nat) (req : Packet)
        (w : W * list Spy.Call) :
  let r := serve lib (Spy.File fid F) req w in
  Spy.calls r.1.1 = Spy.calls w ++ (Spy.OnFile fid <$> file_calls req)
  /\ (r.2 = false
      <-> (exists ID h, req = FxpClosePacket ID h) \/ r.1.2 = Panicking).
Proof.
  intros r. subst r.
  assert (Hne : forall ID err, respondError ID err <> Panicking).
  { intros ID err. by destruct (respondError_status ID err) as (? & ? & ->). }
  assert (Hlen : forall n, len (replicate (Z.to_nat n) x00) = Z.max 0 n).
  { intros n. unfold len. rewrite length_replicate. lia. }
  destruct req; cbn [serve file_calls fmap list_fmap];
    try (split; [by rewrite app_nil_r | split; [done | back Hne]]).
  - (* READDIR *)
    cbn [Spy.File File.Readdir Spy.logged].
    destruct (File.Readdir F 64 w.1) as [[stats [err|]] w'];
      cbn [fst snd Spy.calls]; (split; [done|]); (split; [done | back Hne]).
  - (* FSTAT *)
    cbn [Spy.File File.Stat Spy.logged].
    destruct (File.Stat F w.1) as [[st|err] w'];
      cbn [fst snd Spy.calls]; (split; [done|]); (split; [done | back Hne]).
  - (* CLOSE *)
    cbn [Spy.File File.Close Spy.logged].
    destruct (File.Close F w.1) as [[err|] w'];
      cbn [fst snd Spy.calls]; (split; [done|]);
      (split; [intros _; left; by eexists _, _ | done]).
  - (* READ *)
    destruct (Len >? 1024 * 1024).
    { split; [by rewrite app_nil_r|]. split; [done | back Hne]. }
    cbn [Spy.File File.ReadAt Spy.logged].
    rewrite Hlen.
    destruct (File.ReadAt F _ _ w.1) as [[[n buf] [err|]] w'];
      cbn [fst snd Spy.calls].
    + destruct (n =? 0); [|destruct (slice_to buf n)];
        cbn [fst snd Spy.calls]; (split; [done|]);
        (split; [done || by right | back Hne]).
    + destruct (slice_to buf n);
        cbn [fst snd Spy.calls]; (split; [done|]);
        (split; [done || by right | back Hne]).
  - (* WRITE *)
    cbn [Spy.File File.WriteAt Spy.logged].
    destruct (File.WriteAt F Data (int64 Offset) w.1) as [[n [err|]] w'];
      cbn [fst snd Spy.calls]; (split; [done|]); (split; [done | back Hne]).
Qed.

(** X13: serving a request, the goroutine of a handle calls nothing but
    its own file, and at most once: Stat for FSTAT, WriteAt with the data
    and the offset for WRITE, ReadAt with a buffer of the asked length for
    a READ of at most 1 MiB (nothing for a longer one), Readdir(64) for
    READDIR, Close for CLOSE, nothing for any other packet.  Its loop ends
    after a CLOSE, whatever Close returned, and otherwise only by a
    panic. *)
Theorem worker_calls_own_file (F : File.t W) (fid : nat) (req : Packet)
        (w : W * list Spy.Call) :
  let r := serve lib (Spy.File fid F) req w in
  Spy.calls r.1.1 = Spy.calls w ++ (Spy.OnFile fid <$> file_calls req)
  /\ (r.2 = false
      <-> (exists ID h, req = FxpClosePacket ID h) \/ r.1.2 = Panicking).
Proof. apply serve_log_loop. Qed.

End Worker.

Import wire observe.

(* ================================================================== *)
(** ** Runs: the size of the handle table *)
(* ================================================================== *)

Section TableBound.
Context {W : Type} (lib : Library).
Implicit Types (s : @Session W) (g : @System W).

Lemma set_wst_options c st s : options (set_wst c st s) = options s.
Proof. unfold set_wst. by destruct (goroutines s !! c). Qed.

Lemma set_wst_outbox c st s : outbox (set_wst c st s) = outbox s.
Proof. unfold set_wst. by destruct (goroutines s !! c). Qed.

Lemma set_wst_fs c st s : fs (set_wst c st s) = fs s.
Proof. unfold set_wst. by destruct (goroutines s !! c). Qed.

(** What [dispatch] leaves alone whatever the request. *)
Lemma dispatch_frame req s :
  options (dispatch lib req s).1 = options s
  /\ outbox (dispatch lib req s).1 = outbox s
  /\ fs (dispatch lib req s).1 = fs s.
Proof.
  destruct (dispatch_cases lib req s)
    as [(ID & f & w & ->) | [(ID & k & hd & _ & _ & ->)
       | [(k & hd & _ & _ & ->) | (w & e & _ & ->)]]]; done.
Qed.

Lemma dispatch_size req s :
  Z.of_nat (size (files (dispatch lib req s).1))
  <= Z.max (Z.of_nat (size (files s))) (MaxFiles (options s) + 1).
Proof.
  assert (Hins : forall k h,
            Z.of_nat (size (files s)) <= MaxFiles (options s) ->
            Z.of_nat (size (<[k := h]> (files s)))
            <= Z.max (Z.of_nat (size (files s))) (MaxFiles (options s) + 1)).
  { intros k h Hadm.
    destruct (files s !! k) as [h'|] eqn:E.
    - rewrite map_size_insert_Some by done. lia.
    - rewrite map_size_insert_None by done. lia. }
  destruct req; cbn [dispatch]; try (cbn; lia).
  all: unfold handleClose, handleFstat, handleInit, handleLstat, handleMkdir,
      handleReadDir, handleReadLink, handleRead, handleRealPath,
      handleRemove, handleRename, handleRmdir, handleSetStat, handleStat,
      handleSymlink, handleWrite, forward, statReply; cbv zeta.
  all: try (repeat case_match; cbn [fst files set_files set_world]; lia).
  - (* OPENDIR *)
    unfold handleOpenDir, newFileHandle.
    destruct (Z.gtb_spec (Z.of_nat (size (files s))) (MaxFiles (options s)));
      [cbn; lia|].
    destruct (VFS.Open (fs s) Path (world s)) as [[f|err] w];
      [|cbn; lia].
    cbn [fst files set_files set_world set_goroutines set_fcounter Id].
    by apply Hins.
  - (* CLOSE *)
    destruct (files s !! Handle) as [h|] eqn:E; [|cbn; lia].
    cbn [fst files set_files]. rewrite map_size_delete_Some by done. lia.
  - (* OPEN *)
    unfold handleOpen, newFileHandle.
    destruct (Z.gtb_spec (Z.of_nat (size (files s))) (MaxFiles (options s)));
      [cbn; lia|].
    cbv zeta.
    repeat match goal with
           | |- context [let '(a, b) := ?e in _] =>
               destruct e as [? ?]; cbv iota beta
           end.
    destruct (nonzero _); [cbn; lia|].
    match goal with
    | r : result (File.t W) |- _ => destruct r as [f|err]
    end; [|cbn; lia].
    cbn [fst files set_files set_world set_goroutines set_fcounter Id].
    by apply Hins.
Qed.

Lemma dispatcherTake_session req rest g :
  session (dispatcherTake lib req rest g).1
  = (let s := (dispatch lib req (set_inbox rest (session g))).1 in
     match (dispatch lib req (set_inbox rest (session g))).2 with
     | Return => set_closed true s
     | _ => s
     end).
Proof.
  unfold dispatcherTake.
  by destruct (dispatch lib req (set_inbox rest (session g))) as [s' []].
Qed.

Lemma dispatcherTake_frame req rest g :
  options (session (dispatcherTake lib req rest g).1) = options (session g)
  /\ outbox (session (dispatcherTake lib req rest g).1) = outbox (session g)
  /\ fs (session (dispatcherTake lib req rest g).1) = fs (session g)
  /\ rw_out (dispatcherTake lib req rest g).1 = rw_out g
  /\ writer (dispatcherTake lib req rest g).1 = writer g.
Proof.
  pose proof (dispatch_frame req (set_inbox rest (session g))) as (Ho & Hb & Hf).
  unfold dispatcherTake.
  destruct (dispatch lib req (set_inbox rest (session g))) as [s' []];
    cbn in *; done.
Qed.

Lemma workerServe_frame c wk req g :
  options (session (workerServe lib c wk req g)) = options (session g)
  /\ outbox (session (workerServe lib c wk req g)) = outbox (session g)
  /\ fs (session (workerServe lib c wk req g)) = fs (session g)
  /\ rw_out (workerServe lib c wk req g) = rw_out g
  /\ writer (workerServe lib c wk req g) = writer g.
Proof.
  unfold workerServe.
  destruct (serve lib (wfile wk) req (world (session g))) as [[w eff] again].
  destruct eff; cbn; by rewrite ?set_wst_options, ?set_wst_outbox, ?set_wst_fs.
Qed.

Lemma readerRead_frame g :
  options (session (readerRead g)) = options (session g)
  /\ outbox (session (readerRead g)) = outbox (session g)
  /\ fs (session (readerRead g)) = fs (session g)
  /\ rw_out (readerRead g) = rw_out g
  /\ writer (readerRead g) = writer g.
Proof.
  unfold readerRead. by destruct (ReadPacket (rw_in g)) as [[?|?|] ?].
Qed.

Lemma step_options g l g' :
  step lib g l g' ->
  options (session g') = options (session g)
  /\ fs (session g') = fs (session g).
Proof.
  intros Hstep. destruct Hstep; cbn;
    rewrite ?set_wst_options, ?set_wst_fs; try done.
  all: first [ by destruct (readerRead_frame g) as (-> & _ & -> & _)
             | by destruct (dispatcherTake_frame req rest g) as (-> & _ & -> & _)
             | by destruct (workerServe_frame c wk req g) as (-> & _ & -> & _) ].
Qed.

Lemma exec_options g tr g' :
  exec lib g tr g' ->
  options (session g') = options (session g)
  /\ fs (session g') = fs (session g).
Proof.
  induction 1 as [g|g tr g1 l g2 _ [IHo IHf] _ Hstep]; [done|].
  destruct (step_options _ _ _ Hstep) as [-> ->]. done.
Qed.

(** X14: in every run of Serve with a limit of M >= 0 open files, the
    handle table never holds more than M + 1 entries. *)
Theorem table_never_exceeds_limit_plus_one (opt : Options) (fs0 : VFS.t W)
        (w : W) (rw : list byte) (tr : list Label) g :
  0 <= MaxFiles opt ->
  exec lib (Serve opt fs0 w rw) tr g ->
  Z.of_nat (size (files (session g))) <= MaxFiles opt + 1.
Proof.
  intros HM Hexec.
  remember (Serve opt fs0 w rw) as g0 eqn:Hg0.
  induction Hexec as [g|g tr g1 l g2 Hexec IH _ Hstep]; subst.
  { cbn. rewrite map_size_empty. lia. }
  specialize (IH eq_refl).
  destruct (exec_options _ _ _ Hexec) as [Hopt _]. cbn in Hopt.
  assert (Hl : (exists req e, l = LDispatch req e)
               \/ (forall req e, l <> LDispatch req e))
    by (destruct l; first [left; by eexists _, _ | by right]).
  destruct Hl as [(req & e & ->) | Hl].
  - inversion Hstep; subst.
    rewrite dispatcherTake_files.
    pose proof (dispatch_size req (set_inbox rest (session g1))) as Hs.
    cbn [options set_inbox files] in Hs. lia.
  - destruct (step_table lib _ _ _ Hstep Hl) as [-> _]. done.
Qed.

End TableBound.

Lemma table_never_exceeds_limit_plus_one_witness :
  Z.of_nat (size (files (session demo.g3))) <= 64 + 1.
Proof.
  refine (table_never_exceeds_limit_plus_one memfs.lib (mkOptions false 64)
            _ _ _ demo.run_open demo.g3 _ demo_run_open).
  vm_compute. discriminate.
Defined.

(* ================================================================== *)
(** ** Runs: what goes out on the wire *)
(* ================================================================== *)





Section Output.
Context {W : Type} (lib : Library).
Implicit Types (s : @Session W) (g : @System W).



End Output.


Import wire observe.

(* ================================================================== *)
(** ** Runs over the read-only wrapper *)
(* ================================================================== *)


Section ReadOnlyRuns.
Context {W : Type} (lib : Library) (Fs : VFS.t W).
Implicit Types (s : @Session (W * list Spy.Call))
         (g : @System (W * list Spy.Call)).








End ReadOnlyRuns.


Import wire observe.

(* ================================================================== *)
(** ** Runs: a handle after its CLOSE *)
(* ================================================================== *)


Section AfterClose.
Context {W : Type} (lib : Library).
Implicit Types (s : @Session W) (g : @System W).




Lemma step_wh_mono g l g' c h :
  step lib g l g' ->
  wh <$> goroutines (session g) !! c = Some h ->
  wh <$> goroutines (session g') !! c = Some h.
Proof.
  intros Hstep Hc.
  assert (Hl : (exists req e, l = LDispatch req e)
               \/ (forall req e, l <> LDispatch req e))
    by (destruct l; first [left; by eexists _, _ | by right]).
  destruct Hl as [(req & e & ->) | Hl].
  - inversion Hstep; subst.
    destruct (dispatcherTake_view lib req rest g) as (Hg & _).
    cbv zeta in Hg. rewrite Hg. clear Hg.
    destruct (dispatch_cases lib req (set_inbox rest (session g)))
      as [(ID & f & w & E) | [(ID & k & hd & _ & _ & E)
         | [(k & hd & _ & _ & E) | (w & e' & _ & E)]]];
      cbv zeta in E; rewrite E; cbn; try done.
    destruct (goroutines (session g) !! c) as [wk|] eqn:Ec; [|done].
    by rewrite lookup_app_l, Ec by (by eapply lookup_lt_Some).
  - destruct (step_view lib _ _ _ Hstep Hl) as (_ & Hwh & _).
    by rewrite Hwh.
Qed.



End AfterClose.


Import wire observe.

(* ================================================================== *)
(** ** Runs: requests are handled first come, first served *)
(* ================================================================== *)

Ltac close IH :=
  split;
  [ rewrite IH, ?app_nil_r, <- ?app_assoc; cbn; rewrite ?app_nil_r; done
  | split; [done | cbn; lia] ].

Section Fifo.
Context {W : Type} (lib : Library).
Implicit Types (s : @Session W) (g : @System W).

(** What was read off the wire is what the dispatcher has handled, then
    the inbox, then the request being posted, then -- once the reader has
    left -- the request it may have dropped on its way out. *)
Lemma step_fifo g l g' tr lost :
  step lib g l g' ->
  arrivals tr
  = dispatched tr ++ inbox (session g) ++ posting (reader g) ++ lost ->
  (reader g <> RExited -> lost = []) ->
  (length lost <= 1)%nat ->
  exists lost',
    arrivals (tr ++ [l])
    = dispatched (tr ++ [l]) ++ inbox (session g') ++ posting (reader g')
        ++ lost'
    /\ (reader g' <> RExited -> lost' = [])
    /\ (length lost' <= 1)%nat.
Proof.
  intros Hstep IH Hlost Hlen. rewrite dispatched_app, arrivals_app.
  destruct Hstep as [g req r Hr Hread|g e r Hr Hread|g r Hr Hread
                    |g req Hr Hfull|g req Hr Hcl| | | |
                    |g req rest Hsel Hin| | | | | |];
    cbn; rewrite ?set_wst_inbox; cbn; rewrite ?app_nil_r;
    try (exists lost; split; [exact IH | split; assumption]).
  - assert (lost = []) as -> by (apply Hlost; congruence).
    unfold readerRead. rewrite Hread. cbn. rewrite Hr in IH. cbn in IH.
    exists []. close IH.
  - assert (lost = []) as -> by (apply Hlost; congruence).
    unfold readerRead. rewrite Hread. cbn. rewrite Hr in IH. cbn in IH.
    exists []. close IH.
  - assert (lost = []) as -> by (apply Hlost; congruence).
    unfold readerRead. rewrite Hread. cbn. rewrite Hr.
    rewrite Hr in IH. exists []. close IH.
  - assert (lost = []) as -> by (apply Hlost; congruence).
    rewrite Hr in IH. cbn in IH. exists []. close IH.
  - assert (lost = []) as -> by (apply Hlost; congruence).
    rewrite Hr in IH. cbn in IH. exists [req]. close IH.
  - (* the dispatcher takes the head of the inbox *)
    destruct (dispatcherTake_view lib req rest g) as (_ & -> & -> & _).
    cbv zeta. rewrite dispatch_inbox. cbn.
    rewrite Hin in IH. exists lost. rewrite IH, <- !app_assoc.
    split; [done | split; [|assumption]].
    assumption.
  - destruct (workerServe_view lib c wk req g) as (-> & -> & _).
    exists lost. split; [exact IH | split; assumption].
Qed.

Lemma exec_fifo opt fs0 w rw tr g :
  exec lib (Serve opt fs0 w rw) tr g ->
  exists lost,
    arrivals tr
    = dispatched tr ++ inbox (session g) ++ posting (reader g) ++ lost
    /\ (reader g <> RExited -> lost = [])
    /\ (length lost <= 1)%nat.
Proof.
  intros Hexec.
  remember (Serve opt fs0 w rw) as g0 eqn:Hg0.
  induction Hexec as [g|g tr g1 l g2 Hexec IH _ Hstep]; subst.
  { exists []. repeat split; cbn; done || lia. }
  destruct (IH eq_refl) as (lost & IHa & IHb & IHc).
  by apply (step_fifo _ _ _ _ lost Hstep).
Qed.

(** X18: in every run of Serve the dispatcher handles the requests in the
    order they were read off the wire, none skipped: what it has handled
    is a prefix of what was read, what it has not handled yet is in the
    inbox or being posted, and at most one request is never handled, the
    one the reader was posting when the session shut down.  Likewise the
    goroutine of a handle runs the requests forwarded to it in order, none
    skipped. *)
Theorem requests_handled_first_come_first_served (opt : Options)
        (fs0 : VFS.t W) (w : W) (rw : list byte) (tr : list Label) g :
  exec lib (Serve opt fs0 w rw) tr g ->
  dispatched tr `prefix_of` arrivals tr
  /\ (length (arrivals tr)
      <= length (dispatched tr) + length (inbox (session g)) + 2)%nat
  /\ (forall h, served h tr `prefix_of` forwarded h tr)
  /\ (forall h, length (forwarded h tr) <= length (served h tr) + 2)%nat.
Proof.
  intros Hexec.
  destruct (exec_fifo _ _ _ _ _ _ Hexec) as (lost & Ha & _ & Hlen).
  destruct (exec_queues lib _ _ _ _ _ _ Hexec) as (_ & Hf & Hs & _).
  split; [rewrite Ha; by eexists|].
  split.
  { rewrite Ha, !length_app.
    assert (length (posting (reader g)) <= 1)%nat
      by (destruct (reader g); cbn; lia).
    lia. }
  split.
  - intros h. rewrite Hf, Hs, <- app_assoc. by eexists.
  - intros h. rewrite Hf, Hs, !length_app.
    assert (length (holding h (goroutines (session g))) <= 1)%nat.
    { unfold holding. repeat case_match; cbn; lia. }
    assert (length (sending h (dispatcher g)) <= 1)%nat.
    { unfold sending. repeat case_match; cbn; lia. }
    lia.
Qed.

End Fifo.

Lemma requests_handled_first_come_first_served_witness :
  dispatched demo.run_write `prefix_of` arrivals demo.run_write.
Proof.
  exact (proj1 (requests_handled_first_come_first_served memfs.lib _ _ _ _ _ _
                  demo_run_write)).
Defined.

Import Stdlib.Strings.Ascii.
Import wire observe listing.

(* ================================================================== *)
(** ** The type word of a listing line *)
(* ================================================================== *)

Lemma land_bit m k :
  0 <= k -> Z.land m (2 ^ k) = if Z.testbit m k then 2 ^ k else 0.
Proof.
  intros Hk. apply Z.bits_inj'. intros n Hn.
  rewrite Z.land_spec, Z.pow2_bits_eqb by done.
  destruct (Z.eqb_spec k n) as [->|Hne].
  - destruct (Z.testbit m n); [by rewrite Z.pow2_bits_true|].
    by rewrite Z.bits_0.
  - rewrite andb_false_r.
    destruct (Z.testbit m k); [by rewrite Z.pow2_bits_false|].
    by rewrite Z.bits_0.
Qed.

Lemma nonzero_bit m k : 0 <= k -> nonzero (Z.land m (2 ^ k)) = Z.testbit m k.
Proof.
  intros Hk. rewrite land_bit by done. unfold nonzero.
  destruct (Z.testbit m k); [|done].
  destruct (Z.eqb_spec (2 ^ k) 0) as [E|]; [|done].
  pose proof (Z.pow_pos_nonneg 2 k). lia.
Qed.

Lemma runLsTypeWord_bits m :
  runLsTypeWord m
  = String (if Z.testbit m 31 then "d" else "-")%char
   (String (if Z.testbit m 8 then "r" else "-")%char
   (String (if Z.testbit m 7 then "w" else "-")%char
   (String (if Z.testbit m 6 then "x" else "-")%char
   (String (if Z.testbit m 5 then "r" else "-")%char
   (String (if Z.testbit m 4 then "w" else "-")%char
   (String (if Z.testbit m 3 then "x" else "-")%char
   (String (if Z.testbit m 2 then "r" else "-")%char
   (String (if Z.testbit m 1 then "w" else "-")%char
   (String (if Z.testbit m 0 then "x" else "-")%char EmptyString))))))))).
Proof.
  unfold runLsTypeWord. cbv zeta.
  change (Z.land m ModeDir) with (Z.land m (2 ^ 31)).
  change (Z.land m 256) with (Z.land m (2 ^ 8)).
  change (Z.land m 128) with (Z.land m (2 ^ 7)).
  change (Z.land m 64) with (Z.land m (2 ^ 6)).
  change (Z.land m 32) with (Z.land m (2 ^ 5)).
  change (Z.land m 16) with (Z.land m (2 ^ 4)).
  change (Z.land m 8) with (Z.land m (2 ^ 3)).
  change (Z.land m 4) with (Z.land m (2 ^ 2)).
  change (Z.land m 2) with (Z.land m (2 ^ 1)).
  change (Z.land m 1) with (Z.land m (2 ^ 0)).
  by rewrite !nonzero_bit by done.
Qed.

Lemma pick_inj (b1 b2 : bool) (c : ascii) :
  c <> "-"%char ->
  (if b1 then c else "-"%char) = (if b2 then c else "-"%char) -> b1 = b2.
Proof. by destruct b1, b2. Qed.

(** X19: the type word of a listing line has ten characters, and it
    shows the directory bit and the nine permission bits of the mode and
    nothing else: two modes get the same word exactly when they agree on
    these ten bits. *)
Theorem type_word_shows_dir_and_permission_bits (m1 m2 : Z) :
  String.length (runLsTypeWord m1) = 10%nat
  /\ (runLsTypeWord m1 = runLsTypeWord m2
      <-> Z.land m1 (ModeDir + 511) = Z.land m2 (ModeDir + 511)).
Proof.
  rewrite !runLsTypeWord_bits. split; [done|].
  assert (Hmask : forall m n, 0 <= n ->
            Z.testbit (Z.land m (ModeDir + 511)) n
            = if decide (n < 9 \/ n = 31) then Z.testbit m n else false).
  { intros m n Hn. rewrite Z.land_spec.
    change (ModeDir + 511) with (Z.lor (2 ^ 31) (Z.ones 9)).
    rewrite Z.lor_spec, Z.pow2_bits_eqb, Z.testbit_ones by lia.
    destruct (decide (n < 9 \/ n = 31)) as [[H | ->] | H].
    - destruct (Z.leb_spec 0 n), (Z.ltb_spec n 9);
        first [lia | by rewrite orb_true_r, andb_true_r].
    - by rewrite andb_true_r.
    - destruct (Z.eqb_spec 31 n), (Z.ltb_spec n 9);
        first [lia | by rewrite !andb_false_r]. }
  split.
  - intros H. simplify_eq.
    repeat match goal with
           | H : (if _ then ?c else _) = _ |- _ => apply pick_inj in H; [|done]
           end.
    apply Z.bits_inj'. intros n Hn. rewrite !Hmask by done.
    destruct (decide (n < 9 \/ n = 31)) as [[Hlt | ->] | _]; [|done..].
    assert (n = 0 \/ n = 1 \/ n = 2 \/ n = 3 \/ n = 4 \/ n = 5 \/ n = 6
            \/ n = 7 \/ n = 8) as Hcases by lia.
    repeat destruct Hcases as [-> | Hcases]; try done. by subst.
  - intros H.
    assert (Hbit : forall n, 0 <= n -> n < 9 \/ n = 31 ->
              Z.testbit m1 n = Z.testbit m2 n).
    { intros n Hn Hin. pose proof (f_equal (fun z => Z.testbit z n) H) as E.
      cbv beta in E. rewrite !Hmask in E by done.
      by destruct (decide (n < 9 \/ n = 31)). }
    by rewrite !(Hbit 31), !(Hbit 8), !(Hbit 7), !(Hbit 6), !(Hbit 5),
      !(Hbit 4), !(Hbit 3), !(Hbit 2), !(Hbit 1), !(Hbit 0) by lia.
Qed.

Import wire observe main.

(* ================================================================== *)
(** ** The [-vfs] flag *)
(* ================================================================== *)

Lemma byte_eqb_spec (a b : byte) : reflect (a = b) (Byte.eqb a b).
Proof.
  destruct (Byte.eqb a b) eqn:E; constructor.
  - by apply Byte.byte_dec_bl.
  - intros ->. by rewrite (Byte.byte_dec_lb eq_refl) in E.
Qed.

Lemma strings_Index_spec (s : list byte) (sep : byte) :
  (strings_Index s sep = -1 /\ sep ∉ s)
  \/ (0 <= strings_Index s sep < len s
      /\ s = take (Z.to_nat (strings_Index s sep)) s
               ++ sep :: drop (Z.to_nat (strings_Index s sep + 1)) s
      /\ sep ∉ take (Z.to_nat (strings_Index s sep)) s).
Proof.
  induction s as [|b s IH]; cbn [strings_Index].
  { left. split; [done|]. apply not_elem_of_nil. }
  destruct (byte_eqb_spec b sep) as [->|Hne].
  { right. cbn. split; [unfold len; cbn; lia|]. split; [done|].
    apply not_elem_of_nil. }
  destruct IH as [[-> Hnot] | (Hrange & Hsplit & Hnot)].
  { left. split; [done|]. by apply not_elem_of_cons. }
  right.
  destruct (Z.eqb_spec (strings_Index s sep) (-1)) as [E|_]; [lia|].
  assert (Hlen : len (b :: s) = 1 + len s) by (unfold len; cbn; lia).
  rewrite Hlen. split; [lia|].
  replace (Z.to_nat (1 + strings_Index s sep))
    with (S (Z.to_nat (strings_Index s sep))) by lia.
  replace (Z.to_nat (1 + strings_Index s sep + 1))
    with (S (Z.to_nat (strings_Index s sep + 1))) by lia.
  cbn [take drop app]. split; [by rewrite <- Hsplit|].
  by apply not_elem_of_cons.
Qed.

Lemma bytes_of_string_of_bytes b : bytes_of_string (string_of_bytes b) = b.
Proof. apply String.list_byte_of_string_of_list_byte. Qed.

(** X20: parseVFS never fails; it splits its argument at the first colon:
    the engine name has no colon in it, and name, colon and parameters put
    together are the argument -- the parameters may hold further colons;
    an argument without a colon is the name, with empty parameters. *)
Theorem parseVFS_splits_at_first_colon (s : string) :
  exists name params,
    parseVFS s = Ok (name, params)
    /\ (x3a ∉ bytes_of_string name)
    /\ (bytes_of_string s
        = bytes_of_string name ++ x3a :: bytes_of_string params
        \/ ((x3a ∉ bytes_of_string s) /\ name = s /\ params = "")).
Proof.
  unfold parseVFS. cbv zeta.
  destruct (strings_Index_spec (bytes_of_string s) x3a)
    as [[-> Hnot] | (Hrange & Hsplit & Hnot)].
  { exists s, "". cbn [Z.eqb]. split; [done|]. split; [done|]. by right. }
  destruct (Z.eqb_spec (strings_Index (bytes_of_string s) x3a) (-1));
    [lia|].
  rewrite slice_to_Ok, slice_from_Ok by lia. rewrite !bind_ret.
  eexists _, _. split; [done|].
  rewrite !bytes_of_string_of_bytes. split; [done|]. by left.
Qed.

Import wire observe.

(* ================================================================== *)
(** ** Runs: shutting down *)
(* ================================================================== *)

Section Shutdown.
Context {W : Type} (lib : Library).
Implicit Types (s : @Session W) (g : @System W).

Lemma step_final g l g' :
  step lib g l g' ->
  (closed (session g) = true -> closed (session g') = true)
  /\ (reader g = RExited -> reader g' = RExited)
  /\ (writer g = WrExited -> writer g' = WrExited /\ rw_out g' = rw_out g)
  /\ (dispatcher g = DExited ->
      dispatcher g' = DExited /\ files (session g') = files (session g))
  /\ ((reader g' = RExited \/ writer g' = WrExited \/ dispatcher g' = DExited)
      -> (reader g = RExited \/ writer g = WrExited \/ dispatcher g = DExited)
         \/ closed (session g') = true).
Proof.
  intros Hstep.
  destruct Hstep; cbn; rewrite ?set_wst_closed, ?set_wst_files.
  all: try (repeat split; intros; simplify_eq; intuition congruence).
  1-3: unfold readerRead;
    match goal with H : ReadPacket _ = _ |- _ => rewrite H end; cbn;
    repeat split; intros; simplify_eq; intuition congruence.
  - (* the dispatcher takes a request *)
    destruct (dispatcherTake_view lib req rest g) as (_ & _ & Hr & Hd).
    destruct (dispatcherTake_frame lib req rest g) as (_ & _ & _ & Ho & Hw).
    cbv zeta in Hd. rewrite Hr, Hw, Ho, Hd, dispatcherTake_session.
    pose proof (dispatch_closed lib req (set_inbox rest (session g))) as Hc.
    destruct (dispatch lib req (set_inbox rest (session g))) as [s' e].
    cbn [fst snd] in *. cbn [closed set_inbox] in Hc.
    repeat split; intros; simplify_eq; destruct e; cbn;
      try congruence; try intuition congruence; auto.
  - (* the goroutine of a handle serves a request *)
    destruct (workerServe_view lib c wk req g) as (_ & Hr & Hd).
    destruct (workerServe_frame lib c wk req g) as (_ & _ & _ & Ho & Hw).
    rewrite Hr, Hd, Hw, Ho, workerServe_files.
    assert (Hc : closed (session (workerServe lib c wk req g))
                 = closed (session g)).
    { unfold workerServe.
      destruct (serve lib (wfile wk) req (world (session g)))
        as [[w eff] again].
      destruct eff; cbn; by rewrite ?set_wst_closed. }
    rewrite Hc. repeat split; intros; simplify_eq; intuition congruence.
Qed.

(** X21: in every run of Serve, once one of the reader, the writer and the
    dispatcher has left, the shutdown signal is given; and from any state
    on, the signal stays given, a goroutine that has left stays away,
    nothing is written to the connection after the writer has left, and
    the handle table does not change after the dispatcher has left. *)
Theorem shutdown_is_final (opt : Options) (fs0 : VFS.t W) (w : W)
        (rw : list byte) (tr tr' : list Label) g g' :
  exec lib (Serve opt fs0 w rw) tr g ->
  exec lib g tr' g' ->
  ((reader g = RExited \/ writer g = WrExited \/ dispatcher g = DExited) ->
   closed (session g) = true)
  /\ (closed (session g) = true -> closed (session g') = true)
  /\ (reader g = RExited -> reader g' = RExited)
  /\ (writer g = WrExited -> writer g' = WrExited /\ rw_out g' = rw_out g)
  /\ (dispatcher g = DExited ->
      dispatcher g' = DExited /\ files (session g') = files (session g)).
Proof.
  intros Hexec Hexec'. split.
  - clear Hexec'.
    remember (Serve opt fs0 w rw) as g0 eqn:Hg0.
    induction Hexec as [g|g tr0 g1 l g2 Hexec IH _ Hstep]; subst.
    { cbn. intros [? | [? | ?]]; done. }
    destruct (step_final _ _ _ Hstep) as (Hc & _ & _ & _ & Hex).
    intros Hgone. destruct (Hex Hgone) as [Hbefore | ?]; [|done].
    apply Hc. by apply IH.
  - clear Hexec.
    induction Hexec' as [g|g tr0 g1 l g2 Hexec IH _ Hstep]; [done|].
    destruct IH as (IHc & IHr & IHw & IHd).
    destruct (step_final _ _ _ Hstep) as (Hc & Hr & Hw & Hd & _).
    split; [|split; [|split]].
    + intros HH. by apply Hc, IHc.
    + intros HH. by apply Hr, IHr.
    + intros HH. destruct (IHw HH) as [H1 H2].
      destruct (Hw H1) as [H3 ->]. done.
    + intros HH. destruct (IHd HH) as [H1 H2].
      destruct (Hd H1) as [H3 ->]. done.
Qed.

End Shutdown.

Lemma shutdown_is_final_witness :
  (reader demo.g9 = RExited \/ writer demo.g9 = WrExited
   \/ dispatcher demo.g9 = DExited) ->
  closed (session demo.g9) = true.
Proof.
  exact (proj1 (shutdown_is_final memfs.lib _ _ _ _ _ [] _ demo.g9
                  demo_run_write (exec_nil _ _))).
Defined.

Import wire observe.

(* ================================================================== *)
(** ** Runs: what can make the server panic *)
(* ================================================================== *)

Lemma MarshalBinary_Panic p :
  MarshalBinary p = Panic ->
  exists ID l data, p = FxpDataPacket ID l data /\ slice_to data l = Panic.
Proof.
  destruct p; cbn [MarshalBinary]; unfold marshalIDString; try done.
  cbv zeta. intros H. exists ID, Length, Data. split; [done|].
  by destruct (slice_to Data Length).
Qed.

Lemma WritePacket_Panic w p : WritePacket w p = Panic -> ~ marshals p.
Proof.
  unfold WritePacket, marshals.
  destruct (MarshalBinary p) as [bb|e|]; intros H; [discriminate H..|].
  intros Hne. by apply Hne.
Qed.

Lemma marshals_status ID msg code : marshals (MakeStatus ID msg code).
Proof. done. Qed.

Section Panics.
Context {W : Type} (lib : Library).
Implicit Types (s : @Session W) (g : @System W).

Lemma respondError_marshals ID err e resp :
  respondError ID err = e -> e = Respond resp -> marshals resp.
Proof.
  intros <- H. destruct (respondError_status ID err) as (msg & code & E).
  rewrite E in H. by simplify_eq.
Qed.

Ltac by_status :=
  repeat match goal with
         | H : respondOk ?i = ?e |- _ => unfold respondOk in H; simplify_eq
         | H : respondError ?i ?err = ?e |- _ =>
             apply respondError_ID in H as (? & ? & ?); simplify_eq
         | |- context [respondError ?i ?err] =>
             destruct (respondError_status i err) as (? & ? & ->)
         end;
  simplify_eq; try done.

Lemma dispatch_marshals req s s1 resp :
  dispatch lib req s = (s1, Respond resp) -> marshals resp.
Proof.
  destruct req; cbn [dispatch]; try (by intros [= <- HH]).
  all: unfold handleClose, handleFstat, handleInit, handleLstat, handleMkdir,
      handleOpenDir, handleReadDir, handleReadLink, handleRead,
      handleRealPath, handleRemove, handleRename, handleRmdir, handleSetStat,
      handleStat, handleSymlink, handleWrite, forward, statReply,
      newFileHandle; cbv zeta.
  all: try (lazymatch goal with
            | |- context [handleOpen] => fail
            | _ => idtac
            end;
            intros H; repeat case_match; simplify_eq; by_status).
  (* OPEN *)
  unfold handleOpen, newFileHandle.
  destruct (_ >? _); [intros [= <- HH]; by_status|].
  cbv zeta.
  repeat match goal with
         | |- context [let '(a, b) := ?e in _] =>
             destruct e as [? ?]; cbv iota beta
         end.
  destruct (nonzero _); [intros [= <- HH]; by_status|].
  match goal with
  | r : result (File.t W) |- _ => destruct r as [f|err]
  end; intros [= <- HH]; by_status.
Qed.

Lemma serve_marshals (f : File.t W) req w w1 resp again :
  serve lib f req w = (w1, Respond resp, again) -> marshals resp.
Proof.
  assert (Hdata : forall ID (buf data : list byte) n,
            slice_to buf n = Ok data ->
            marshals (FxpDataPacket ID (uint32 n) data)).
  { intros ID buf data n. unfold slice_to.
    destruct (Z.leb_spec 0 n), (Z.leb_spec n (len buf)); cbn [andb];
      intros Hs; simplify_eq.
    unfold marshals. cbn [MarshalBinary]. cbv zeta.
    rewrite slice_to_Ok; [done|].
    rewrite len_take by lia. pose proof (uint32_le n).
    unfold uint32 in *. pose proof (Z.mod_pos_bound n (2 ^ 32)). lia. }
  destruct req; cbn [serve]; try (by intros [= <- <- <-]).
  all: intros H; repeat case_match; simplify_eq; by_status.
  all: by eapply Hdata.
Qed.

Lemma workerServe_resp c wk req g :
  exists st,
    goroutines (session (workerServe lib c wk req g))
    = goroutines (set_wst c st (session g))
    /\ (forall resp again, st = Responding resp again -> marshals resp)
    /\ (panicked (workerServe lib c wk req g) = true ->
        panicked g = true \/ is_read req).
Proof.
  unfold workerServe.
  pose proof (serve_marshals (wfile wk) req (world (session g))) as Hm.
  pose proof (serve_answer lib (wfile wk) req (world (session g))) as Ha.
  destruct (serve lib (wfile wk) req (world (session g)))
    as [[w eff] again].
  specialize (Ha w eff again eq_refl).
  assert (Hw : forall st, goroutines (set_wst c st (set_world w (session g)))
                          = goroutines (set_wst c st (session g))).
  { intros st. unfold set_wst. cbn. by destruct (goroutines (session g) !! c). }
  destruct eff; cbn [session set_session panic panicked]; rewrite Hw;
    eexists; (split; [done|]); (split; [|by auto]);
    intros resp' again' E; simplify_eq; try (by destruct again).
  by eapply Hm.
Qed.

Lemma step_marshals g l g' :
  step lib g l g' ->
  Forall marshals (outbox (session g)) ->
  (forall resp, dispatcher g = Doing (Respond resp) -> marshals resp) ->
  (forall c wk resp again,
      goroutines (session g) !! c = Some wk ->
      wst wk = Responding resp again -> marshals resp) ->
  (Forall marshals (outbox (session g'))
   /\ (forall resp, dispatcher g' = Doing (Respond resp) -> marshals resp)
   /\ (forall c wk resp again,
         goroutines (session g') !! c = Some wk ->
         wst wk = Responding resp again -> marshals resp))
  /\ (panicked g' = true ->
      panicked g = true \/ exists h req, l = LServe h req /\ is_read req).
Proof.
  intros Hstep Ho Hd Hw.
  assert (Hset : forall c0 st s0,
            goroutines s0 = goroutines (session g) ->
            (forall resp again, st = Responding resp again -> marshals resp) ->
            forall c wk resp again,
              goroutines (set_wst c0 st s0) !! c = Some wk ->
              wst wk = Responding resp again -> marshals resp).
  { intros c0 st s0 Hs0 Hst c wk resp again Hc Hr.
    rewrite lookup_set_wst, Hs0 in Hc.
    destruct (decide (c0 = c)) as [->|Hne]; [|by eapply Hw].
    destruct (goroutines (session g) !! c) as [wk0|]; cbn in Hc; simplify_eq.
    cbn in Hr. by eapply Hst. }
  destruct Hstep; cbn.
  all: try (split; [split; [done | split; [done | done]] | by left]).
  - (* the reader reads a packet *)
    unfold readerRead.
    match goal with H : ReadPacket _ = _ |- _ => rewrite H end.
    cbn. split; [done | by left].
  - unfold readerRead.
    match goal with H : ReadPacket _ = _ |- _ => rewrite H end.
    cbn. split; [done | by left].
  - exfalso. apply (ReadPacket_safe (rw_in g)).
    match goal with H : ReadPacket _ = _ |- _ => by rewrite H end.
  - (* the writer writes *)
    split; [|by left].
    match goal with H : outbox (session g) = _ |- _ => rewrite H in Ho end.
    apply Forall_cons in Ho as [_ Ho]. done.
  - (* the writer cannot panic *)
    exfalso.
    match goal with
    | H : outbox (session g) = _, Hp : WritePacket _ _ = Panic |- _ =>
        rewrite H in Ho; apply WritePacket_Panic in Hp;
        apply Forall_cons in Ho as [Ho _]; by apply Hp
    end.
  - (* the dispatcher takes a request *)
    destruct (dispatcherTake_view lib req rest g) as (Hg & _ & _ & Hdd).
    destruct (dispatcherTake_frame lib req rest g) as (_ & Hob & _).
    cbv zeta in Hg, Hdd. rewrite Hob, Hdd, Hg.
    pose proof (dispatch_marshals req (set_inbox rest (session g))) as Hm.
    assert (Hp : panicked (dispatcherTake lib req rest g).1 = panicked g).
    { unfold dispatcherTake.
      by destruct (dispatch lib req (set_inbox rest (session g))) as [s' []]. }
    rewrite Hp. split; [|by left]. split; [done|]. split.
    + intros resp Hr.
      destruct (dispatch lib req (set_inbox rest (session g))) as [s' e].
      cbn [snd] in Hr. apply (Hm s' resp). destruct e; by simplify_eq.
    + destruct (dispatch_cases lib req (set_inbox rest (session g)))
        as [(ID & f & w & E) | [(ID & k & hd & _ & _ & E)
           | [(k & hd & _ & _ & E) | (w & e & _ & E)]]];
        cbv zeta in E; rewrite E; cbn; try done.
      intros c wk resp again Hc Hr.
      apply lookup_app_Some in Hc as [Hc | [_ Hc]]; [by eapply Hw|].
      apply list_lookup_singleton_Some in Hc as [_ <-]. done.
  - (* the dispatcher's response is queued *)
    split; [|by left]. split; [|done].
    apply Forall_app. split; [done|]. apply Forall_singleton. by apply Hd.
  - (* a request is handed to a goroutine *)
    split; [|by left]. rewrite set_wst_outbox. split; [done|]. split; [done|].
    by apply Hset.
  - (* a goroutine serves a request *)
    destruct (workerServe_resp c wk req g) as (st & Hg & Hst & Hp).
    destruct (workerServe_frame lib c wk req g) as (_ & Hob & _).
    destruct (workerServe_view lib c wk req g) as (_ & _ & Hdd).
    rewrite Hob, Hdd, Hg. split.
    + split; [done|]. split; [done|]. by apply Hset.
    + intros Hpan. destruct (Hp Hpan) as [? | ?]; [by left|].
      right. by eexists _, _.
  - (* the response of a goroutine is queued *)
    split; [|by left]. rewrite set_wst_outbox. cbn. split; [|split; [done|]].
    + apply Forall_app. split; [done|]. apply Forall_singleton.
      by eapply Hw.
    + apply Hset; [done|]. by destruct again.
  - split; [|by left]. rewrite set_wst_outbox. split; [done|].
    split; [done|]. apply Hset; [done|]. by destruct again.
Qed.

(** X22: in every run of Serve, whatever the client sends, the programme
    panics only in the goroutine of a handle while it serves a READ (when
    the backend's ReadAt reports a count outside the buffer): reading and
    decoding a packet never panics, no response the server makes lets
    WritePacket panic, and no handler of the dispatcher panics. *)
Theorem only_a_read_can_panic (opt : Options) (fs0 : VFS.t W) (w : W)
        (rw : list byte) (tr : list Label) g :
  exec lib (Serve opt fs0 w rw) tr g ->
  panicked g = false
  \/ exists tr0 h req, tr = tr0 ++ [LServe h req] /\ is_read req.
Proof.
  intros Hexec.
  remember (Serve opt fs0 w rw) as g0 eqn:Hg0.
  assert ((Forall marshals (outbox (session g))
           /\ (forall resp, dispatcher g = Doing (Respond resp) ->
                            marshals resp)
           /\ (forall c wk resp again,
                 goroutines (session g) !! c = Some wk ->
                 wst wk = Responding resp again -> marshals resp))
          /\ (panicked g = true ->
              exists tr0 h req, tr = tr0 ++ [LServe h req] /\ is_read req))
    as [_ H].
  2: { destruct (panicked g); [right; by apply H | by left]. }
  induction Hexec as [g|g tr g1 l g2 Hexec IH Hpanic Hstep]; subst.
  { cbn. split; [|done]. split; [constructor|]. split; [done|].
    intros c wk resp again Hc. by rewrite lookup_nil in Hc. }
  destruct (IH eq_refl) as [(IHo & IHd & IHw) _].
  destruct (step_marshals _ _ _ Hstep IHo IHd IHw) as [Hinv Hp].
  split; [done|]. intros Hpan.
  destruct (Hp Hpan) as [E | (h & req & -> & Hread)]; [congruence|].
  by exists tr, h, req.
Qed.

End Panics.

Lemma only_a_read_can_panic_witness :
  panicked demo.g9 = false
  \/ exists tr0 h req, demo.run_write = tr0 ++ [LServe h req] /\ is_read req.
Proof.
  exact (only_a_read_can_panic memfs.lib _ _ _ _ _ _ demo_run_write).
Defined.

Import wire observe.

(* ================================================================== *)
(** ** Runs: the handles in the table *)
(* ================================================================== *)

Lemma forwarded_snoc h tr l :
  forwarded h (tr ++ [l])
  = forwarded h tr ++ match l with
                      | LDispatch _ (Send h' r) =>
                          if decide (h' = h) then [r] else []
                      | _ => []
                      end.
Proof.
  rewrite forwarded_app. f_equal. unfold forwarded. cbn.
  destruct l; try done. destruct e; try done. by destruct (decide (h0 = h)).
Qed.

Section Table.
Context {W : Type} (lib : Library).
Implicit Types (s : @Session W) (g : @System W).

Lemma exec_forwarded_known opt fs0 w rw tr g h :
  exec lib (Serve opt fs0 w rw) tr g ->
  forwarded h tr <> [] ->
  wh <$> goroutines (session g) !! reqChan h = Some h.
Proof.
  intros Hexec.
  remember (Serve opt fs0 w rw) as g0 eqn:Hg0.
  induction Hexec as [g|g tr g1 l g2 Hexec IH _ Hstep]; subst; [done|].
  intros Hne. apply (step_wh_mono lib _ _ _ _ _ Hstep).
  destruct (forwarded h tr) as [|r0 fw] eqn:Efw; [|by apply IH].
  rewrite forwarded_snoc, Efw in Hne. cbn in Hne.
  destruct l as [| | | | | |req e| | | | |]; try done.
  destruct e as [|h' r| | |]; try done.
  destruct (decide (h' = h)) as [->|]; [|done].
  inversion Hstep; subst.
  destruct (exec_table lib _ _ _ _ _ _ Hexec) as (Htab & _ & _).
  match goal with
  | H : _ = LDispatch _ _ |- _ => clear H
  | _ => idtac
  end.
  assert (Heff : (dispatch lib req (set_inbox rest (session g1))).2
                 = Send h r).
  { rewrite <- dispatcherTake_effect. congruence. }
  destruct (dispatch_cases lib req (set_inbox rest (session g1)))
    as [(ID & f & w' & E) | [(ID & k & hd & _ & Hk & E)
       | [(k & hd & _ & Hk & E) | (w' & e & [He _] & E)]]];
    cbv zeta in E; rewrite E in Heff; cbn in Heff; simplify_eq.
  - by apply (Htab k).
  - by apply (Htab k).
  - by destruct (He h r).
Qed.

Lemma dispatch_forward_not_close req s hd :
  files s !! default "" (Handle_of req) = Some hd ->
  dispatch lib req s = (s, Send hd req) -> ~ is_close req.
Proof.
  intros Hk E (ID & k & ->). cbn in Hk. cbn [dispatch] in E.
  unfold handleClose in E. rewrite Hk in E. injection E as E1.
  assert (Hf : files (set_files (delete k (files s)) s) !! k = Some hd)
    by (by rewrite E1).
  cbn in Hf. by rewrite lookup_delete_eq in Hf.
Qed.

Lemma exec_table_open opt fs0 w rw tr g :
  exec lib (Serve opt fs0 w rw) tr g ->
  forall k h, files (session g) !! k = Some h ->
              Forall (fun r => ~ is_close r) (forwarded h tr).
Proof.
  intros Hexec.
  remember (Serve opt fs0 w rw) as g0 eqn:Hg0.
  induction Hexec as [g|g tr g1 l g2 Hexec IH _ Hstep]; subst.
  { intros k h Hk. constructor. }
  specialize (IH eq_refl).
  destruct (exec_table lib _ _ _ _ _ _ Hexec) as (Htab & _ & _).
  pose proof (fun h => exec_forwarded_known _ _ _ _ _ _ h Hexec) as Hknown.
  assert (Hl : (exists req e, l = LDispatch req e)
               \/ (forall req e, l <> LDispatch req e))
    by (destruct l; first [left; by eexists _, _ | by right]).
  destruct Hl as [(req & e & ->) | Hl].
  2: { intros k h Hk. destruct (step_table lib _ _ _ Hstep Hl) as [Hf _].
       rewrite Hf in Hk. rewrite forwarded_snoc.
       destruct l; try (rewrite app_nil_r; by eapply IH).
       by destruct (Hl req e). }
  inversion Hstep; subst.
  intros k h. rewrite dispatcherTake_files, forwarded_snoc.
  rewrite dispatcherTake_effect.
  destruct (dispatch_cases lib req (set_inbox rest (session g1)))
    as [(ID & f & w' & E) | [(ID & k0 & hd & -> & Hk0 & E)
       | [(k0 & hd & Hname & Hk0 & E) | (w' & e & [He _] & E)]]];
    cbv zeta in E; rewrite E; cbn [fst snd files set_files set_world set_inbox].
  - (* a handle is given out *)
    rewrite app_nil_r. intros Hk.
    apply lookup_insert_Some in Hk as [[<- <-] | [_ Hk]]; [|by eapply IH].
    destruct (forwarded _ tr) eqn:Efw; [constructor|].
    exfalso.
    assert (Hne : forwarded
                    (mkHandle (pretty (fcounter (set_inbox rest (session g1))))
                              (length (goroutines
                                         (set_inbox rest (session g1))))) tr
                  <> []) by (by rewrite Efw).
    apply Hknown in Hne. cbn in Hne.
    by rewrite lookup_ge_None_2 in Hne.
  - (* a CLOSE is forwarded and its handle leaves the table *)
    intros Hk. apply lookup_delete_Some in Hk as [Hne Hk].
    destruct (decide (hd = h)) as [->|_]; [|rewrite app_nil_r; by eapply IH].
    exfalso. cbn in Hk0.
    destruct (Htab _ _ Hk) as [<- _]. destruct (Htab _ _ Hk0) as [E' _].
    by apply Hne.
  - (* a request is forwarded *)
    intros Hk. destruct (decide (hd = h)) as [->|_];
      [|rewrite app_nil_r; by eapply IH].
    apply Forall_app. split; [by eapply IH|]. apply Forall_singleton.
    apply (dispatch_forward_not_close req (set_inbox rest (session g1)) h);
      [by rewrite Hname | done].
  - (* the dispatcher answers by itself *)
    intros Hk.
    assert ((match e with
             | Send h' r => if decide (h' = h) then [r] else []
             | _ => []
             end) = []) as ->
      by (destruct e; try done; by destruct (He h0 req0)).
    rewrite app_nil_r. by eapply IH.
Qed.

(** X23: in every run of Serve, no CLOSE has been forwarded to the
    goroutine of a handle that is in the table, so none has been run
    there: the file of a handle in the table has not been closed, and what
    its goroutine has run is a prefix of what was forwarded to it. *)
Theorem table_handles_have_open_files (opt : Options) (fs0 : VFS.t W)
        (w : W) (rw : list byte) (tr : list Label) g (k : string)
        (h : handle) :
  exec lib (Serve opt fs0 w rw) tr g ->
  files (session g) !! k = Some h ->
  Forall (fun r => ~ is_close r) (forwarded h tr)
  /\ Forall (fun r => ~ is_close r) (served h tr)
  /\ served h tr `prefix_of` forwarded h tr.
Proof.
  intros Hexec Hk.
  pose proof (exec_table_open _ _ _ _ _ _ Hexec k h Hk) as Hfw.
  destruct (exec_queues lib _ _ _ _ _ _ Hexec) as (_ & Hf & Hs & _).
  assert (Hpre : served h tr `prefix_of` forwarded h tr).
  { rewrite Hf, Hs, <- app_assoc. by eexists. }
  split; [done|]. split; [|done].
  destruct Hpre as [rest Hrest]. rewrite Hrest in Hfw.
  by apply Forall_app in Hfw as [? _].
Qed.

End Table.

Lemma table_handles_have_open_files_witness :
  Forall (fun r => ~ is_close r) (served demo.h0 demo.run_write).
Proof.
  refine (proj1 (proj2 (table_handles_have_open_files memfs.lib _ _ _ _ _
                          demo.g9 "0" demo.h0 demo_run_write _))).
  vm_compute. reflexivity.
Defined.
